(** * Kroki Enhanced: source encoder, type resolver, cache, request
      pipeline and render orchestrator

    A shallow embedding of
      - src/kroki-client.ts      (KrokiClient),
      - src/diagram-detector.ts  (DiagramDetector),
      - src/diagram-cache.ts     (DiagramCache),
      - src/diagram-renderer.ts  (DiagramRenderer),
    of the debug manager, of the argument builder of the pandoc exporter
    and of the renderer set-up of the plugin, followed by the properties
    of the specification that concern them and by further properties of
    the code.

    Conventions.
      - A JavaScript string is a [string] of code units below 256.
      - A JavaScript number that the code uses as a count, a status or a
        time stamp is a [Z].
      - [Date.now()] is an explicit argument of the operation reading it.
      - A [throw] is the [Throw] result; [await] is sequencing in the
        monad [M], whose state records every call of the HTTP transport
        and every back-off delay. *)

From Stdlib Require Import ZArith List Ascii String Bool Lia.
From Stdlib Require Import Strings.Byte Sorting.Permutation Sorting.Sorted QArith.
From Stdlib Require Import Numbers.DecimalString.
From stdpp Require Import base gmap strings.
Import ListNotations.

Local Open Scope string_scope.
Local Open Scope Z_scope.

(** ** JavaScript strings *)

Module JsString.

Definition code (c : ascii) : N := N_of_ascii c.

(** White space and line terminators of [String.prototype.trim] and of
    the regular-expression class [\s], among the code units below 256:
    TAB, LF, VT, FF, CR, SPACE and NBSP. *)
Definition is_space (c : ascii) : bool :=
  let n := code c in
  ((9 <=? n) && (n <=? 13) || (n =? 32) || (n =? 160))%N.

(** The regular-expression class [\w]: [A-Za-z0-9_]. *)
Definition is_word (c : ascii) : bool :=
  let n := code c in
  ((65 <=? n) && (n <=? 90) || (97 <=? n) && (n <=? 122)
   || (48 <=? n) && (n <=? 57) || (n =? 95))%N.

(** What the regular-expression atom [.] refuses: LF and CR. *)
Definition is_line_terminator (c : ascii) : bool :=
  let n := code c in ((n =? 10) || (n =? 13))%N.

(** Canonicalisation of the [i] flag: ASCII letters to upper case. No
    code unit from 128 on canonicalises to an ASCII one. *)
Definition upper (c : ascii) : ascii :=
  let n := code c in
  if ((97 <=? n) && (n <=? 122))%N then ascii_of_N (n - 32) else c.

Fixpoint drop_while (p : ascii -> bool) (s : string) : string :=
  match s with
  | EmptyString => EmptyString
  | String c s' => if p c then drop_while p s' else s
  end.

Fixpoint take_while (p : ascii -> bool) (s : string) : string :=
  match s with
  | EmptyString => EmptyString
  | String c s' => if p c then String c (take_while p s') else EmptyString
  end.

Fixpoint all_chars (p : ascii -> bool) (s : string) : bool :=
  match s with
  | EmptyString => true
  | String c s' => p c && all_chars p s'
  end.

(** [t] is empty or starts with a character outside [p]. *)
Definition stops (p : ascii -> bool) (t : string) : Prop :=
  match t with
  | EmptyString => True
  | String c _ => p c = false
  end.

(** Removes the longest suffix made of characters satisfying [p]. *)
Fixpoint drop_while_end (p : ascii -> bool) (s : string) : string :=
  match s with
  | EmptyString => EmptyString
  | String c s' =>
      match drop_while_end p s' with
      | EmptyString => if p c then EmptyString else String c EmptyString
      | r => String c r
      end
  end.

(** [s.trim()] *)
Definition trim (s : string) : string :=
  drop_while_end is_space (drop_while is_space s).

(** [s.replace(/a/g, b)] for single characters [a] and [b]. *)
Fixpoint replace_char (a b : ascii) (s : string) : string :=
  match s with
  | EmptyString => EmptyString
  | String c s' =>
      String (if Ascii.eqb c a then b else c) (replace_char a b s')
  end.

(** Does [s] start with [pat], letter case ignored? *)
Fixpoint prefix_ci (pat s : string) : bool :=
  match pat, s with
  | EmptyString, _ => true
  | String p pat', String c s' =>
      Ascii.eqb (upper p) (upper c) && prefix_ci pat' s'
  | String _ _, EmptyString => false
  end.

(** [s.replace(/pat/gi, rep)] for a literal, non-empty [pat]: the
    matches are found from left to right and do not overlap. [skip]
    counts the characters of the current match still to be passed. *)
Fixpoint replace_ci_from (pat rep : string) (skip : nat) (s : string)
  : string :=
  match s with
  | EmptyString => EmptyString
  | String c s' =>
      match skip with
      | S k => replace_ci_from pat rep k s'
      | O =>
          if prefix_ci pat s
          then rep +:+ replace_ci_from pat rep (Nat.pred (String.length pat)) s'
          else String c (replace_ci_from pat rep 0 s')
      end
  end.

Definition replace_all_ci (pat rep s : string) : string :=
  replace_ci_from pat rep 0 s.

(** [s.startsWith(pat)] *)
Fixpoint starts_with (pat s : string) : bool :=
  match pat, s with
  | EmptyString, _ => true
  | String p pat', String c s' => Ascii.eqb p c && starts_with pat' s'
  | String _ _, EmptyString => false
  end.

(** [s.includes(sub)] *)
Fixpoint includes (sub s : string) : bool :=
  starts_with sub s ||
  match s with
  | EmptyString => false
  | String _ s' => includes sub s'
  end.

(** Does the character [a] occur in [s]? *)
Fixpoint has_char (a : ascii) (s : string) : bool :=
  match s with
  | EmptyString => false
  | String c s' => Ascii.eqb c a || has_char a s'
  end.

(** [s.endsWith(suffix)] for a one-character suffix. *)
Fixpoint ends_with_char (a : ascii) (s : string) : bool :=
  match s with
  | EmptyString => false
  | String c EmptyString => Ascii.eqb c a
  | String _ s' => ends_with_char a s'
  end.

(** [s.split(sep)] for a one-character separator: never empty. *)
Fixpoint split (sep : ascii) (s : string) : list string :=
  match s with
  | EmptyString => [EmptyString]
  | String c s' =>
      if Ascii.eqb c sep then EmptyString :: split sep s'
      else match split sep s' with
           | [] => [String c EmptyString]
           | h :: t => String c h :: t
           end
  end.

(** Template-literal rendering of an integer. *)
Definition of_Z (z : Z) : string := NilEmpty.string_of_int (Z.to_int z).

(** The JavaScript idiom [s || d] on strings. *)
Definition or_else (s d : string) : string :=
  match s with EmptyString => d | _ => s end.

End JsString.

(** ** Base64, as [Buffer.toString('base64')] and [btoa] produce it *)

Module Base64.

Definition alphabet : string :=
  "ABCDEFGHIJKLMNOPQRSTUVWXYZabcdefghijklmnopqrstuvwxyz0123456789+/".

Definition digit (n : N) : ascii :=
  match String.get (N.to_nat (n mod 64)) alphabet with
  | Some c => c
  | None => "="%char
  end.

Definition pad : ascii := "="%char.

(** The characters of the alphabet: [A-Za-z0-9], [+] and [/]. *)
Definition is_digit (c : ascii) : bool :=
  JsString.is_word c && negb (Ascii.eqb c "_"%char)
  || Ascii.eqb c "+"%char || Ascii.eqb c "/"%char.

Fixpoint encode (bs : list byte) : string :=
  match bs with
  | [] => EmptyString
  | [a] =>
      let n := (Byte.to_N a * 65536)%N in
      String (digit (n / 262144)) (String (digit (n / 4096))
        (String pad (String pad EmptyString)))
  | [a; b] =>
      let n := (Byte.to_N a * 65536 + Byte.to_N b * 256)%N in
      String (digit (n / 262144)) (String (digit (n / 4096))
        (String (digit (n / 64)) (String pad EmptyString)))
  | a :: b :: c :: rest =>
      let n := (Byte.to_N a * 65536 + Byte.to_N b * 256 + Byte.to_N c)%N in
      String (digit (n / 262144)) (String (digit (n / 4096))
        (String (digit (n / 64)) (String (digit n) (encode rest))))
  end.

End Base64.

(** ** Exceptions, and the monad of the asynchronous code *)

Record JsError : Type := { name : string; message : string }.

(** [new Error(msg)] *)
Definition mkError (msg : string) : JsError :=
  {| name := "Error"; message := msg |}.

Inductive result (A : Type) : Type :=
| Ok (a : A)
| Throw (e : JsError).

Arguments Ok {A} a.
Arguments Throw {A} e.

(** A computation over a state [S] that returns normally or throws. The
    effects performed before a [throw] stay performed. *)
Definition M (S A : Type) : Type := S -> result A * S.

Definition ret {S A} (a : A) : M S A := fun s => (Ok a, s).

Definition throw {S A} (e : JsError) : M S A := fun s => (Throw e, s).

Definition bind {S A B} (m : M S A) (k : A -> M S B) : M S B :=
  fun s => match m s with
           | (Ok a, s') => k a s'
           | (Throw e, s') => (Throw e, s')
           end.

(** [try { m } catch (error) { h error }] *)
Definition try_catch {S A} (m : M S A) (h : JsError -> M S A) : M S A :=
  fun s => match m s with
           | (Ok a, s') => (Ok a, s')
           | (Throw e, s') => h e s'
           end.

Definition of_result {S A} (r : result A) : M S A := fun s => (r, s).

Notation "'do' x <- m ; k" := (bind m (fun x => k))
  (at level 10, x name, m at level 100, k at level 200).
Notation "'do_' m ; k" := (bind m (fun _ => k))
  (at level 10, m at level 100, k at level 200).

(** ** The HTTP transport of the host ([requestUrl]) and pako *)

Record RequestUrlParam : Type := {
  url : string;
  method : string;
  headers : gmap string string;
  body : option string
}.

Record RequestUrlResponse : Type := {
  status : Z;
  text : string;
  arrayBuffer : option (list byte);
  contentType : option string   (* headers['content-type'] *)
}.

(** What the code takes from outside the repository. [pako_deflate] is
    [pako.deflate(source, {level: 9})], [None] when it throws.
    [requestUrl] answers a request given the requests made before it, so
    that any scripted transport is an instance. *)
Record Env : Type := {
  pako_deflate : string -> option (list byte);
  requestUrl : list RequestUrlParam -> RequestUrlParam -> result RequestUrlResponse
}.

(** The observable network activity: the transport calls in order and
    the back-off delays in order. *)
Record Net : Type := { calls : list RequestUrlParam; delays : list Z }.

Definition no_traffic : Net := {| calls := []; delays := [] |}.

(** ** src/kroki-client.ts *)

Module KrokiClient.

Record KrokiRequestOptions : Type := {
  diagramType : string;
  outputFormat : string;
  source : string;
  serverUrl : string;
  customHeaders : option (gmap string string);
  timeout : option Z;
  retryCount : option Z;
  retryDelay : option Z
}.

Record KrokiResponse : Type := {
  success : bool;
  data : option string;
  error : option string;
  statusCode : option Z
}.

(** The steps after compression: base64, then [+] to [-], [/] to [_],
    and the trailing [=] removed. *)
Definition urlSafe (base64 : string) : string :=
  JsString.drop_while_end (Ascii.eqb "="%char)
    (JsString.replace_char "/"%char "_"%char
       (JsString.replace_char "+"%char "-"%char base64)).

(** The characters left once [urlSafe] has run: [A-Za-z0-9_] and [-]. *)
Definition path_safe (c : ascii) : bool :=
  JsString.is_word c || Ascii.eqb c "-"%char.

Definition encodeDiagramSource (E : Env) (source : string) : result string :=
  let source := JsString.trim source in
  let source := JsString.replace_all_ci "&nbsp;" " " source in
  let source := JsString.replace_all_ci "&gt;" ">" source in
  let source := JsString.replace_all_ci "&lt;" "<" source in
  match pako_deflate E source with
  | Some compressed => Ok (urlSafe (Base64.encode compressed))
  | None => Throw (mkError "Failed to encode diagram source")
  end.

(** [requestUrl(requestParams)], recorded. *)
Definition request (E : Env) (requestParams : RequestUrlParam)
  : M Net RequestUrlResponse :=
  fun n => (requestUrl E (calls n) requestParams,
            {| calls := calls n ++ [requestParams]; delays := delays n |}).

Definition delay (ms : Z) : M Net unit :=
  fun n => (Ok tt, {| calls := calls n; delays := delays n ++ [ms] |}).

Definition is_2xx (st : Z) : bool := (200 <=? st) && (st <? 300).

(** The [for] loop of [sendRequestWithRetry], with [remaining]
    iterations left before [attempt < maxRetries] fails, and the two
    [throw]s after it. Only [requestUrl] can throw inside the [try]. *)
Fixpoint retryLoop (E : Env) (requestParams : RequestUrlParam) (retryDelay : Z)
    (remaining : nat) (attempt : Z) (lastError : option JsError)
  : M Net RequestUrlResponse :=
  match remaining with
  | O =>
      match lastError with
      | Some e => throw e
      | None => throw (mkError "Unknown error during request")
      end
  | S remaining' =>
      fun n =>
        match request E requestParams n with
        | (Ok response, n1) =>
            if is_2xx (status response) then (Ok response, n1)
            else if 500 <=? status response then
              let lastError :=
                mkError ("Server error: " +:+ JsString.of_Z (status response)
                         +:+ " " +:+ text response) in
              (do_ delay (retryDelay * 2 ^ attempt);
               retryLoop E requestParams retryDelay remaining' (attempt + 1)
                 (Some lastError)) n1
            else (Ok response, n1)
        | (Throw error, n1) =>
            if String.eqb (name error) "AbortError"
               || JsString.includes "fetch" (message error)
            then
              (do_ delay (retryDelay * 2 ^ attempt);
               retryLoop E requestParams retryDelay remaining' (attempt + 1)
                 (Some error)) n1
            else (Throw error, n1)
        end
  end.

(** [maxRetries] is an integer here, so the loop body runs at most
    [Z.to_nat maxRetries] times. *)
Definition sendRequestWithRetry (E : Env) (requestParams : RequestUrlParam)
    (maxRetries retryDelay : Z) : M Net RequestUrlResponse :=
  retryLoop E requestParams retryDelay (Z.to_nat maxRetries) 0 None.

(** The answers of [requestUrl] after which the loop sleeps and goes on
    with its next iteration: a response whose status is 500 or more (no
    such status is a 2xx one), an [AbortError], an exception whose message
    holds [fetch]. After any other answer the loop is left at once. *)
Definition retryable (answer : result RequestUrlResponse) : bool :=
  match answer with
  | Ok response => 500 <=? status response
  | Throw error =>
      String.eqb (name error) "AbortError"
      || JsString.includes "fetch" (message error)
  end.

Definition arrayBufferToDataUrl (buffer : list byte) (mimeType : option string)
  : string :=
  "data:" +:+ default "undefined" mimeType +:+ ";base64," +:+ Base64.encode buffer.

Definition processResponse (response : RequestUrlResponse) : KrokiResponse :=
  if is_2xx (status response) then
    {| success := true;
       data := Some (match arrayBuffer response with
                     | Some buffer =>
                         arrayBufferToDataUrl buffer (contentType response)
                     | None => text response
                     end);
       error := None;
       statusCode := Some (status response) |}
  else
    {| success := false;
       data := None;
       error := Some (JsString.or_else (text response)
                        ("HTTP error " +:+ JsString.of_Z (status response)));
       statusCode := Some (status response) |}.

(** [n || d] on an optional number: [undefined] and [0] give [d]. *)
Definition num_or (n : option Z) (d : Z) : Z :=
  match n with
  | Some v => if v =? 0 then d else v
  | None => d
  end.

Definition withSlash (serverUrl : string) : string :=
  if JsString.ends_with_char "/"%char serverUrl then serverUrl
  else serverUrl +:+ "/".

(** [{ ...fixed, ...options.customHeaders }]: the custom headers win. *)
Definition mergeHeaders (fixed : gmap string string)
    (custom : option (gmap string string)) : gmap string string :=
  match custom with
  | Some h => h ∪ fixed
  | None => fixed
  end.

Definition getRequestParams (options : KrokiRequestOptions)
    (encodedSource : string) : RequestUrlParam :=
  {| url := withSlash (serverUrl options) +:+ diagramType options +:+ "/"
            +:+ outputFormat options +:+ "/" +:+ encodedSource;
     method := "GET";
     headers := mergeHeaders {[ "Accept" := "image/svg+xml, image/png" ]}
                  (customHeaders options);
     body := None |}.

Definition postRequestParams (options : KrokiRequestOptions) : RequestUrlParam :=
  {| url := withSlash (serverUrl options) +:+ diagramType options +:+ "/"
            +:+ outputFormat options;
     method := "POST";
     headers := mergeHeaders
                  (<[ "Content-Type" := "text/plain" ]>
                     {[ "Accept" := "image/svg+xml, image/png" ]})
                  (customHeaders options);
     body := Some (source options) |}.

(** The [catch] clause shared by the two public requests. *)
Definition failureOf (error : JsError) : KrokiResponse :=
  {| success := false;
     data := None;
     error := Some (JsString.or_else (message error) "Unknown error occurred");
     statusCode := None |}.

(** How [sendRequestWithRetry] ends when [answer] is the last answer it
    gets from [requestUrl]: a response below 500 is returned; a response
    from 500 on has been made the last error and is thrown when the
    iterations are used up; an exception is thrown, at once or as the
    last error. *)
Definition finalResult (answer : result RequestUrlResponse)
  : result RequestUrlResponse :=
  match answer with
  | Ok response =>
      if 500 <=? status response
      then Throw (mkError ("Server error: " +:+ JsString.of_Z (status response)
                           +:+ " " +:+ text response))
      else Ok response
  | Throw error => Throw error
  end.

(** What a public request returns, given how [sendRequestWithRetry]
    ended: [processResponse] of the response, or the value built by the
    [catch] clause. *)
Definition returned (outcome : result RequestUrlResponse) : KrokiResponse :=
  match outcome with
  | Ok response => processResponse response
  | Throw error => failureOf error
  end.

Definition sendGetRequest (E : Env) (options : KrokiRequestOptions)
  : M Net KrokiResponse :=
  try_catch
    (do encodedSource <- of_result (encodeDiagramSource E (source options));
     do response <- sendRequestWithRetry E
                      (getRequestParams options encodedSource)
                      (num_or (retryCount options) 1)
                      (num_or (retryDelay options) 1000);
     ret (processResponse response))
    (fun error => ret (failureOf error)).

Definition sendPostRequest (E : Env) (options : KrokiRequestOptions)
  : M Net KrokiResponse :=
  try_catch
    (do response <- sendRequestWithRetry E
                      (postRequestParams options)
                      (num_or (retryCount options) 1)
                      (num_or (retryDelay options) 1000);
     ret (processResponse response))
    (fun error => ret (failureOf error)).

End KrokiClient.

(** ** src/diagram-detector.ts *)

Module DiagramDetector.


(** [diagramTypes] lists the entries of the record in the order of
    [Object.entries]. *)
Record t : Type := {
  diagramTypes : list (string * list string);
  aliasMap : gmap string string
}.

Definition buildAliasMap (diagramTypes : list (string * list string))
  : gmap string string :=
  fold_left
    (fun m '(diagramType, aliases) =>
       fold_left (fun m alias => <[ alias := diagramType ]> m) aliases
         (<[ diagramType := diagramType ]> m))
    diagramTypes ∅.

(** The body of the [forEach] over the entries, by itself. *)
Definition registerEntry (m : gmap string string) (entry : string * list string)
  : gmap string string :=
  let '(diagramType, aliases) := entry in
  fold_left (fun m alias => <[ alias := diagramType ]> m) aliases
    (<[ diagramType := diagramType ]> m).

Definition new (diagramTypes : list (string * list string)) : t :=
  {| diagramTypes := diagramTypes; aliasMap := buildAliasMap diagramTypes |}.

Definition updateDiagramTypes (d : t) (diagramTypes : list (string * list string))
  : t := new diagramTypes.

(** [this.aliasMap.get(language) || null]: an empty name is falsy. *)
Definition detectDiagramType (d : t) (language : string) : option string :=
  match aliasMap d !! language with
  | Some (String _ _ as diagramType) => Some diagramType
  | _ => None
  end.

(** Splits [s] into its last character and what precedes it. *)
Fixpoint unsnoc (s : string) : option (string * ascii) :=
  match s with
  | EmptyString => None
  | String c s' =>
      match unsnoc s' with
      | None => Some (EmptyString, c)
      | Some (init, z) => Some (String c init, z)
      end
  end.

(** [language.match(/^(\w+)\s*\{(.+)\}$/)], giving the two groups. The
    classes [\w], [\s] and the brace are pairwise disjoint and the closing
    brace is anchored at the end, so the match is unique when it exists:
    the longest run of word characters, the longest run of white space, an
    opening brace, and a non-empty body without line terminators up to the
    final closing brace. *)
Definition matchLanguage (language : string) : option (string * string) :=
  let word := JsString.take_while JsString.is_word language in
  match word with
  | EmptyString => None
  | _ =>
      let rest := JsString.drop_while JsString.is_word language in
      match JsString.drop_while JsString.is_space rest with
      | String open tail =>
          match unsnoc tail with
          | Some (optionsStr, close) =>
              if Ascii.eqb open "{"%char && Ascii.eqb close "}"%char
                 && negb (String.eqb optionsStr EmptyString)
                 && JsString.all_chars
                      (fun c => negb (JsString.is_line_terminator c)) optionsStr
              then Some (word, optionsStr)
              else None
          | None => None
          end
      | EmptyString => None
      end
  end.

(** [options[key] = value] on a plain object: a string assigned to
    [__proto__] is dropped by the setter. *)
Definition setOption (options : gmap string string) (key value : string)
  : gmap string string :=
  if String.eqb key "__proto__" then options else <[ key := value ]> options.

(** The body of the [forEach] over the option pairs:
    [const [key, value] = pair.split(':').map(s => s.trim())]. *)
Definition addPair (options : gmap string string) (pair : string)
  : gmap string string :=
  match map JsString.trim (JsString.split ":"%char pair) with
  | (String _ _ as key) :: (String _ _ as value) :: _ =>
      setOption options key value
  | _ => options
  end.

Definition parseOptionPairs (optionsStr : string) : gmap string string :=
  fold_left addPair (JsString.split ","%char optionsStr) ∅.

Definition parseLanguageOptions (language : string)
  : string * gmap string string :=
  if JsString.includes "{" language then
    match matchLanguage language with
    | Some (base, optionsStr) => (base, parseOptionPairs optionsStr)
    | None => (language, ∅)
    end
  else (language, ∅).


End DiagramDetector.

(** ** src/diagram-cache.ts *)

Module DiagramCache.

Record DiagramCacheEntry : Type := {
  source : string;
  renderedContent : string;
  timestamp : Z;
  diagramType : string;
  outputFormat : string
}.

(** A [Map<string, DiagramCacheEntry>] with its insertion order, which
    [Array.from(this.cache.entries())] exposes. *)
Definition EntryMap : Type := list (string * DiagramCacheEntry).

Fixpoint map_get (key : string) (m : EntryMap) : option DiagramCacheEntry :=
  match m with
  | [] => None
  | (k, e) :: m' => if String.eqb k key then Some e else map_get key m'
  end.

(** [Map.prototype.set]: a present key keeps its place, a new key goes
    last. *)
Fixpoint map_set (key : string) (entry : DiagramCacheEntry) (m : EntryMap)
  : EntryMap :=
  match m with
  | [] => [(key, entry)]
  | (k, e) :: m' =>
      if String.eqb k key then (k, entry) :: m'
      else (k, e) :: map_set key entry m'
  end.

Definition map_delete (key : string) (m : EntryMap) : EntryMap :=
  List.filter (fun '(k, _) => negb (String.eqb k key)) m.

Record t : Type := {
  cache : EntryMap;
  maxCacheSize : Z;
  maxCacheAge : Z
}.

Definition new (maxCacheSize maxCacheAge : Z) : t :=
  {| cache := []; maxCacheSize := maxCacheSize; maxCacheAge := maxCacheAge |}.

Definition with_cache (c : t) (m : EntryMap) : t :=
  {| cache := m; maxCacheSize := maxCacheSize c; maxCacheAge := maxCacheAge c |}.

(** [file] is the path of the optional [TFile]. *)
Definition generateKey (source diagramType outputFormat : string)
    (file : option string) : string :=
  let key := diagramType +:+ ":" +:+ outputFormat +:+ ":" +:+ source in
  match file with
  | Some path => key +:+ ":" +:+ path
  | None => key
  end.

Definition get (now : Z) (c : t) (source diagramType outputFormat : string)
    (file : option string) : option string * t :=
  let key := generateKey source diagramType outputFormat file in
  match map_get key (cache c) with
  | Some entry =>
      if now - timestamp entry <=? maxCacheAge c
      then (Some (renderedContent entry), c)
      else (None, with_cache c (map_delete key (cache c)))
  | None => (None, c)
  end.

(** [entries.sort((a, b) => a[1].timestamp - b[1].timestamp)]: the sort
    of the language is stable, entries of equal time stamp keep their
    order. *)
Fixpoint insertByTimestamp (x : string * DiagramCacheEntry) (sorted : EntryMap)
  : EntryMap :=
  match sorted with
  | [] => [x]
  | y :: sorted' =>
      if timestamp (snd x) <=? timestamp (snd y) then x :: sorted
      else y :: insertByTimestamp x sorted'
  end.

Definition sortByTimestamp (entries : EntryMap) : EntryMap :=
  fold_right insertByTimestamp [] entries.

(** The order of that comparison: [x] is not newer than [y]. *)
Definition older (x y : string * DiagramCacheEntry) : Prop :=
  timestamp (snd x) <= timestamp (snd y).

(** [entries.slice(0, end)] *)
Definition slice0 {A} (stop : Z) (entries : list A) : list A :=
  let len := Z.of_nat (length entries) in
  firstn (Z.to_nat (if stop <? 0 then Z.max (len + stop) 0 else Z.min stop len))
    entries.

(** [for (const [key] of entriesToRemove) this.cache.delete(key)] *)
Definition deleteAll (entriesToRemove m : EntryMap) : EntryMap :=
  fold_left (fun m '(key, _) => map_delete key m) entriesToRemove m.

(** [Math.floor(this.maxCacheSize * 0.2)] is the integer quotient by 5
    for the integer sizes that fit a double exactly. *)
Definition pruneCache (c : t) : t :=
  let entries := sortByTimestamp (cache c) in
  let entriesToRemove := slice0 (maxCacheSize c / 5) entries in
  with_cache c (deleteAll entriesToRemove (cache c)).

Definition set (now : Z) (c : t) (source renderedContent diagramType outputFormat : string)
    (file : option string) : t :=
  let key := generateKey source diagramType outputFormat file in
  let entry := {| source := source;
                  renderedContent := renderedContent;
                  timestamp := now;
                  diagramType := diagramType;
                  outputFormat := outputFormat |} in
  let c' := with_cache c (map_set key entry (cache c)) in
  if Z.of_nat (length (cache c')) >? maxCacheSize c' then pruneCache c' else c'.

Definition remove (c : t) (source diagramType outputFormat : string)
    (file : option string) : bool * t :=
  let key := generateKey source diagramType outputFormat file in
  (bool_decide (is_Some (map_get key (cache c))),
   with_cache c (map_delete key (cache c))).

Definition clear (c : t) : t := with_cache c [].

Definition pruneExpiredEntries (now : Z) (c : t) : t :=
  with_cache c
    (List.filter (fun '(_, entry) => negb (now - timestamp entry >? maxCacheAge c))
       (cache c)).

Definition size (c : t) : Z := Z.of_nat (length (cache c)).

(** The keys of a [Map] are pairwise distinct. *)
Definition well_formed (c : t) : Prop := List.NoDup (map fst (cache c)).

(** The caches that successive [set] calls produce, [Date.now()] and the
    arguments of each call given. *)
Record SetCall : Type := {
  at_time : Z;
  set_source : string;
  set_content : string;
  set_type : string;
  set_format : string;
  set_file : option string
}.

Definition apply_set (c : t) (call : SetCall) : t :=
  set (at_time call) c (set_source call) (set_content call) (set_type call)
    (set_format call) (set_file call).

Fixpoint set_trace (c : t) (callsList : list SetCall) : list t :=
  match callsList with
  | [] => []
  | call :: rest => let c' := apply_set c call in c' :: set_trace c' rest
  end.

Definition getStats (c : t) : Z * Z := (size c, maxCacheSize c).

End DiagramCache.

(** ** src/diagram-renderer.ts *)

Module DiagramRenderer.

Record DiagramRenderOptions : Type := {
  outputFormat : string;
  serverUrl : string;
  customHeaders : option (gmap string string);
  timeout : option Z;
  retryCount : option Z;
  retryDelay : option Z;
  useCache : option bool;
  debugMode : option bool
}.

Record t : Type := {
  cache : DiagramCache.t;
  detector : DiagramDetector.t
}.

Definition new (diagramTypes : list (string * list string))
    (cacheSize cacheAge : Z) : t :=
  {| cache := DiagramCache.new cacheSize cacheAge;
     detector := DiagramDetector.new diagramTypes |}.

(** The renderer together with the network it talks to. *)
Record World : Type := { renderer : t; net : Net }.

Definition onNet {A} (m : M Net A) : M World A :=
  fun w => let '(r, n) := m (net w) in (r, {| renderer := renderer w; net := n |}).

Definition cacheGet (now : Z) (source diagramType outputFormat : string)
  : M World (option string) :=
  fun w =>
    let '(r, c) :=
      DiagramCache.get now (cache (renderer w)) source diagramType outputFormat None in
    (Ok r, {| renderer := {| cache := c; detector := detector (renderer w) |};
              net := net w |}).

Definition cacheSet (now : Z) (source renderedContent diagramType outputFormat : string)
  : M World unit :=
  fun w =>
    let c := DiagramCache.set now (cache (renderer w)) source renderedContent
               diagramType outputFormat None in
    (Ok tt, {| renderer := {| cache := c; detector := detector (renderer w) |};
               net := net w |}).

(** [options.useCache !== false] *)
Definition cacheEnabled (options : DiagramRenderOptions) : bool :=
  match useCache options with
  | Some false => false
  | _ => true
  end.

Definition requestOptions (source diagramType : string)
    (options : DiagramRenderOptions) : KrokiClient.KrokiRequestOptions :=
  {| KrokiClient.diagramType := diagramType;
     KrokiClient.outputFormat := outputFormat options;
     KrokiClient.source := source;
     KrokiClient.serverUrl := serverUrl options;
     KrokiClient.customHeaders := customHeaders options;
     KrokiClient.timeout := timeout options;
     KrokiClient.retryCount := retryCount options;
     KrokiClient.retryDelay := retryDelay options |}.

(** [!response.success && response.statusCode !== 400] *)
Definition fallbackEligible (response : KrokiClient.KrokiResponse) : bool :=
  negb (KrokiClient.success response)
  && negb (bool_decide (KrokiClient.statusCode response = Some 400)).

(** The [try] block of [renderDiagram] with its [catch]: GET first, POST
    when the GET failed with another status than 400. *)
Definition requestWithFallback (E : Env) (ro : KrokiClient.KrokiRequestOptions)
  : M World KrokiClient.KrokiResponse :=
  try_catch
    (do response <- onNet (KrokiClient.sendGetRequest E ro);
     if fallbackEligible response
     then onNet (KrokiClient.sendPostRequest E ro)
     else ret response)
    (fun error =>
       throw (mkError ("Failed to render diagram: " +:+ message error))).

(** What [renderDiagram] does once the cache has not answered: the
    request, then the handling of the response. [tSet] is the value of
    [Date.now()] inside [this.cache.set]. The debug logging has no effect
    on the result and is left out. *)
Definition fetchAndStore (E : Env) (tSet : Z) (source diagramType : string)
    (options : DiagramRenderOptions) : M World string :=
  do response <- requestWithFallback E
                   (requestOptions source diagramType options);
  match KrokiClient.success response, KrokiClient.data response with
  | true, Some (String _ _ as data) =>
      do_ (if cacheEnabled options
           then cacheSet tSet source data diagramType (outputFormat options)
           else ret tt);
      ret data
  | _, _ =>
      throw (mkError ("Failed to render diagram: "
                      +:+ JsString.or_else
                            (default EmptyString (KrokiClient.error response))
                            "Unknown error"))
  end.

(** [tGet] is the value of [Date.now()] inside [this.cache.get]. An empty
    [cachedContent] is falsy. *)
Definition renderDiagram (E : Env) (tGet tSet : Z) (source diagramType : string)
    (options : DiagramRenderOptions) : M World string :=
  do cached <- (if cacheEnabled options
                then cacheGet tGet source diagramType (outputFormat options)
                else ret None);
  match cached with
  | Some (String _ _ as cachedContent) => ret cachedContent
  | _ => fetchAndStore E tSet source diagramType options
  end.

(** [this.detector.updateDiagramTypes(diagramTypes)]: the cache is kept. *)
Definition updateDiagramTypes (r : t) (diagramTypes : list (string * list string))
  : t :=
  {| cache := cache r;
     detector := DiagramDetector.updateDiagramTypes (detector r) diagramTypes |}.



Definition clearCache (r : t) : t :=
  {| cache := DiagramCache.clear (cache r); detector := detector r |}.

Definition getCacheStats (r : t) : Z * Z := DiagramCache.getStats (cache r).

End DiagramRenderer.

Local Open Scope list_scope.

(** ** src/debug-manager.ts *)

Module DebugManager.

Inductive DebugLevel : Type := ERROR | WARN | INFO | DEBUG.

(** The numeric value of the enum member. *)
Definition rank (l : DebugLevel) : Z :=
  match l with ERROR => 0 | WARN => 1 | INFO => 2 | DEBUG => 3 end.

Definition level_eqb (a b : DebugLevel) : bool := rank a =? rank b.

(** [timestamp] is the time of [new Date()]; [data] stands for the
    optional value of type [any], which the manager only stores. *)
Record DebugLogEntry : Type := {
  timestamp : Z;
  level : DebugLevel;
  category : string;
  message : string;
  data : option string
}.

(** What an own property of [errorsByType] holds: a number, or [NaN]. *)
Inductive Count : Type :=
| Num (n : Z)
| NaN.

(** [averageResponseTime] is a double in the code; here it is the exact
    quotient. [errorsByType] is a plain object ([{}]): the map holds its
    own properties, and a name that is not among them is looked up in
    [Object.prototype]. *)
Record DebugStats : Type := {
  totalRequests : Z;
  successfulRequests : Z;
  failedRequests : Z;
  cacheHits : Z;
  cacheMisses : Z;
  averageResponseTime : Q;
  errorsByType : gmap string Count
}.

(** The property names of [Object.prototype], which every plain object
    inherits. All hold functions, but [__proto__], which is an accessor. *)
Definition objectPrototypeNames : list string :=
  ["constructor"; "__defineGetter__"; "__defineSetter__"; "hasOwnProperty";
   "__lookupGetter__"; "__lookupSetter__"; "isPrototypeOf";
   "propertyIsEnumerable"; "toString"; "valueOf"; "__proto__";
   "toLocaleString"].

Definition inherited (category : string) : bool :=
  existsb (String.eqb category) objectPrototypeNames.

Record t : Type := {
  logs : list DebugLogEntry;
  maxLogEntries : Z;
  currentLevel : DebugLevel;
  stats : DebugStats;
  requestTimes : list Z
}.

Definition zeroStats : DebugStats :=
  {| totalRequests := 0; successfulRequests := 0; failedRequests := 0;
     cacheHits := 0; cacheMisses := 0; averageResponseTime := 0%Q;
     errorsByType := ∅ |}.

Definition new (maxLogEntries : Z) (level : DebugLevel) : t :=
  {| logs := []; maxLogEntries := maxLogEntries; currentLevel := level;
     stats := zeroStats; requestTimes := [] |}.

Definition setLevel (m : t) (level : DebugLevel) : t :=
  {| logs := logs m; maxLogEntries := maxLogEntries m; currentLevel := level;
     stats := stats m; requestTimes := requestTimes m |}.

Definition with_logs (m : t) (l : list DebugLogEntry) : t :=
  {| logs := l; maxLogEntries := maxLogEntries m; currentLevel := currentLevel m;
     stats := stats m; requestTimes := requestTimes m |}.

Definition with_stats (m : t) (s : DebugStats) (times : list Z) : t :=
  {| logs := logs m; maxLogEntries := maxLogEntries m;
     currentLevel := currentLevel m; stats := s; requestTimes := times |}.

(** [array.slice(start)] *)
Definition sliceFrom {A} (start : Z) (l : list A) : list A :=
  let len := Z.of_nat (length l) in
  skipn (Z.to_nat (if start <? 0 then Z.max (len + start) 0 else Z.min start len)) l.

(** The private [log]; the copy of the message sent to the console is
    left out. *)
Definition log (now : Z) (m : t) (level : DebugLevel) (category message : string)
    (data : option string) : t :=
  if rank level <=? rank (currentLevel m) then
    let entry := {| timestamp := now; level := level; category := category;
                    message := message; data := data |} in
    let pushed := logs m ++ [entry] in
    if Z.of_nat (length pushed) >? maxLogEntries m
    then with_logs m (sliceFrom (- maxLogEntries m) pushed)
    else with_logs m pushed
  else m.

(** [if (!errorsByType[category]) errorsByType[category] = 0;
     errorsByType[category]++] on the plain object.
    - [__proto__] reads as [Object.prototype], which is truthy, and its
      setter drops the [NaN] that [++] assigns: nothing is stored.
    - An own number is raised by one; an own [0] or [NaN] is falsy, so
      it is set to [0] first and the count becomes [1].
    - Without own property, an inherited name reads as a function, which
      is truthy and not reset; [++] turns it into [NaN] and stores that
      as an own property. Any other name reads as [undefined], is set to
      [0], and the count becomes [1]. *)
Definition countCategory (errorsByType : gmap string Count) (category : string)
  : gmap string Count :=
  if String.eqb category "__proto__" then errorsByType
  else
    match errorsByType !! category with
    | Some (Num n) =>
        <[ category := Num ((if n =? 0 then 0 else n) + 1) ]> errorsByType
    | Some NaN => <[ category := Num (0 + 1) ]> errorsByType
    | None =>
        if inherited category
        then <[ category := NaN ]> errorsByType
        else <[ category := Num (0 + 1) ]> errorsByType
    end.

(** The statistics after the last three lines of [error]. *)
Definition countError (s : DebugStats) (category : string) : DebugStats :=
  {| totalRequests := totalRequests s;
     successfulRequests := successfulRequests s;
     failedRequests := failedRequests s;
     cacheHits := cacheHits s;
     cacheMisses := cacheMisses s;
     averageResponseTime := averageResponseTime s;
     errorsByType := countCategory (errorsByType s) category |}.

Definition error (now : Z) (m : t) (category message : string)
    (data : option string) : t :=
  let m' := log now m ERROR category message data in
  with_stats m' (countError (stats m') category) (requestTimes m').

Definition warn (now : Z) (m : t) (category message : string)
    (data : option string) : t := log now m WARN category message data.

Definition info (now : Z) (m : t) (category message : string)
    (data : option string) : t := log now m INFO category message data.

Definition debug (now : Z) (m : t) (category message : string)
    (data : option string) : t := log now m DEBUG category message data.

Definition sumTimes (times : list Z) : Z := fold_left Z.add times 0.

(** The private [recordResponseTime], given the statistics whose
    counters have just been raised. *)
Definition recordResponseTime (m : t) (s : DebugStats) (responseTime : Z) : t :=
  let pushed := requestTimes m ++ [responseTime] in
  let times := if Z.of_nat (length pushed) >? 100
               then sliceFrom (-100) pushed else pushed in
  with_stats m
    {| totalRequests := totalRequests s;
       successfulRequests := successfulRequests s;
       failedRequests := failedRequests s;
       cacheHits := cacheHits s;
       cacheMisses := cacheMisses s;
       averageResponseTime :=
         (inject_Z (sumTimes times) / inject_Z (Z.of_nat (length times)))%Q;
       errorsByType := errorsByType s |}
    times.

Definition bump (s : DebugStats) (dTotal dOk dFailed dHits dMisses : Z)
  : DebugStats :=
  {| totalRequests := totalRequests s + dTotal;
     successfulRequests := successfulRequests s + dOk;
     failedRequests := failedRequests s + dFailed;
     cacheHits := cacheHits s + dHits;
     cacheMisses := cacheMisses s + dMisses;
     averageResponseTime := averageResponseTime s;
     errorsByType := errorsByType s |}.

Definition recordSuccessfulRequest (m : t) (responseTime : Z) : t :=
  recordResponseTime m (bump (stats m) 1 1 0 0 0) responseTime.

Definition recordFailedRequest (m : t) : t :=
  with_stats m (bump (stats m) 1 0 1 0 0) (requestTimes m).

Definition recordCacheHit (m : t) : t :=
  with_stats m (bump (stats m) 0 0 0 1 0) (requestTimes m).

Definition recordCacheMiss (m : t) : t :=
  with_stats m (bump (stats m) 0 0 0 0 1) (requestTimes m).

(** [level] is [None] for [undefined]; an empty [category] is falsy. *)
Definition getLogs (m : t) (level : option DebugLevel) (category : option string)
  : list DebugLogEntry :=
  let filteredLogs := logs m in
  let filteredLogs :=
    match level with
    | Some l => List.filter (fun entry => level_eqb (DebugManager.level entry) l)
                  filteredLogs
    | None => filteredLogs
    end in
  match category with
  | Some (String _ _ as c) =>
      List.filter (fun entry => String.eqb (DebugManager.category entry) c)
        filteredLogs
  | _ => filteredLogs
  end.

Definition getStats (m : t) : DebugStats := stats m.

Definition clearLogs (m : t) : t := with_logs m [].

Definition clearStats (m : t) : t := with_stats m zeroStats [].

(** What the counters satisfy whatever has been recorded. *)
Definition stats_consistent (m : t) : Prop :=
  totalRequests (stats m)
  = successfulRequests (stats m) + failedRequests (stats m)
  /\ 0 <= failedRequests (stats m)
  /\ Z.of_nat (length (requestTimes m)) <= successfulRequests (stats m)
  /\ Z.of_nat (length (requestTimes m)) <= 100.

(** The calls that change a manager, for statements about every sequence
    of them. *)
Inductive Call : Type :=
| CallSetLevel (level : DebugLevel)
| CallError (now : Z) (category message : string) (data : option string)
| CallWarn (now : Z) (category message : string) (data : option string)
| CallInfo (now : Z) (category message : string) (data : option string)
| CallDebug (now : Z) (category message : string) (data : option string)
| CallSuccess (responseTime : Z)
| CallFailed
| CallCacheHit
| CallCacheMiss
| CallClearLogs
| CallClearStats.

Definition apply (m : t) (c : Call) : t :=
  match c with
  | CallSetLevel l => setLevel m l
  | CallError now c msg d => error now m c msg d
  | CallWarn now c msg d => warn now m c msg d
  | CallInfo now c msg d => info now m c msg d
  | CallDebug now c msg d => debug now m c msg d
  | CallSuccess rt => recordSuccessfulRequest m rt
  | CallFailed => recordFailedRequest m
  | CallCacheHit => recordCacheHit m
  | CallCacheMiss => recordCacheMiss m
  | CallClearLogs => clearLogs m
  | CallClearStats => clearStats m
  end.

Definition run (m : t) (callsList : list Call) : t := fold_left apply callsList m.

End DebugManager.

(** ** src/pandoc-exporter.ts *)

Module PandocExporter.

Record ExportOptions : Type := {
  format : string;
  outputPath : option string;
  customArgs : option (list string);
  customStyles : option string;
  includeImages : option bool;
  metadata : option (list (string * string))   (* in Object.entries order *)
}.

(** The double-quote character of the template literals. *)
Definition dquote : string := String (ascii_of_N 34) EmptyString.

Definition quoted (s : string) : string := dquote +:+ s +:+ dquote.

(** [buildPandocArgs]: the arguments, and the files written on the way
    (path and content). [stylesPath] is
    [path.join(this.tempDir, 'custom-styles.css')]. *)
Definition buildPandocArgs (stylesPath inputPath outputPath : string)
    (options : ExportOptions) : list string * list (string * string) :=
  let args := [quoted inputPath; "-o " +:+ quoted outputPath;
               "-t " +:+ format options] in
  let args := match includeImages options with
              | Some true => args ++ ["--embed-resources"; "--standalone"]
              | _ => args
              end in
  let args := match metadata options with
              | Some entries =>
                  args ++ map (fun '(key, value) =>
                                 "--metadata=" +:+ key +:+ "=" +:+ quoted value)
                            entries
              | None => args
              end in
  let '(args, written) :=
    match customStyles options with
    | Some (String _ _ as styles) =>
        (if String.eqb (format options) "html"
            || String.eqb (format options) "html5"
         then args ++ ["--css=" +:+ quoted stylesPath]
         else if String.eqb (format options) "pdf"
                 || String.eqb (format options) "latex"
         then args ++ ["--include-in-header=" +:+ quoted stylesPath]
         else args,
         [(stylesPath, styles)])
    | _ => (args, [])
    end in
  match customArgs options with
  | Some ((_ :: _) as extra) => (args ++ extra, written)
  | _ => (args, written)
  end.

End PandocExporter.

(** ** main.ts *)

Module Plugin.

Record KrokiDiagramType : Type := {
  prettyName : string;
  krokiBlockName : string;
  obsidianBlockName : string;
  description : string;
  url : string;
  enabled : bool;
  aliases : list string
}.

(** The settings that [initializeRenderer] reads. [diagramTypes] lists
    the entries of the record in the order of [Object.entries]. *)
Record KrokiSettings : Type := {
  diagramTypes : list (string * KrokiDiagramType);
  cacheSize : Z;
  cacheAge : Z
}.

(** [obj[key] = value] on an object whose keys are not canonical numeric
    strings: a present key keeps its place in [Object.entries], a new key
    goes last. *)
Fixpoint assign {V} (key : string) (value : V) (obj : list (string * V))
  : list (string * V) :=
  match obj with
  | [] => [(key, value)]
  | (k, v) :: obj' =>
      if String.eqb k key then (k, value) :: obj'
      else (k, v) :: assign key value obj'
  end.

Definition diagramTypesMap (settings : KrokiSettings)
  : list (string * list string) :=
  fold_left
    (fun m '(_, diagramType) =>
       if enabled diagramType
       then assign (obsidianBlockName diagramType) (aliases diagramType) m
       else m)
    (diagramTypes settings) [].

(** [initializeRenderer], on the renderer of the plugin if there is one
    already. *)
Definition initializeRenderer (settings : KrokiSettings)
    (renderer : option DiagramRenderer.t) : DiagramRenderer.t :=
  match renderer with
  | Some r => DiagramRenderer.updateDiagramTypes r (diagramTypesMap settings)
  | None => DiagramRenderer.new (diagramTypesMap settings)
              (cacheSize settings) (cacheAge settings)
  end.

End Plugin.

(** ** Scripted collaborators, for the concrete runs below *)

Module Script.

(** A stand-in for pako that stores the text uncompressed. *)
Definition stored : string -> option (list byte) :=
  fun s => Some (map byte_of_ascii (list_ascii_of_string s)).

Definition respond (st : Z) (body : string) : result RequestUrlResponse :=
  Ok {| status := st; text := body; arrayBuffer := None; contentType := None |}.

(** A transport that answers every request alike. *)
Definition always (r : result RequestUrlResponse) : Env :=
  {| pako_deflate := stored; requestUrl := fun _ _ => r |}.

(** A transport whose first answer differs from the later ones. *)
Definition first_then (r1 r2 : result RequestUrlResponse) : Env :=
  {| pako_deflate := stored;
     requestUrl := fun history _ =>
                     match history with [] => r1 | _ => r2 end |}.

(** A transport that answers every request with the status [st], and
    with a body that tells how many requests came before. *)
Definition counting (st : Z) : Env :=
  {| pako_deflate := stored;
     requestUrl := fun history _ =>
                     respond st (match history with
                                 | [] => "first"
                                 | [_] => "second"
                                 | [_; _] => "third"
                                 | _ => "later"
                                 end) |}.

(** pako throws; the transport answers every request alike. *)
Definition no_pako (r : result RequestUrlResponse) : Env :=
  {| pako_deflate := fun _ => None; requestUrl := fun _ _ => r |}.

Definition options (retries : option Z) : DiagramRenderer.DiagramRenderOptions :=
  {| DiagramRenderer.outputFormat := "svg";
     DiagramRenderer.serverUrl := "https://kroki.io";
     DiagramRenderer.customHeaders := None;
     DiagramRenderer.timeout := None;
     DiagramRenderer.retryCount := retries;
     DiagramRenderer.retryDelay := Some 1000;
     DiagramRenderer.useCache := Some true;
     DiagramRenderer.debugMode := None |}.

Definition request (retries : option Z) : KrokiClient.KrokiRequestOptions :=
  DiagramRenderer.requestOptions "A->B" "plantuml" (options retries).

Definition world (cacheSize cacheAge : Z) : DiagramRenderer.World :=
  {| DiagramRenderer.renderer :=
       DiagramRenderer.new [("plantuml", [])] cacheSize cacheAge;
     DiagramRenderer.net := no_traffic |}.

Definition call (now : Z) (src : string) : DiagramCache.SetCall :=
  {| DiagramCache.at_time := now;
     DiagramCache.set_source := src;
     DiagramCache.set_content := "<svg/>";
     DiagramCache.set_type := "plantuml";
     DiagramCache.set_format := "svg";
     DiagramCache.set_file := None |}.

End Script.

(** * Properties *)

Local Open Scope list_scope.

(** ** Strings *)

Section StringFacts.

Import JsString.

Lemma has_char_replace_same (a b : ascii) (s : string) :
  a <> b -> has_char a (replace_char a b s) = false.
Proof.
  intros Hab. induction s as [|c s IH]; simpl; [reflexivity|].
  rewrite IH, orb_false_r.
  destruct (Ascii.eqb_spec c a) as [->|Hc].
  - apply Ascii.eqb_neq. congruence.
  - apply Ascii.eqb_neq. exact Hc.
Qed.

Lemma has_char_replace_other (x a b : ascii) (s : string) :
  x <> b -> has_char x s = false -> has_char x (replace_char a b s) = false.
Proof.
  intros Hxb. induction s as [|c s IH]; simpl; [reflexivity|].
  intros H. apply orb_false_iff in H as [Hc Hs].
  rewrite (IH Hs), orb_false_r.
  destruct (Ascii.eqb c a); [|exact Hc].
  apply Ascii.eqb_neq. congruence.
Qed.

Lemma has_char_drop_while_end (x : ascii) (p : ascii -> bool) (s : string) :
  has_char x s = false -> has_char x (drop_while_end p s) = false.
Proof.
  induction s as [|c s IH]; simpl; [reflexivity|].
  intros H. apply orb_false_iff in H as [Hc Hs]. specialize (IH Hs).
  destruct (drop_while_end p s) as [|d r] eqn:Hr.
  - destruct (p c); simpl; [reflexivity|]. now rewrite Hc.
  - simpl in *. now rewrite Hc, IH.
Qed.

Lemma drop_while_end_last (a : ascii) (s : string) :
  ends_with_char a (drop_while_end (Ascii.eqb a) s) = false.
Proof.
  induction s as [|c s IH]; simpl; [reflexivity|].
  destruct (drop_while_end (Ascii.eqb a) s) as [|d r] eqn:Hr.
  - destruct (Ascii.eqb a c) eqn:Hac; simpl; [reflexivity|].
    rewrite Ascii.eqb_sym. exact Hac.
  - exact IH.
Qed.

End StringFacts.

(** ** The source encoder *)

Lemma urlSafe_safe (base64 : string) :
  JsString.has_char "+"%char (KrokiClient.urlSafe base64) = false
  /\ JsString.has_char "/"%char (KrokiClient.urlSafe base64) = false
  /\ JsString.ends_with_char "="%char (KrokiClient.urlSafe base64) = false.
Proof.
  unfold KrokiClient.urlSafe. repeat split.
  - apply has_char_drop_while_end, has_char_replace_other; [discriminate|].
    apply has_char_replace_same. discriminate.
  - apply has_char_drop_while_end, has_char_replace_same. discriminate.
  - apply drop_while_end_last.
Qed.

(** C4. Whatever the source and whatever pako returns, a token produced
    by [encodeDiagramSource] holds no [+], no [/] and does not end with
    [=]. *)
Theorem encode_url_safe (E : Env) (source token : string) :
  KrokiClient.encodeDiagramSource E source = Ok token ->
  JsString.has_char "+"%char token = false
  /\ JsString.has_char "/"%char token = false
  /\ JsString.ends_with_char "="%char token = false.
Proof.
  unfold KrokiClient.encodeDiagramSource.
  destruct (pako_deflate E _) as [compressed|]; [|discriminate].
  intros [= <-]. apply urlSafe_safe.
Qed.

Lemma encode_url_safe_witness :
  KrokiClient.encodeDiagramSource (Script.always (Script.respond 200 "ok"))
    " A-&gt;B??? " = Ok "QS0-Qj8_Pw"
  /\ JsString.has_char "+"%char "QS0-Qj8_Pw" = false
  /\ JsString.has_char "/"%char "QS0-Qj8_Pw" = false
  /\ JsString.ends_with_char "="%char "QS0-Qj8_Pw" = false.
Proof.
  split; [reflexivity|].
  apply (encode_url_safe (Script.always (Script.respond 200 "ok"))
           " A-&gt;B??? " "QS0-Qj8_Pw").
  reflexivity.
Defined.

(** ** The request pipeline *)

Section PipelineFacts.

Import KrokiClient.

Variable E : Env.

Lemma or_else_nonempty (s d : string) :
  d <> EmptyString -> JsString.or_else s d <> EmptyString.
Proof. destruct s; simpl; [auto | discriminate]. Qed.

Lemma failureOf_shape (e : JsError) :
  success (failureOf e) = false
  /\ statusCode (failureOf e) = None
  /\ exists msg, error (failureOf e) = Some msg /\ msg <> EmptyString.
Proof.
  repeat split. eexists; split; [reflexivity|].
  apply or_else_nonempty. discriminate.
Qed.

Lemma processResponse_failure (response : RequestUrlResponse) :
  success (processResponse response) = false ->
  exists msg, error (processResponse response) = Some msg /\ msg <> EmptyString.
Proof.
  unfold processResponse. destruct (is_2xx (status response)); simpl.
  - discriminate.
  - intros _. eexists; split; [reflexivity|].
    apply or_else_nonempty. discriminate.
Qed.

(** Both public requests have the shape
    [try { ...; return processResponse(response) } catch { failure }]. *)
Lemma guarded_request_total (body : M Net RequestUrlResponse) (n : Net) :
  exists r n',
    try_catch (do response <- body; ret (processResponse response))
      (fun error => ret (failureOf error)) n = (Ok r, n')
    /\ (success r = false ->
        exists msg, error r = Some msg /\ msg <> EmptyString).
Proof.
  unfold try_catch, bind, ret.
  destruct (body n) as [[response|e] n'].
  - exists (processResponse response), n'. split; [reflexivity|].
    apply processResponse_failure.
  - exists (failureOf e), n'. split; [reflexivity|].
    intros _. apply failureOf_shape.
Qed.

Lemma sendGetRequest_unfold (options : KrokiRequestOptions) (n : Net) :
  sendGetRequest E options n =
  match encodeDiagramSource E (source options) with
  | Ok encodedSource =>
      try_catch
        (do response <- sendRequestWithRetry E
                          (getRequestParams options encodedSource)
                          (num_or (retryCount options) 1)
                          (num_or (retryDelay options) 1000);
         ret (processResponse response))
        (fun error => ret (failureOf error)) n
  | Throw e => (Ok (failureOf e), n)
  end.
Proof.
  unfold sendGetRequest, try_catch, bind, of_result, ret.
  destruct (encodeDiagramSource E (source options)); reflexivity.
Qed.

(** Every call of one retry sequence sends the same request, and there
    are no more of them than the loop has iterations. *)
Lemma retryLoop_calls (req : RequestUrlParam) (d : Z) (remaining : nat) :
  forall attempt lastError n r n',
    retryLoop E req d remaining attempt lastError n = (r, n') ->
    exists k, (k <= remaining)%nat /\ calls n' = calls n ++ repeat req k.
Proof.
  induction remaining as [|remaining IH]; intros attempt lastError n r n'.
  - simpl. intros H. exists 0%nat. split; [lia|].
    destruct lastError; unfold throw in H; injection H as _ <-;
      simpl; now rewrite app_nil_r.
  - simpl. unfold request.
    assert (Hrec : forall le,
      (do_ delay (d * 2 ^ attempt);
       retryLoop E req d remaining (attempt + 1) le)
        {| calls := calls n ++ [req]; delays := delays n |} = (r, n') ->
      exists k, (k <= S remaining)%nat /\ calls n' = calls n ++ repeat req k).
    { intros le H. unfold bind, delay in H. simpl in H.
      apply IH in H as (k & Hk & ->). exists (S k). split; [lia|].
      simpl. now rewrite <- app_assoc. }
    assert (Hone : forall x : result RequestUrlResponse,
      (x, {| calls := calls n ++ [req]; delays := delays n |}) = (r, n') ->
      exists k, (k <= S remaining)%nat /\ calls n' = calls n ++ repeat req k).
    { intros x [= _ <-]. exists 1%nat. split; [lia|reflexivity]. }
    destruct (requestUrl E (calls n) req) as [response|e].
    + destruct (is_2xx (status response)); [apply Hone|].
      destruct (500 <=? status response); [apply Hrec | apply Hone].
    + destruct (_ || _); [apply Hrec | apply Hone].
Qed.

Lemma is_2xx_below_500 (st : Z) : is_2xx st = true -> (500 <=? st) = false.
Proof.
  unfold is_2xx. intros H. apply andb_true_iff in H as [_ H].
  apply Z.ltb_lt in H. apply Z.leb_gt. lia.
Qed.

Lemma retryable_finalResult (answer : result RequestUrlResponse) :
  retryable answer = true -> exists e, finalResult answer = Throw e.
Proof.
  destruct answer as [response|e]; simpl.
  - intros ->. eexists. reflexivity.
  - intros _. now exists e.
Qed.

(** One run of the loop, read off the transport. It makes [k] calls with
    the same request; every answer before the last one was retried; the
    last one was not, unless the iterations are used up; and the last
    answer decides how the loop ends. Without any iteration the loop
    throws at once. *)
Lemma retryLoop_sequence (req : RequestUrlParam) (d : Z) (remaining : nat) :
  forall attempt lastError n r n',
    retryLoop E req d remaining attempt lastError n = (r, n') ->
    exists k,
      (k <= remaining)%nat
      /\ calls n' = calls n ++ repeat req k
      /\ (remaining <> 0%nat -> k <> 0%nat)
      /\ (forall i, (S i < k)%nat ->
            retryable (requestUrl E (calls n ++ repeat req i) req) = true)
      /\ (forall j, k = S j -> (k < remaining)%nat ->
            retryable (requestUrl E (calls n ++ repeat req j) req) = false)
      /\ (forall j, k = S j ->
            r = finalResult (requestUrl E (calls n ++ repeat req j) req))
      /\ (k = 0%nat ->
            r = Throw (default (mkError "Unknown error during request")
                         lastError)).
Proof.
  induction remaining as [|remaining IH]; intros attempt lastError n r n'.
  - simpl. intros H. exists 0%nat.
    assert (Hr : r = Throw (default (mkError "Unknown error during request")
                              lastError) /\ n' = n).
    { destruct lastError; unfold throw in H; injection H as <- <-;
        split; reflexivity. }
    destruct Hr as [-> ->]. repeat apply conj.
    + lia.
    + simpl. now rewrite app_nil_r.
    + intros H0. exact H0.
    + intros i Hi. lia.
    + intros j Hj. discriminate Hj.
    + intros j Hj. discriminate Hj.
    + reflexivity.
  - cbn [retryLoop]. unfold request.
    match goal with
    | |- _ = _ -> ?G =>
        assert (Hone : forall x : result RequestUrlResponse,
          retryable (requestUrl E (calls n) req) = false ->
          x = finalResult (requestUrl E (calls n) req) ->
          (x, {| calls := calls n ++ [req]; delays := delays n |}) = (r, n') ->
          G);
        [|assert (Hrec : forall le,
          retryable (requestUrl E (calls n) req) = true ->
          Throw le = finalResult (requestUrl E (calls n) req) ->
          (do_ delay (d * 2 ^ attempt);
           retryLoop E req d remaining (attempt + 1) (Some le))
            {| calls := calls n ++ [req]; delays := delays n |} = (r, n') ->
          G)]
    end.
    { intros x Hret Hx Heq. injection Heq as <- <-. exists 1%nat.
      cbn [calls repeat]. repeat apply conj.
      - lia.
      - reflexivity.
      - intros _. discriminate.
      - intros i Hi. lia.
      - intros j Hj _. injection Hj as <-. cbn [repeat].
        rewrite app_nil_r. exact Hret.
      - intros j Hj. injection Hj as <-. cbn [repeat].
        rewrite app_nil_r. exact Hx.
      - discriminate. }
    { intros le Hret Hle H. unfold bind, delay in H. cbn [calls delays] in H.
      apply IH in H as (k & Hk & Hcalls & Hnz & Hbefore & Hlast & Hres & Hzero).
      cbn [calls] in Hcalls, Hbefore, Hlast, Hres.
      exists (S k). repeat apply conj.
      - lia.
      - rewrite Hcalls. cbn [repeat]. now rewrite <- app_assoc.
      - intros _. discriminate.
      - intros i Hi. destruct i as [|i].
        + cbn [repeat]. rewrite app_nil_r. exact Hret.
        + specialize (Hbefore i ltac:(lia)).
          rewrite <- app_assoc in Hbefore. exact Hbefore.
      - intros j Hj Hlt. injection Hj as <-. destruct k as [|k].
        + exfalso. apply Hnz; [lia | reflexivity].
        + specialize (Hlast k eq_refl ltac:(lia)).
          rewrite <- app_assoc in Hlast. exact Hlast.
      - intros j Hj. injection Hj as <-. destruct k as [|k].
        + rewrite (Hzero eq_refl). cbn [repeat]. rewrite app_nil_r.
          exact Hle.
        + rewrite (Hres k eq_refl). rewrite <- app_assoc. reflexivity.
      - discriminate. }
    destruct (requestUrl E (calls n) req) as [response|e] eqn:Hcall.
    + cbn [retryable finalResult] in Hone, Hrec.
      destruct (is_2xx (status response)) eqn:H2xx.
      * apply is_2xx_below_500 in H2xx. rewrite H2xx in Hone.
        apply Hone; reflexivity.
      * destruct (500 <=? status response) eqn:H500.
        -- apply Hrec; reflexivity.
        -- apply Hone; reflexivity.
    + cbn [retryable finalResult] in Hone, Hrec.
      destruct (String.eqb (name e) "AbortError"
                || JsString.includes "fetch" (message e)) eqn:Hnet.
      * apply Hrec; reflexivity.
      * apply Hone; reflexivity.
Qed.

(** Both public requests, once their request is built: the calls of one
    run of the loop, and the response decided by the last answer. *)
Lemma guarded_request_sequence (req : RequestUrlParam) (K D : Z) (n : Net) :
  exists p n' k,
    try_catch (do response <- sendRequestWithRetry E req K D;
               ret (processResponse response))
      (fun error => ret (failureOf error)) n = (Ok p, n')
    /\ p = returned (fst (sendRequestWithRetry E req K D n))
    /\ n' = snd (sendRequestWithRetry E req K D n)
    /\ (k <= Z.to_nat K)%nat
    /\ calls n' = calls n ++ repeat req k
    /\ (0 < K -> k <> 0%nat)
    /\ (forall i, (S i < k)%nat ->
          retryable (requestUrl E (calls n ++ repeat req i) req) = true)
    /\ (forall j, k = S j -> (k < Z.to_nat K)%nat ->
          retryable (requestUrl E (calls n ++ repeat req j) req) = false)
    /\ (forall j, k = S j ->
          p = returned (finalResult
                          (requestUrl E (calls n ++ repeat req j) req)))
    /\ (k = 0%nat -> p = failureOf (mkError "Unknown error during request")).
Proof.
  unfold try_catch, bind, ret, sendRequestWithRetry.
  destruct (retryLoop E req D (Z.to_nat K) 0 None n) as [r n1] eqn:Hloop.
  destruct (retryLoop_sequence _ _ _ _ _ _ _ _ Hloop)
    as (k & Hk & Hcalls & Hnz & Hbefore & Hlast & Hres & Hzero).
  exists (returned r), n1, k. cbn [fst snd].
  repeat apply conj; try assumption.
  - now destruct r.
  - reflexivity.
  - reflexivity.
  - intros HK. apply Hnz. lia.
  - intros j Hj. now rewrite (Hres j Hj).
  - intros Hk0. now rewrite (Hzero Hk0).
Qed.


Lemma sendPostRequest_total (options : KrokiRequestOptions) (n : Net) :
  exists r n',
    sendPostRequest E options n = (Ok r, n')
    /\ (success r = false ->
        exists msg, error r = Some msg /\ msg <> EmptyString).
Proof. apply guarded_request_total. Qed.

Lemma returned_failure (outcome : result RequestUrlResponse) :
  success (returned outcome) = false ->
  exists msg, error (returned outcome) = Some msg /\ msg <> EmptyString.
Proof.
  destruct outcome as [response|e]; cbn [returned].
  - apply processResponse_failure.
  - intros _. apply failureOf_shape.
Qed.

(** Against a transport that answers 503 every time, a request with
    three attempts calls it three times and returns the failure made
    from the third answer. *)
Lemma guarded_request_always_503 (req : RequestUrlParam) (D : Z) (n : Net) :
  (forall history, exists response,
      requestUrl E history req = Ok response /\ status response = 503) ->
  exists last n',
    requestUrl E (calls n ++ repeat req 2) req = Ok last
    /\ try_catch (do response <- sendRequestWithRetry E req 3 D;
                  ret (processResponse response))
         (fun error => ret (failureOf error)) n
       = (Ok {| success := false;
                data := None;
                error := Some ("Server error: 503 " +:+ text last);
                statusCode := None |}, n')
    /\ calls n' = calls n ++ repeat req 3.
Proof.
  intros H503.
  destruct (guarded_request_sequence req 3 D n)
    as (p & n' & k & Hrun & _ & _ & Hk & Hcalls & Hnz & _ & Hlast & Hres & _).
  change (Z.to_nat 3) with 3%nat in Hk, Hlast.
  assert (Hall : forall i,
            retryable (requestUrl E (calls n ++ repeat req i) req) = true).
  { intros i. destruct (H503 (calls n ++ repeat req i)) as (resp & -> & Hst).
    cbn [retryable]. now rewrite Hst. }
  assert (Hk3 : k = 3%nat).
  { destruct k as [|j]; [exfalso; apply Hnz; [lia | reflexivity]|].
    destruct (Nat.eq_dec (S j) 3%nat) as [Heq|Hne]; [exact Heq|].
    specialize (Hlast j eq_refl ltac:(lia)). rewrite Hall in Hlast.
    discriminate Hlast. }
  subst k.
  destruct (H503 (calls n ++ repeat req 2)) as (last & Hcall & Hst).
  exists last, n'. split; [exact Hcall|]. split; [|exact Hcalls].
  rewrite Hrun. f_equal. f_equal. rewrite (Hres 2%nat eq_refl), Hcall.
  cbn [finalResult returned]. rewrite Hst. reflexivity.
Qed.

End PipelineFacts.

(** C9. [sendGetRequest] and [sendPostRequest] never throw: on every
    request, transport and network state they return a response, and a
    response whose success flag is false carries a non-empty error
    message. Every internal error ends as the failure variant: when the
    encoder throws, when [sendRequestWithRetry] throws, and in particular
    when every answer of the transport is one that is retried, so that
    the attempts are used up, the response returned has the success flag
    false, no data, no status code, and the message of the error (or
    [Unknown error occurred] when that message is empty). *)
Theorem public_requests_total (E : Env)
    (options : KrokiClient.KrokiRequestOptions) (n : Net) :
  let K := KrokiClient.num_or (KrokiClient.retryCount options) 1 in
  let D := KrokiClient.num_or (KrokiClient.retryDelay options) 1000 in
  let failure := fun e : JsError =>
    {| KrokiClient.success := false;
       KrokiClient.data := None;
       KrokiClient.error :=
         Some (JsString.or_else (message e) "Unknown error occurred");
       KrokiClient.statusCode := None |} in
  (exists r n',
      KrokiClient.sendGetRequest E options n = (Ok r, n')
      /\ (KrokiClient.success r = false ->
          exists msg, KrokiClient.error r = Some msg /\ msg <> EmptyString)
      /\ (forall e,
            KrokiClient.encodeDiagramSource E (KrokiClient.source options)
              = Throw e ->
            r = failure e /\ n' = n)
      /\ (forall encodedSource e n1,
            KrokiClient.encodeDiagramSource E (KrokiClient.source options)
              = Ok encodedSource ->
            KrokiClient.sendRequestWithRetry E
              (KrokiClient.getRequestParams options encodedSource) K D n
              = (Throw e, n1) ->
            r = failure e /\ n' = n1)
      /\ (forall encodedSource,
            KrokiClient.encodeDiagramSource E (KrokiClient.source options)
              = Ok encodedSource ->
            (forall history,
                KrokiClient.retryable
                  (requestUrl E history
                     (KrokiClient.getRequestParams options encodedSource))
                = true) ->
            exists e, r = failure e))
  /\ (exists r n',
      KrokiClient.sendPostRequest E options n = (Ok r, n')
      /\ (KrokiClient.success r = false ->
          exists msg, KrokiClient.error r = Some msg /\ msg <> EmptyString)
      /\ (forall e n1,
            KrokiClient.sendRequestWithRetry E
              (KrokiClient.postRequestParams options) K D n = (Throw e, n1) ->
            r = failure e /\ n' = n1)
      /\ ((forall history,
              KrokiClient.retryable
                (requestUrl E history (KrokiClient.postRequestParams options))
              = true) ->
          exists e, r = failure e)).
Proof.
  intros K D failure.
  assert (Hused : forall req p k,
    (forall j, k = S j ->
       p = KrokiClient.returned
             (KrokiClient.finalResult
                (requestUrl E (calls n ++ repeat req j) req))) ->
    (k = 0%nat ->
       p = KrokiClient.failureOf (mkError "Unknown error during request")) ->
    (forall history, KrokiClient.retryable (requestUrl E history req) = true) ->
    exists e, p = failure e).
  { intros req p k Hres Hzero Hall. destruct k as [|j].
    - eexists. rewrite (Hzero eq_refl). reflexivity.
    - destruct (retryable_finalResult _ (Hall (calls n ++ repeat req j)))
        as (e & He).
      exists e. rewrite (Hres j eq_refl), He. reflexivity. }
  split.
  - rewrite sendGetRequest_unfold.
    destruct (KrokiClient.encodeDiagramSource E (KrokiClient.source options))
      as [tok|e0].
    + destruct (guarded_request_sequence E
                  (KrokiClient.getRequestParams options tok) K D n)
        as (p & n' & k & Hrun & Hp & Hn' & _ & _ & _ & _ & _ & Hres & Hzero).
      exists p, n'. split; [exact Hrun|]. split; [|split; [|split]].
      * rewrite Hp. apply returned_failure.
      * intros e He. discriminate He.
      * intros tok' e n1 Htok Hloop. injection Htok as <-.
        rewrite Hloop in Hp, Hn'. split; assumption.
      * intros tok' Htok Hall. injection Htok as <-.
        exact (Hused _ p k Hres Hzero Hall).
    + exists (KrokiClient.failureOf e0), n. split; [reflexivity|].
      split; [|split; [|split]].
      * intros _. apply failureOf_shape.
      * intros e He. injection He as <-. split; reflexivity.
      * intros tok e n1 Htok. discriminate Htok.
      * intros tok Htok. discriminate Htok.
  - destruct (guarded_request_sequence E
                (KrokiClient.postRequestParams options) K D n)
      as (p & n' & k & Hrun & Hp & Hn' & _ & _ & _ & _ & _ & Hres & Hzero).
    exists p, n'. split; [exact Hrun|]. split; [|split].
    + rewrite Hp. apply returned_failure.
    + intros e n1 Hloop. rewrite Hloop in Hp, Hn'. split; assumption.
    + intros Hall. exact (Hused _ p k Hres Hzero Hall).
Qed.

Lemma public_requests_total_witness :
  (* pako throws *)
  KrokiClient.sendGetRequest (Script.no_pako (Script.respond 200 "<svg/>"))
    (Script.request (Some 3)) no_traffic
  = (Ok {| KrokiClient.success := false;
           KrokiClient.data := None;
           KrokiClient.error := Some "Failed to encode diagram source";
           KrokiClient.statusCode := None |}, no_traffic)
  /\
  (* three attempts, each answered 503 *)
  (exists e n',
     KrokiClient.sendPostRequest
       (Script.always (Script.respond 503 "Service Unavailable"))
       (Script.request (Some 3)) no_traffic
     = (Ok {| KrokiClient.success := false;
              KrokiClient.data := None;
              KrokiClient.error :=
                Some (JsString.or_else (message e) "Unknown error occurred");
              KrokiClient.statusCode := None |}, n')).
Proof.
  split.
  - destruct (proj1 (public_requests_total
                       (Script.no_pako (Script.respond 200 "<svg/>"))
                       (Script.request (Some 3)) no_traffic))
      as (r & n' & Hrun & _ & Henc & _).
    destruct (Henc (mkError "Failed to encode diagram source") eq_refl)
      as [Hr Hn].
    rewrite Hrun, Hr, Hn. reflexivity.
  - destruct (proj2 (public_requests_total
                       (Script.always (Script.respond 503 "Service Unavailable"))
                       (Script.request (Some 3)) no_traffic))
      as (r & n' & Hrun & _ & _ & Hall).
    destruct (Hall (fun history => eq_refl)) as (e & He).
    exists e, n'. rewrite Hrun, He. reflexivity.
Defined.

Lemma sendPostRequest_calls (E : Env)
    (options : KrokiClient.KrokiRequestOptions) (n : Net)
    (r : result KrokiClient.KrokiResponse) (n' : Net) :
  KrokiClient.sendPostRequest E options n = (r, n') ->
  exists k,
    (k <= Z.to_nat (KrokiClient.num_or (KrokiClient.retryCount options) 1))%nat
    /\ calls n' = calls n ++ repeat (KrokiClient.postRequestParams options) k.
Proof.
  unfold KrokiClient.sendPostRequest, KrokiClient.sendRequestWithRetry,
    try_catch, bind, ret.
  destruct (KrokiClient.retryLoop _ _ _ _ _ _ n) as [[response|e] n1] eqn:Hloop;
    intros [= _ <-]; eapply retryLoop_calls; exact Hloop.
Qed.

Lemma sendGetRequest_calls (E : Env)
    (options : KrokiClient.KrokiRequestOptions) (n : Net)
    (r : result KrokiClient.KrokiResponse) (n' : Net) :
  KrokiClient.sendGetRequest E options n = (r, n') ->
  exists k encodedSource,
    (k <= Z.to_nat (KrokiClient.num_or (KrokiClient.retryCount options) 1))%nat
    /\ calls n' =
       calls n ++ repeat (KrokiClient.getRequestParams options encodedSource) k.
Proof.
  rewrite sendGetRequest_unfold.
  destruct (KrokiClient.encodeDiagramSource E _) as [tok|e].
  - unfold KrokiClient.sendRequestWithRetry, try_catch, bind, ret.
    destruct (KrokiClient.retryLoop _ _ _ _ _ _ n) as [[response|e] n1] eqn:Hloop;
      intros [= _ <-];
      destruct (retryLoop_calls _ _ _ _ _ _ _ _ _ Hloop) as (k & Hk & Hcalls);
      exists k, tok; split; assumption.
  - intros [= _ <-]. exists 0%nat, EmptyString. split; [lia|].
    simpl. now rewrite app_nil_r.
Qed.

(** C2, amended. With [retryCount = 3] and a transport that answers 503
    every time, each of GET and POST calls the transport at most three
    times (exactly three once the request is built) and returns a
    failure. The failure has no status code: the status is only written
    in its message, [Server error: 503] followed by the body of the last
    answer, which is the third one. *)
Theorem retry_exhaustion (E : Env)
    (options : KrokiClient.KrokiRequestOptions) (n : Net) :
  (forall history req, exists response,
      requestUrl E history req = Ok response /\ status response = 503) ->
  KrokiClient.retryCount options = Some 3 ->
  (exists r n',
      KrokiClient.sendGetRequest E options n = (Ok r, n')
      /\ KrokiClient.success r = false
      /\ KrokiClient.statusCode r = None
      /\ (length (calls n') <= length (calls n) + 3)%nat
      /\ forall encodedSource,
           KrokiClient.encodeDiagramSource E (KrokiClient.source options)
             = Ok encodedSource ->
           let get := KrokiClient.getRequestParams options encodedSource in
           calls n' = calls n ++ [get; get; get]
           /\ exists last,
                requestUrl E (calls n ++ [get; get]) get = Ok last
                /\ KrokiClient.error r
                   = Some ("Server error: 503 " +:+ text last))
  /\ (let post := KrokiClient.postRequestParams options in
      exists last n',
        requestUrl E (calls n ++ [post; post]) post = Ok last
        /\ KrokiClient.sendPostRequest E options n =
           (Ok {| KrokiClient.success := false;
                  KrokiClient.data := None;
                  KrokiClient.error := Some ("Server error: 503 " +:+ text last);
                  KrokiClient.statusCode := None |}, n')
        /\ calls n' = calls n ++ [post; post; post]).
Proof.
  intros H503 Hretry. split.
  - rewrite sendGetRequest_unfold.
    destruct (KrokiClient.encodeDiagramSource E _) as [tok|e].
    + rewrite Hretry. cbn [KrokiClient.num_or Z.eqb].
      destruct (guarded_request_always_503 E
                  (KrokiClient.getRequestParams options tok)
                  (KrokiClient.num_or (KrokiClient.retryDelay options) 1000) n
                  (fun h => H503 h _))
        as (last & n' & Hlast & Hrun & Hcalls).
      eexists _, n'. split; [exact Hrun|]. cbn [repeat] in Hlast, Hcalls.
      split; [reflexivity|]. split; [reflexivity|].
      split; [rewrite Hcalls, length_app; simpl; lia|].
      intros encodedSource Htok. injection Htok as <-.
      split; [exact Hcalls|]. exists last. split; [exact Hlast | reflexivity].
    + exists (KrokiClient.failureOf e), n. split; [reflexivity|].
      split; [reflexivity|]. split; [reflexivity|]. split; [lia|].
      intros encodedSource Hok. discriminate Hok.
  - intros post.
    unfold KrokiClient.sendPostRequest.
    rewrite Hretry. cbn [KrokiClient.num_or Z.eqb].
    destruct (guarded_request_always_503 E post
                (KrokiClient.num_or (KrokiClient.retryDelay options) 1000) n
                (fun h => H503 h _))
      as (last & n' & Hlast & Hrun & Hcalls).
    exists last, n'. cbn [repeat] in Hlast, Hcalls.
    split; [exact Hlast|]. split; [exact Hrun | exact Hcalls].
Qed.

Lemma retry_exhaustion_witness :
  exists n',
    KrokiClient.sendPostRequest (Script.counting 503)
      (Script.request (Some 3)) no_traffic =
      (Ok {| KrokiClient.success := false;
             KrokiClient.data := None;
             KrokiClient.error := Some "Server error: 503 third";
             KrokiClient.statusCode := None |}, n')
    /\ calls n'
       = calls no_traffic
           ++ [KrokiClient.postRequestParams (Script.request (Some 3));
               KrokiClient.postRequestParams (Script.request (Some 3));
               KrokiClient.postRequestParams (Script.request (Some 3))].
Proof.
  destruct (proj2 (retry_exhaustion (Script.counting 503)
                     (Script.request (Some 3)) no_traffic
                     (fun history req =>
                        ex_intro _ _ (conj eq_refl eq_refl))
                     eq_refl))
    as (last & n' & Hlast & Hrun & Hcalls).
  injection Hlast as <-.
  exists n'. split; [exact Hrun | exact Hcalls].
Defined.

(** C2 as stated fails: after three answers 503 the failure returned by
    [sendGetRequest] and by [sendPostRequest] has no status code. *)
Lemma retry_exhaustion_status_lost :
  let E := Script.always (Script.respond 503 "Service Unavailable") in
  let lost :=
    {| KrokiClient.success := false;
       KrokiClient.data := None;
       KrokiClient.error := Some "Server error: 503 Service Unavailable";
       KrokiClient.statusCode := None |} in
  fst (KrokiClient.sendGetRequest E (Script.request (Some 3)) no_traffic)
    = Ok lost
  /\ fst (KrokiClient.sendPostRequest E (Script.request (Some 3)) no_traffic)
    = Ok lost
  /\ KrokiClient.statusCode lost <> Some 503
  /\ length (calls (snd (KrokiClient.sendGetRequest E (Script.request (Some 3))
                           no_traffic))) = 3%nat.
Proof. repeat split; try reflexivity. discriminate. Qed.

(** ** The render orchestrator *)

Section RenderFacts.

Import DiagramRenderer.

Variable E : Env.

Lemma onNet_run {A} (m : M Net A) (w : World) (r : result A) (n : Net) :
  m (net w) = (r, n) ->
  onNet m w = (r, {| renderer := renderer w; net := n |}).
Proof. unfold onNet. now intros ->. Qed.

Lemma requestWithFallback_unfold (ro : KrokiClient.KrokiRequestOptions)
    (w : World) (g : KrokiClient.KrokiResponse) (n1 : Net) :
  KrokiClient.sendGetRequest E ro (net w) = (Ok g, n1) ->
  requestWithFallback E ro w =
  if fallbackEligible g
  then onNet (KrokiClient.sendPostRequest E ro)
         {| renderer := renderer w; net := n1 |}
  else (Ok g, {| renderer := renderer w; net := n1 |}).
Proof.
  intros Hget. unfold requestWithFallback, try_catch, bind.
  rewrite (onNet_run _ _ _ _ Hget).
  destruct (fallbackEligible g); [|reflexivity].
  destruct (sendPostRequest_total E ro n1) as (p & n2 & Hpost & _).
  unfold onNet. cbn [net renderer]. now rewrite Hpost.
Qed.

End RenderFacts.



(** A GET answered 404 is followed by one POST sequence. *)
Example fallback_after_404 :
  map method
    (calls (DiagramRenderer.net
       (snd (DiagramRenderer.requestWithFallback
               (Script.always (Script.respond 404 "Not Found"))
               (Script.request (Some 3)) (Script.world 100 3600000)))))
  = ["GET"; "POST"].
Proof. reflexivity. Qed.







(** ** The cache *)

Section CacheFacts.

Import DiagramCache.

Lemma map_get_In (key : string) (m : EntryMap) (e : DiagramCacheEntry) :
  map_get key m = Some e -> In key (map fst m).
Proof.
  induction m as [|[k e0] m IH]; simpl; [discriminate|].
  destruct (String.eqb_spec k key) as [->|Hk]; [now left|].
  intros H. right. now apply IH.
Qed.

Lemma map_get_notin (key : string) (m : EntryMap) :
  ~ In key (map fst m) -> map_get key m = None.
Proof.
  induction m as [|[k e0] m IH]; simpl; [reflexivity|].
  intros H. destruct (String.eqb_spec k key) as [->|Hk].
  - exfalso. apply H. now left.
  - apply IH. intros Hin. apply H. now right.
Qed.

Lemma map_get_None_notin (key : string) (m : EntryMap) :
  map_get key m = None -> ~ In key (map fst m).
Proof.
  induction m as [|[k e0] m IH]; simpl; [tauto|].
  destruct (String.eqb_spec k key) as [->|Hk]; [discriminate|].
  intros H [Heq|Hin]; [congruence | now apply IH].
Qed.

Lemma map_delete_notin (key : string) (m : EntryMap) :
  ~ In key (map fst m) -> map_delete key m = m.
Proof.
  induction m as [|[k e0] m IH]; simpl; [reflexivity|].
  intros H. destruct (String.eqb_spec k key) as [->|Hk].
  - exfalso. apply H. now left.
  - simpl. f_equal. apply IH. intros Hin. apply H. now right.
Qed.

Lemma map_delete_keys (key k : string) (m : EntryMap) :
  In k (map fst (map_delete key m)) <-> k <> key /\ In k (map fst m).
Proof.
  induction m as [|[k0 e0] m IH]; simpl; [tauto|].
  destruct (String.eqb_spec k0 key) as [->|Hk]; simpl.
  - rewrite IH. split; [tauto|]. intros [Hne [Heq|Hin]]; [congruence|tauto].
  - rewrite IH. split.
    + intros [Heq|[Hne Hin]]; [subst; tauto | tauto].
    + tauto.
Qed.

Lemma map_get_delete_same (key : string) (m : EntryMap) :
  map_get key (map_delete key m) = None.
Proof.
  apply map_get_notin. rewrite map_delete_keys. tauto.
Qed.

Lemma map_get_delete_other (key k : string) (m : EntryMap) :
  k <> key -> map_get k (map_delete key m) = map_get k m.
Proof.
  intros Hne. induction m as [|[k0 e0] m IH]; simpl; [reflexivity|].
  destruct (String.eqb_spec k0 key) as [->|Hk]; simpl.
  - rewrite IH. destruct (String.eqb_spec key k); [congruence|reflexivity].
  - now rewrite IH.
Qed.

Lemma map_delete_NoDup (key : string) (m : EntryMap) :
  List.NoDup (map fst m) -> List.NoDup (map fst (map_delete key m)).
Proof.
  induction m as [|[k0 e0] m IH]; simpl; [auto|].
  intros Hnd. apply List.NoDup_cons_iff in Hnd as [Hnotin Hnd].
  destruct (String.eqb k0 key); simpl; [auto|].
  apply List.NoDup_cons; [|auto].
  rewrite map_delete_keys. tauto.
Qed.

Lemma map_delete_length (key : string) (m : EntryMap) (e : DiagramCacheEntry) :
  List.NoDup (map fst m) -> map_get key m = Some e ->
  S (length (map_delete key m)) = length m.
Proof.
  induction m as [|[k0 e0] m IH]; simpl; [discriminate|].
  intros Hnd. apply List.NoDup_cons_iff in Hnd as [Hnotin Hnd].
  destruct (String.eqb_spec k0 key) as [->|Hk]; simpl.
  - intros _. now rewrite map_delete_notin.
  - intros H. f_equal. now apply IH.
Qed.

Lemma map_set_present (key : string) (e e0 : DiagramCacheEntry) (m : EntryMap) :
  map_get key m = Some e0 -> map fst (map_set key e m) = map fst m.
Proof.
  induction m as [|[k1 e1] m IH]; simpl; [discriminate|].
  destruct (String.eqb_spec k1 key) as [->|Hk]; simpl; [reflexivity|].
  intros H. now rewrite IH.
Qed.

Lemma map_set_fresh (key : string) (e : DiagramCacheEntry) (m : EntryMap) :
  map_get key m = None -> map_set key e m = m ++ [(key, e)].
Proof.
  induction m as [|[k0 e0] m IH]; simpl; [reflexivity|].
  destruct (String.eqb_spec k0 key) as [->|Hk]; [discriminate|].
  intros H. now rewrite IH.
Qed.

Lemma map_get_set_same (key : string) (e : DiagramCacheEntry) (m : EntryMap) :
  map_get key (map_set key e m) = Some e.
Proof.
  induction m as [|[k0 e0] m IH]; simpl.
  - now rewrite String.eqb_refl.
  - destruct (String.eqb_spec k0 key) as [->|Hk]; simpl.
    + now rewrite String.eqb_refl.
    + destruct (String.eqb_spec k0 key); [congruence|exact IH].
Qed.

Lemma map_set_NoDup (key : string) (e : DiagramCacheEntry) (m : EntryMap) :
  List.NoDup (map fst m) -> List.NoDup (map fst (map_set key e m)).
Proof.
  intros Hnd. destruct (map_get key m) as [e0|] eqn:Hget.
  - now rewrite (map_set_present _ _ _ _ Hget).
  - rewrite (map_set_fresh _ _ _ Hget), map_app.
    apply List.NoDup_app; [exact Hnd | repeat constructor; intros [] |].
    intros x Hx [<-|[]]. exact (map_get_None_notin _ _ Hget Hx).
Qed.

Lemma map_set_length (key : string) (e : DiagramCacheEntry) (m : EntryMap) :
  (length m <= length (map_set key e m) <= S (length m))%nat.
Proof.
  induction m as [|[k0 e0] m IH]; simpl; [lia|].
  destruct (String.eqb k0 key); simpl; lia.
Qed.

End CacheFacts.

(** C7. A [get] that finds an entry older than the maximum age returns
    a miss and deletes the entry: the key is gone and the size is one
    less. *)
Theorem get_expired (now : Z) (c : DiagramCache.t)
    (source diagramType outputFormat : string) (file : option string)
    (entry : DiagramCache.DiagramCacheEntry) :
  let key := DiagramCache.generateKey source diagramType outputFormat file in
  DiagramCache.well_formed c ->
  DiagramCache.map_get key (DiagramCache.cache c) = Some entry ->
  now - DiagramCache.timestamp entry > DiagramCache.maxCacheAge c ->
  exists c',
    DiagramCache.get now c source diagramType outputFormat file = (None, c')
    /\ DiagramCache.map_get key (DiagramCache.cache c') = None
    /\ DiagramCache.size c' = DiagramCache.size c - 1
    /\ DiagramCache.well_formed c'.
Proof.
  intros key Hwf Hget Hold.
  exists (DiagramCache.with_cache c
            (DiagramCache.map_delete key (DiagramCache.cache c))).
  unfold DiagramCache.get. fold key. rewrite Hget.
  replace (now - DiagramCache.timestamp entry <=? DiagramCache.maxCacheAge c)
    with false by (symmetry; apply Z.leb_gt; lia).
  split; [reflexivity|]. cbn [DiagramCache.with_cache DiagramCache.cache].
  split; [apply map_get_delete_same|].
  split.
  - unfold DiagramCache.size. cbn [DiagramCache.with_cache DiagramCache.cache].
    pose proof (map_delete_length key _ _ Hwf Hget). lia.
  - unfold DiagramCache.well_formed. cbn [DiagramCache.with_cache DiagramCache.cache].
    now apply map_delete_NoDup.
Qed.

Lemma get_expired_witness :
  let c := DiagramCache.set 0 (DiagramCache.new 100 1000)
             "A->B" "<svg/>" "plantuml" "svg" None in
  DiagramCache.size c = 1
  /\ exists c',
      DiagramCache.get 1001 c "A->B" "plantuml" "svg" None = (None, c')
      /\ DiagramCache.map_get "plantuml:svg:A->B" (DiagramCache.cache c') = None
      /\ DiagramCache.size c' = 1 - 1
      /\ DiagramCache.well_formed c'.
Proof.
  intros c. split; [reflexivity|].
  apply (get_expired 1001 c "A->B" "plantuml" "svg" None
           {| DiagramCache.source := "A->B";
              DiagramCache.renderedContent := "<svg/>";
              DiagramCache.timestamp := 0;
              DiagramCache.diagramType := "plantuml";
              DiagramCache.outputFormat := "svg" |}).
  - repeat constructor. intros [].
  - reflexivity.
  - reflexivity.
Defined.

(** An entry exactly as old as the maximum age is still served. *)
Example get_at_age_bound :
  fst (DiagramCache.get 1000
         (DiagramCache.set 0 (DiagramCache.new 100 1000)
            "A->B" "<svg/>" "plantuml" "svg" None)
         "A->B" "plantuml" "svg" None) = Some "<svg/>".
Proof. reflexivity. Qed.

Section PruneFacts.

Import DiagramCache.

Lemma insertByTimestamp_perm (x : string * DiagramCacheEntry) (l : EntryMap) :
  Permutation (x :: l) (insertByTimestamp x l).
Proof.
  induction l as [|y l IH]; simpl; [apply Permutation_refl|].
  destruct (_ <=? _); [apply Permutation_refl|].
  eapply perm_trans; [apply perm_swap|]. now apply perm_skip.
Qed.

Lemma sortByTimestamp_perm (l : EntryMap) : Permutation l (sortByTimestamp l).
Proof.
  induction l as [|x l IH]; simpl; [apply perm_nil|].
  eapply perm_trans; [|apply insertByTimestamp_perm]. now apply perm_skip.
Qed.

(** The newest entry, inserted last, is sorted last. *)
Lemma insertByTimestamp_last (a x : string * DiagramCacheEntry) (l : EntryMap) :
  timestamp (snd a) <= timestamp (snd x) ->
  insertByTimestamp a (l ++ [x]) = insertByTimestamp a l ++ [x].
Proof.
  intros Hle. induction l as [|y l IH]; simpl.
  - replace (timestamp (snd a) <=? timestamp (snd x)) with true
      by (symmetry; apply Z.leb_le; lia).
    reflexivity.
  - destruct (_ <=? _); [reflexivity|]. now rewrite IH.
Qed.

Lemma sortByTimestamp_last (x : string * DiagramCacheEntry) (l : EntryMap) :
  Forall (fun y => timestamp (snd y) <= timestamp (snd x)) l ->
  sortByTimestamp (l ++ [x]) = sortByTimestamp l ++ [x].
Proof.
  induction 1 as [|a l Ha Hl IH]; simpl; [reflexivity|].
  rewrite IH. now apply insertByTimestamp_last.
Qed.

Lemma deleteAll_length (rem : EntryMap) :
  forall m,
    List.NoDup (map fst m) -> List.NoDup (map fst rem) ->
    incl (map fst rem) (map fst m) ->
    (length (deleteAll rem m) + length rem = length m)%nat.
Proof.
  unfold deleteAll.
  induction rem as [|[k e] rem IH]; intros m Hm Hrem Hincl; simpl; [lia|].
  apply List.NoDup_cons_iff in Hrem as [Hk Hrem].
  assert (Hin : In k (map fst m)) by (apply Hincl; now left).
  destruct (map_get k m) as [e0|] eqn:Hget;
    [|now apply map_get_None_notin in Hget].
  pose proof (map_delete_length k m e0 Hm Hget) as Hlen.
  rewrite <- Hlen, <- (IH (map_delete k m)); [lia | | assumption |].
  - now apply map_delete_NoDup.
  - intros k' Hk'. apply map_delete_keys. split.
    + intros ->. exact (Hk Hk').
    + apply Hincl. now right.
Qed.

Lemma deleteAll_NoDup (rem : EntryMap) :
  forall m, List.NoDup (map fst m) -> List.NoDup (map fst (deleteAll rem m)).
Proof.
  unfold deleteAll.
  induction rem as [|[k e] rem IH]; intros m Hm; simpl; [exact Hm|].
  apply IH. now apply map_delete_NoDup.
Qed.

Lemma deleteAll_get_other (key : string) (rem : EntryMap) :
  forall m, ~ In key (map fst rem) ->
            map_get key (deleteAll rem m) = map_get key m.
Proof.
  unfold deleteAll.
  induction rem as [|[k e] rem IH]; intros m Hout; simpl; [reflexivity|].
  rewrite IH by (intros Hin; apply Hout; now right).
  apply map_get_delete_other. intros ->. apply Hout. now left.
Qed.

Lemma firstn_keys_NoDup (n : nat) (l : EntryMap) :
  List.NoDup (map fst l) -> List.NoDup (map fst (firstn n l)).
Proof.
  intros H. rewrite <- (firstn_skipn n l), map_app in H.
  now apply List.NoDup_app_remove_r in H.
Qed.

Lemma firstn_keys_incl (n : nat) (l : EntryMap) :
  incl (map fst (firstn n l)) (map fst l).
Proof.
  intros k Hk. rewrite <- (firstn_skipn n l), map_app.
  apply in_or_app. now left.
Qed.

End PruneFacts.

Section CapacityFacts.

Import DiagramCache.

Lemma sorted_keys_NoDup (m : EntryMap) :
  List.NoDup (map fst m) -> List.NoDup (map fst (sortByTimestamp m)).
Proof.
  apply Permutation_NoDup, Permutation_map, sortByTimestamp_perm.
Qed.

Lemma sorted_keys_incl (m : EntryMap) :
  incl (map fst (sortByTimestamp m)) (map fst m).
Proof.
  intros k Hk. eapply Permutation_in; [|exact Hk].
  apply Permutation_sym, Permutation_map, sortByTimestamp_perm.
Qed.

Lemma sorted_length (m : EntryMap) : length (sortByTimestamp m) = length m.
Proof. symmetry. apply Permutation_length, sortByTimestamp_perm. Qed.

Lemma pruneCache_well_formed (c : t) : well_formed c -> well_formed (pruneCache c).
Proof. apply deleteAll_NoDup. Qed.

(** With a limit of 5 or more, pruning a cache that holds one entry too
    many brings it back under the limit. *)
Lemma pruneCache_capacity (c : t) :
  5 <= maxCacheSize c -> well_formed c ->
  size c = maxCacheSize c + 1 ->
  size (pruneCache c) <= maxCacheSize c.
Proof.
  intros H5 Hwf Hsize. unfold size in *.
  unfold pruneCache. cbn [with_cache cache].
  set (N := maxCacheSize c) in *.
  assert (Hq : 1 <= N / 5 <= N).
  { split; [apply Z.div_le_lower_bound; lia|].
    apply Z.div_le_upper_bound; lia. }
  unfold slice0. rewrite sorted_length.
  replace (N / 5 <? 0) with false by (symmetry; apply Z.ltb_ge; lia).
  rewrite Z.min_l by lia.
  set (rem := firstn (Z.to_nat (N / 5)) (sortByTimestamp (cache c))).
  assert (Hrem : length rem = Z.to_nat (N / 5)).
  { unfold rem. rewrite length_firstn, sorted_length. lia. }
  pose proof (deleteAll_length rem (cache c) Hwf) as Hlen.
  rewrite <- Hlen in Hsize at 1.
  - lia.
  - apply firstn_keys_NoDup, sorted_keys_NoDup, Hwf.
  - intros k Hk. apply sorted_keys_incl. eapply firstn_keys_incl, Hk.
Qed.

Lemma set_well_formed (now : Z) (c : t) (source content dt fmt : string)
    (file : option string) :
  well_formed c -> well_formed (set now c source content dt fmt file).
Proof.
  intros Hwf. unfold set.
  set (c1 := with_cache c _).
  assert (Hwf1 : well_formed c1) by (apply map_set_NoDup, Hwf).
  destruct (_ >? _); [now apply pruneCache_well_formed | exact Hwf1].
Qed.

Lemma set_limits (now : Z) (c : t) (source content dt fmt : string)
    (file : option string) :
  maxCacheSize (set now c source content dt fmt file) = maxCacheSize c
  /\ maxCacheAge (set now c source content dt fmt file) = maxCacheAge c.
Proof. unfold set. destruct (_ >? _); split; reflexivity. Qed.

Lemma set_capacity (now : Z) (c : t) (source content dt fmt : string)
    (file : option string) :
  5 <= maxCacheSize c -> well_formed c -> size c <= maxCacheSize c ->
  size (set now c source content dt fmt file) <= maxCacheSize c.
Proof.
  intros H5 Hwf Hsize. unfold set.
  set (key := generateKey source dt fmt file).
  set (entry := {| source := source; renderedContent := content;
                   timestamp := now; diagramType := dt; outputFormat := fmt |}).
  set (c1 := with_cache c (map_set key entry (cache c))).
  pose proof (map_set_length key entry (cache c)) as Hlen.
  assert (Hwf1 : well_formed c1) by (apply map_set_NoDup, Hwf).
  change (maxCacheSize c1) with (maxCacheSize c).
  change (cache c1) with (map_set key entry (cache c)).
  unfold size in *.
  destruct (Z.gtb_spec (Z.of_nat (length (map_set key entry (cache c))))
              (maxCacheSize c)) as [Hover|Hfit].
  - change (maxCacheSize c) with (maxCacheSize c1).
    apply (pruneCache_capacity c1); [exact H5 | exact Hwf1 |].
    unfold size. change (cache c1) with (map_set key entry (cache c)).
    change (maxCacheSize c1) with (maxCacheSize c). lia.
  - exact Hfit.
Qed.

(** The capacity bound holds after every [set] when the limit is 5 or
    more. *)
Lemma capacity_from_5 (callsList : list SetCall) :
  forall c,
    5 <= maxCacheSize c -> well_formed c -> size c <= maxCacheSize c ->
    Forall (fun c' => size c' <= maxCacheSize c) (set_trace c callsList).
Proof.
  induction callsList as [|call rest IH]; intros c H5 Hwf Hsize; simpl;
    [constructor|].
  pose proof (set_limits (at_time call) c (set_source call) (set_content call)
                (set_type call) (set_format call) (set_file call)) as [HN _].
  pose proof (set_capacity (at_time call) c (set_source call) (set_content call)
                (set_type call) (set_format call) (set_file call) H5 Hwf Hsize)
    as Hcap.
  constructor; [exact Hcap|].
  unfold apply_set. rewrite <- HN. apply IH.
  - now rewrite HN.
  - now apply set_well_formed.
  - now rewrite HN.
Qed.

End CapacityFacts.

(** C1 on limits below 5: [Math.floor(maxCacheSize * 0.2)] is 0, so
    [pruneCache] runs inside [set] and removes nothing. With a limit of
    4, the fifth [set] leaves 5 entries; with a limit of 0, the first
    leaves 1. *)
Theorem capacity_exceeded_below_5 :
  map DiagramCache.size
    (DiagramCache.set_trace (DiagramCache.new 4 3600000)
       [Script.call 1 "a"; Script.call 2 "b"; Script.call 3 "c";
        Script.call 4 "d"; Script.call 5 "e"])
  = [1; 2; 3; 4; 5]
  /\ DiagramCache.size
       (DiagramCache.pruneCache
          (DiagramCache.apply_set (DiagramCache.new 0 3600000)
             (Script.call 1 "a"))) = 1
  /\ map DiagramCache.size
       (DiagramCache.set_trace (DiagramCache.new 0 3600000)
          [Script.call 1 "a"; Script.call 2 "b"])
     = [1; 2].
Proof. repeat split; reflexivity. Qed.

(** With the default limit of 5 entries and six [set] calls, the first
    entry is the one evicted. *)
Example fifo_eviction :
  map fst
    (DiagramCache.cache
       (fold_left DiagramCache.apply_set
          [Script.call 1 "a"; Script.call 2 "b"; Script.call 3 "c";
           Script.call 4 "d"; Script.call 5 "e"; Script.call 6 "f"]
          (DiagramCache.new 5 3600000)))
  = ["plantuml:svg:b"; "plantuml:svg:c"; "plantuml:svg:d"; "plantuml:svg:e";
     "plantuml:svg:f"].
Proof. reflexivity. Qed.

(** ** The type resolver *)

Section ResolverFacts.

Import JsString DiagramDetector.

Lemma space_not_word (c : ascii) : is_space c = true -> is_word c = false.
Proof.
  destruct c as [[] [] [] [] [] [] [] []]; vm_compute; congruence.
Qed.

Lemma take_while_app (p : ascii -> bool) (s t : string) :
  all_chars p s = true -> stops p t -> take_while p (s +:+ t) = s.
Proof.
  intros Hs Ht. induction s as [|c s IH]; simpl in *.
  - destruct t as [|c t]; simpl in *; [reflexivity | now rewrite Ht].
  - apply andb_true_iff in Hs as [Hc Hs]. now rewrite Hc, IH.
Qed.

Lemma drop_while_app (p : ascii -> bool) (s t : string) :
  all_chars p s = true -> stops p t -> drop_while p (s +:+ t) = t.
Proof.
  intros Hs Ht. induction s as [|c s IH]; simpl in *.
  - destruct t as [|c t]; simpl in *; [reflexivity | now rewrite Ht].
  - apply andb_true_iff in Hs as [Hc Hs]. now rewrite Hc, IH.
Qed.

Lemma unsnoc_app (s : string) (c : ascii) :
  unsnoc (s +:+ String c EmptyString) = Some (s, c).
Proof.
  induction s as [|a s IH]; simpl; [reflexivity|]. now rewrite IH.
Qed.

Lemma includes_app (sub s t : string) :
  includes sub t = true -> includes sub (s +:+ t) = true.
Proof.
  intros Ht. induction s as [|a s IH]; simpl; [exact Ht|].
  rewrite IH. apply orb_true_r.
Qed.

Lemma matchLanguage_braced (base ws optionsStr : string) :
  base <> EmptyString ->
  all_chars is_word base = true ->
  all_chars is_space ws = true ->
  optionsStr <> EmptyString ->
  all_chars (fun c => negb (is_line_terminator c)) optionsStr = true ->
  matchLanguage (base +:+ ws +:+ "{" +:+ optionsStr +:+ "}")
    = Some (base, optionsStr).
Proof.
  intros Hbase Hword Hws Hopts Hline. unfold matchLanguage.
  assert (Hstop : stops is_word (ws +:+ "{" +:+ optionsStr +:+ "}")).
  { destruct ws as [|c ws]; simpl; [reflexivity|].
    simpl in Hws. apply andb_true_iff in Hws as [Hc _].
    now apply space_not_word. }
  rewrite take_while_app, drop_while_app by assumption.
  destruct base as [|b base]; [congruence|].
  rewrite drop_while_app by (assumption || reflexivity).
  change ("{" +:+ optionsStr +:+ "}") with (String "{" (optionsStr +:+ "}")).
  cbv beta iota. rewrite unsnoc_app, Hline.
  destruct optionsStr as [|o optionsStr]; [congruence|reflexivity].
Qed.

Lemma split_single (sep : ascii) (s : string) :
  has_char sep s = false -> split sep s = [s].
Proof.
  induction s as [|c s IH]; simpl; [reflexivity|].
  intros H. apply orb_false_iff in H as [Hc Hs].
  rewrite Hc, (IH Hs). reflexivity.
Qed.









End ResolverFacts.




(** A well-formed block overrides the format and keeps the base name. *)
Example options_parsed :
  DiagramDetector.parseLanguageOptions "plantuml { format : png , x:, :y }"
  = ("plantuml", {[ "format" := "png" ]}).
Proof. reflexivity. Qed.

(** ** Rendering twice *)

Section RenderTwice.

Import DiagramRenderer.

Variable E : Env.

Lemma onNet_renderer {A} (m : M Net A) (w w' : World) (r : result A) :
  onNet m w = (r, w') -> renderer w' = renderer w.
Proof.
  unfold onNet. destruct (m (net w)) as [r0 n]. now intros [= _ <-].
Qed.

Lemma requestWithFallback_renderer (ro : KrokiClient.KrokiRequestOptions)
    (w w' : World) (r : result KrokiClient.KrokiResponse) :
  requestWithFallback E ro w = (r, w') -> renderer w' = renderer w.
Proof.
  unfold requestWithFallback, try_catch, bind.
  destruct (onNet (KrokiClient.sendGetRequest E ro) w) as [[g|e] w1] eqn:Hget.
  - apply onNet_renderer in Hget.
    destruct (fallbackEligible g).
    + destruct (onNet (KrokiClient.sendPostRequest E ro) w1) as [[p|e] w2] eqn:Hpost;
        apply onNet_renderer in Hpost; unfold throw; intros [= _ <-]; congruence.
    + unfold ret. intros [= _ <-]. exact Hget.
  - apply onNet_renderer in Hget. unfold throw. intros [= _ <-]. exact Hget.
Qed.

(** An entry stored under a new key at a time not earlier than the time
    stamps already in the cache is still there when [set] returns. *)
Lemma set_keeps_new_entry (now : Z) (c : DiagramCache.t)
    (source content dt fmt : string) (file : option string) :
  let key := DiagramCache.generateKey source dt fmt file in
  DiagramCache.map_get key (DiagramCache.cache c) = None ->
  Forall (fun x => DiagramCache.timestamp (snd x) <= now) (DiagramCache.cache c) ->
  DiagramCache.map_get key
    (DiagramCache.cache (DiagramCache.set now c source content dt fmt file))
  = Some {| DiagramCache.source := source;
            DiagramCache.renderedContent := content;
            DiagramCache.timestamp := now;
            DiagramCache.diagramType := dt;
            DiagramCache.outputFormat := fmt |}.
Proof.
  intros key Hfresh Hclock. unfold DiagramCache.set. fold key.
  set (entry := {| DiagramCache.source := source;
                   DiagramCache.renderedContent := content;
                   DiagramCache.timestamp := now;
                   DiagramCache.diagramType := dt;
                   DiagramCache.outputFormat := fmt |}).
  cbn [DiagramCache.with_cache DiagramCache.cache DiagramCache.maxCacheSize].
  set (m := DiagramCache.cache c) in *.
  set (N := DiagramCache.maxCacheSize c).
  destruct (Z.gtb_spec (Z.of_nat (length (DiagramCache.map_set key entry m))) N)
    as [Hover|Hfit]; [|apply map_get_set_same].
  unfold DiagramCache.pruneCache.
  cbn [DiagramCache.with_cache DiagramCache.cache DiagramCache.maxCacheSize].
  fold N. rewrite deleteAll_get_other; [apply map_get_set_same|].
  rewrite (map_set_fresh _ _ _ Hfresh) in *.
  rewrite sortByTimestamp_last by exact Hclock.
  unfold DiagramCache.slice0.
  rewrite length_app in *. cbn [length] in *.
  rewrite sorted_length.
  set (j := Z.to_nat _).
  assert (Hj : (j <= length (DiagramCache.sortByTimestamp m))%nat).
  { rewrite sorted_length. unfold j.
    destruct (Z.ltb_spec (N / 5) 0) as [Hneg|Hpos].
    - lia.
    - pose proof (Z.div_mod N 5 ltac:(lia)) as Hdm.
      pose proof (Z.mod_pos_bound N 5 ltac:(lia)) as Hmb.
      lia. }
  rewrite firstn_app.
  replace (j - length (DiagramCache.sortByTimestamp m))%nat with 0%nat by lia.
  cbn [firstn]. rewrite app_nil_r.
  intros Hin. apply firstn_keys_incl, sorted_keys_incl in Hin.
  exact (map_get_None_notin _ _ Hfresh Hin).
Qed.

(** An entry stored under a key that is present takes the place of the
    old one, and is still there when [set] returns if the cache is
    within its limit, or if pruning it evicts nothing, as with a limit
    below 5. *)
Lemma set_replaces_entry (now : Z) (c : DiagramCache.t)
    (source content dt fmt : string) (file : option string)
    (old : DiagramCache.DiagramCacheEntry) :
  let key := DiagramCache.generateKey source dt fmt file in
  DiagramCache.map_get key (DiagramCache.cache c) = Some old ->
  Z.of_nat (length (DiagramCache.cache c)) <= DiagramCache.maxCacheSize c
  \/ DiagramCache.slice0 (DiagramCache.maxCacheSize c / 5) (DiagramCache.cache c)
     = [] ->
  DiagramCache.map_get key
    (DiagramCache.cache (DiagramCache.set now c source content dt fmt file))
  = Some {| DiagramCache.source := source;
            DiagramCache.renderedContent := content;
            DiagramCache.timestamp := now;
            DiagramCache.diagramType := dt;
            DiagramCache.outputFormat := fmt |}.
Proof.
  intros key Hold Hroom. unfold DiagramCache.set. fold key.
  set (entry := {| DiagramCache.source := source;
                   DiagramCache.renderedContent := content;
                   DiagramCache.timestamp := now;
                   DiagramCache.diagramType := dt;
                   DiagramCache.outputFormat := fmt |}).
  cbn [DiagramCache.with_cache DiagramCache.cache DiagramCache.maxCacheSize].
  assert (Hlen : length (DiagramCache.map_set key entry (DiagramCache.cache c))
                 = length (DiagramCache.cache c)).
  { rewrite <- (length_map fst), (map_set_present _ _ _ _ Hold).
    apply length_map. }
  rewrite Hlen.
  destruct (Z.gtb_spec (Z.of_nat (length (DiagramCache.cache c)))
              (DiagramCache.maxCacheSize c)) as [Hover|Hfit];
    [|apply map_get_set_same].
  destruct Hroom as [Hroom|Hnone]; [lia|].
  unfold DiagramCache.pruneCache.
  cbn [DiagramCache.with_cache DiagramCache.cache DiagramCache.maxCacheSize].
  unfold DiagramCache.slice0 in *. rewrite sorted_length, Hlen.
  destruct (Z.to_nat _) as [|count].
  - cbn [firstn DiagramCache.deleteAll fold_left]. apply map_get_set_same.
  - destruct (DiagramCache.cache c); [discriminate Hold | discriminate Hnone].
Qed.

(** The cache lookup of a render that goes to the network leaves the
    key either absent, or under an entry with empty content. The entry
    that the render then stores is in the cache when the store returns,
    as long as no time stamp in the cache is later than the time of the
    store and, in the second case, the cache is within its limit or
    pruning it evicts nothing. *)
Lemma stored_after_miss (tGet tSet : Z) (c : DiagramCache.t)
    (source content dt fmt : string) :
  let key := DiagramCache.generateKey source dt fmt None in
  let looked := DiagramCache.get tGet c source dt fmt None in
  (forall cached, fst looked = Some cached -> cached = EmptyString) ->
  Forall (fun x => DiagramCache.timestamp (snd x) <= tSet) (DiagramCache.cache c) ->
  (fst looked = Some EmptyString ->
   Z.of_nat (length (DiagramCache.cache c)) <= DiagramCache.maxCacheSize c
   \/ DiagramCache.slice0 (DiagramCache.maxCacheSize c / 5)
        (DiagramCache.cache c) = []) ->
  let c1 := DiagramCache.set tSet (snd looked) source content dt fmt None in
  DiagramCache.map_get key (DiagramCache.cache c1)
  = Some {| DiagramCache.source := source;
            DiagramCache.renderedContent := content;
            DiagramCache.timestamp := tSet;
            DiagramCache.diagramType := dt;
            DiagramCache.outputFormat := fmt |}
  /\ DiagramCache.maxCacheAge c1 = DiagramCache.maxCacheAge c.
Proof.
  intros key looked Hmiss Hclock Hroom c1. subst looked c1.
  unfold DiagramCache.get in *. fold key in Hmiss, Hroom |- *.
  destruct (DiagramCache.map_get key (DiagramCache.cache c)) as [old|] eqn:Hold.
  - destruct (tGet - DiagramCache.timestamp old <=? DiagramCache.maxCacheAge c).
    + cbn [fst snd] in *. rewrite (Hmiss _ eq_refl) in Hroom.
      split; [|apply set_limits].
      apply (set_replaces_entry tSet c source content dt fmt None old Hold).
      now apply Hroom.
    + cbn [fst snd]. split.
      * apply set_keeps_new_entry.
        -- cbn [DiagramCache.with_cache DiagramCache.cache].
           apply map_get_delete_same.
        -- cbn [DiagramCache.with_cache DiagramCache.cache].
           unfold DiagramCache.map_delete.
           apply List.Forall_forall. intros x Hx.
           apply List.filter_In in Hx as [Hx _].
           revert x Hx. now apply List.Forall_forall.
      * now rewrite (proj2 (set_limits _ _ _ _ _ _ _)).
  - cbn [fst snd]. split; [|apply set_limits].
    now apply set_keeps_new_entry.
Qed.

(** What a successful render that is not answered from the cache has
    done. *)
Lemma render_miss_inversion (tGet tSet : Z) (source diagramType : string)
    (options : DiagramRenderOptions) (w w1 : World) (content : string) :
  let looked :=
    DiagramCache.get tGet (cache (renderer w)) source diagramType
      (outputFormat options) None in
  cacheEnabled options = true ->
  (forall cached, fst looked = Some cached -> cached = EmptyString) ->
  renderDiagram E tGet tSet source diagramType options w = (Ok content, w1) ->
  exists response w2,
    requestWithFallback E (requestOptions source diagramType options)
      {| renderer := {| cache := snd looked;
                        detector := detector (renderer w) |};
         net := net w |} = (Ok response, w2)
    /\ KrokiClient.success response = true
    /\ KrokiClient.data response = Some content
    /\ content <> EmptyString
    /\ w1 = {| renderer :=
                 {| cache := DiagramCache.set tSet (snd looked) source
                               content diagramType (outputFormat options) None;
                    detector := detector (renderer w) |};
               net := net w2 |}.
Proof.
  intros looked Hen Hmiss. unfold renderDiagram, bind. rewrite Hen.
  unfold cacheGet. fold looked.
  destruct looked as [found c'] eqn:Hlooked. cbn [fst snd] in *.
  assert (Hfetch :
    fetchAndStore E tSet source diagramType options
      {| renderer := {| cache := c'; detector := detector (renderer w) |};
         net := net w |} = (Ok content, w1) ->
    exists response w2,
      requestWithFallback E (requestOptions source diagramType options)
        {| renderer := {| cache := c'; detector := detector (renderer w) |};
           net := net w |} = (Ok response, w2)
      /\ KrokiClient.success response = true
      /\ KrokiClient.data response = Some content
      /\ content <> EmptyString
      /\ w1 = {| renderer :=
                   {| cache := DiagramCache.set tSet c' source
                                 content diagramType (outputFormat options) None;
                      detector := detector (renderer w) |};
                 net := net w2 |}).
  { unfold fetchAndStore, bind. rewrite Hen.
    destruct (requestWithFallback E _ _) as [[response|e] w2] eqn:Hreq;
      [|discriminate].
    pose proof (requestWithFallback_renderer _ _ _ _ Hreq) as Hrend.
    cbn [renderer] in Hrend.
    destruct (KrokiClient.success response) eqn:Hok; [|discriminate].
    destruct (KrokiClient.data response) as [[|ch rest]|] eqn:Hdata;
      try discriminate.
    unfold cacheSet, ret. intros Heq. injection Heq as Hcontent Hworld.
    subst content w1.
    exists response, w2. rewrite Hrend. cbn [cache detector].
    repeat split; try reflexivity; try assumption. discriminate. }
  destruct found as [[|ch rest]|].
  - exact Hfetch.
  - specialize (Hmiss _ eq_refl). discriminate Hmiss.
  - exact Hfetch.
Qed.

End RenderTwice.

Lemma requestWithFallback_first_get_ok (E : Env)
    (ro : KrokiClient.KrokiRequestOptions) (w : DiagramRenderer.World)
    (encodedSource : string) (response : RequestUrlResponse) :
  KrokiClient.encodeDiagramSource E (KrokiClient.source ro) = Ok encodedSource ->
  requestUrl E (calls (DiagramRenderer.net w))
    (KrokiClient.getRequestParams ro encodedSource) = Ok response ->
  KrokiClient.is_2xx (status response) = true ->
  0 < KrokiClient.num_or (KrokiClient.retryCount ro) 1 ->
  DiagramRenderer.requestWithFallback E ro w
  = (Ok (KrokiClient.processResponse response),
     {| DiagramRenderer.renderer := DiagramRenderer.renderer w;
        DiagramRenderer.net :=
          {| calls := calls (DiagramRenderer.net w)
                        ++ [KrokiClient.getRequestParams ro encodedSource];
             delays := delays (DiagramRenderer.net w) |} |}).
Proof.
  intros Henc Hcall H2xx Hretry.
  assert (Hget : KrokiClient.sendGetRequest E ro (DiagramRenderer.net w)
                 = (Ok (KrokiClient.processResponse response),
                    {| calls := calls (DiagramRenderer.net w)
                                  ++ [KrokiClient.getRequestParams ro encodedSource];
                       delays := delays (DiagramRenderer.net w) |})).
  { rewrite sendGetRequest_unfold, Henc.
    unfold KrokiClient.sendRequestWithRetry, try_catch, bind, ret.
    destruct (Z.to_nat (KrokiClient.num_or (KrokiClient.retryCount ro) 1))
      as [|k] eqn:Hk; [lia|].
    cbn [KrokiClient.retryLoop]. unfold KrokiClient.request.
    now rewrite Hcall, H2xx. }
  rewrite (requestWithFallback_unfold E ro w _ _ Hget).
  unfold DiagramRenderer.fallbackEligible, KrokiClient.processResponse.
  now rewrite H2xx.
Qed.

(** C8, amended. When a render with caching enabled is not answered
    from the cache (the key is absent, or under an entry that is expired
    or has empty content) and succeeds, a second render of the same
    source, type and format within the age bound returns the same content
    from the cache and leaves the network untouched. The clock is assumed
    not to run backwards: no time stamp in the cache is later than the
    time of the store. Where the store replaces an entry with empty
    content, the cache is assumed within its limit, or such that pruning
    it evicts nothing (as with a limit below 5).
    The transport calls of the two renders are those of the first:
    exactly one when the first GET attempt is answered 2xx. *)
Theorem second_render_from_cache (E : Env) (tGet1 tSet1 tGet2 tSet2 : Z)
    (source diagramType : string)
    (options : DiagramRenderer.DiagramRenderOptions)
    (w w1 : DiagramRenderer.World) (content : string) :
  let c := DiagramRenderer.cache (DiagramRenderer.renderer w) in
  let ro := DiagramRenderer.requestOptions source diagramType options in
  let looked :=
    DiagramCache.get tGet1 c source diagramType
      (DiagramRenderer.outputFormat options) None in
  DiagramRenderer.cacheEnabled options = true ->
  (forall cached, fst looked = Some cached -> cached = EmptyString) ->
  Forall (fun x => DiagramCache.timestamp (snd x) <= tSet1)
    (DiagramCache.cache c) ->
  (fst looked = Some EmptyString ->
   Z.of_nat (length (DiagramCache.cache c)) <= DiagramCache.maxCacheSize c
   \/ DiagramCache.slice0 (DiagramCache.maxCacheSize c / 5)
        (DiagramCache.cache c) = []) ->
  tGet2 - tSet1 <= DiagramCache.maxCacheAge c ->
  DiagramRenderer.renderDiagram E tGet1 tSet1 source diagramType options w
    = (Ok content, w1) ->
  DiagramRenderer.renderDiagram E tGet2 tSet2 source diagramType options w1
    = (Ok content, w1)
  /\ (forall encodedSource response,
        KrokiClient.encodeDiagramSource E source = Ok encodedSource ->
        requestUrl E (calls (DiagramRenderer.net w))
          (KrokiClient.getRequestParams ro encodedSource) = Ok response ->
        KrokiClient.is_2xx (status response) = true ->
        0 < KrokiClient.num_or (DiagramRenderer.retryCount options) 1 ->
        calls (DiagramRenderer.net w1)
        = calls (DiagramRenderer.net w)
            ++ [KrokiClient.getRequestParams ro encodedSource]).
Proof.
  intros c ro looked Hen Hmiss Hclock Hroom Hage Hrun.
  destruct (render_miss_inversion E _ _ _ _ _ _ _ _ Hen Hmiss Hrun)
    as (response & w2 & Hreq & Hok & Hdata & Hne & Hw1).
  fold c in Hw1, Hreq. fold looked in Hw1, Hreq.
  destruct (stored_after_miss tGet1 tSet1 c source content diagramType
              (DiagramRenderer.outputFormat options) Hmiss Hclock Hroom)
    as [Hstored Hlimit].
  fold looked in Hstored, Hlimit.
  split.
  - subst w1. unfold DiagramRenderer.renderDiagram, bind. rewrite Hen.
    unfold DiagramRenderer.cacheGet.
    cbn [DiagramRenderer.renderer DiagramRenderer.cache
         DiagramRenderer.detector DiagramRenderer.net].
    unfold DiagramCache.get. rewrite Hstored.
    cbn [DiagramCache.timestamp DiagramCache.renderedContent].
    rewrite Hlimit.
    replace (tGet2 - tSet1 <=? DiagramCache.maxCacheAge c) with true
      by (symmetry; apply Z.leb_le; lia).
    destruct content as [|ch rest]; [congruence|]. reflexivity.
  - intros encodedSource resp Henc Hcall H2xx Hretry.
    match type of Hreq with
    | DiagramRenderer.requestWithFallback _ _ ?w0 = _ =>
        pose proof (requestWithFallback_first_get_ok E ro w0 encodedSource resp
                      Henc Hcall H2xx Hretry) as Hfirst
    end.
    pose proof (eq_trans (eq_sym Hfirst) Hreq) as Heq.
    injection Heq as _ <-. subst w1. reflexivity.
Qed.

Lemma second_render_from_cache_witness :
  let E := Script.always (Script.respond 200 "<svg/>") in
  (* no entry under the key *)
  (let w1 :=
     snd (DiagramRenderer.renderDiagram E 0 1 "A->B" "plantuml"
            (Script.options (Some 3)) (Script.world 100 3600000)) in
   DiagramRenderer.renderDiagram E 2 3 "A->B" "plantuml"
     (Script.options (Some 3)) w1 = (Ok "<svg/>", w1)
   /\ calls (DiagramRenderer.net w1)
      = [] ++ [KrokiClient.getRequestParams (Script.request (Some 3)) "QS0-Qg"])
  /\
  (* an expired entry under the key: stored at 1, looked up at 20 with a
     maximal age of 10 *)
  (let w :=
     snd (DiagramRenderer.renderDiagram E 0 1 "A->B" "plantuml"
            (Script.options (Some 3)) (Script.world 100 10)) in
   let w1 :=
     snd (DiagramRenderer.renderDiagram E 20 21 "A->B" "plantuml"
            (Script.options (Some 3)) w) in
   DiagramRenderer.renderDiagram E 22 23 "A->B" "plantuml"
     (Script.options (Some 3)) w1 = (Ok "<svg/>", w1)
   /\ calls (DiagramRenderer.net w1)
      = calls (DiagramRenderer.net w)
          ++ [KrokiClient.getRequestParams (Script.request (Some 3)) "QS0-Qg"])
  /\
  (* an entry with empty content under the key *)
  (let w :=
     {| DiagramRenderer.renderer :=
          {| DiagramRenderer.cache :=
               DiagramCache.set 0 (DiagramCache.new 100 3600000)
                 "A->B" EmptyString "plantuml" "svg" None;
             DiagramRenderer.detector := DiagramDetector.new [("plantuml", [])] |};
        DiagramRenderer.net := no_traffic |} in
   let w1 :=
     snd (DiagramRenderer.renderDiagram E 1 2 "A->B" "plantuml"
            (Script.options (Some 3)) w) in
   DiagramRenderer.renderDiagram E 3 4 "A->B" "plantuml"
     (Script.options (Some 3)) w1 = (Ok "<svg/>", w1)
   /\ calls (DiagramRenderer.net w1)
      = [] ++ [KrokiClient.getRequestParams (Script.request (Some 3)) "QS0-Qg"]).
Proof.
  intros E. split; [|split].
  - intros w1.
    destruct (second_render_from_cache E 0 1 2 3 "A->B" "plantuml"
                (Script.options (Some 3)) (Script.world 100 3600000) w1 "<svg/>")
      as [Hsecond Honce]; try reflexivity.
    + intros cached Hcached. discriminate Hcached.
    + constructor.
    + intros Hcached. discriminate Hcached.
    + discriminate.
    + split; [exact Hsecond|].
      apply (Honce "QS0-Qg" {| status := 200; text := "<svg/>";
                               arrayBuffer := None; contentType := None |});
        reflexivity.
  - intros w w1.
    destruct (second_render_from_cache E 20 21 22 23 "A->B" "plantuml"
                (Script.options (Some 3)) w w1 "<svg/>")
      as [Hsecond Honce]; try reflexivity.
    + intros cached Hcached. discriminate Hcached.
    + repeat constructor. discriminate.
    + intros Hcached. discriminate Hcached.
    + discriminate.
    + split; [exact Hsecond|].
      apply (Honce "QS0-Qg" {| status := 200; text := "<svg/>";
                               arrayBuffer := None; contentType := None |});
        reflexivity.
  - intros w w1.
    destruct (second_render_from_cache E 1 2 3 4 "A->B" "plantuml"
                (Script.options (Some 3)) w w1 "<svg/>")
      as [Hsecond Honce]; try reflexivity.
    + intros cached Hcached. injection Hcached as <-. reflexivity.
    + repeat constructor. discriminate.
    + intros _. left. discriminate.
    + discriminate.
    + split; [exact Hsecond|].
      apply (Honce "QS0-Qg" {| status := 200; text := "<svg/>";
                               arrayBuffer := None; contentType := None |});
        reflexivity.
Defined.

(** C8 as stated fails, in four ways. A first GET attempt answered 503
    is retried: both renders succeed, the second from the cache, and the
    transport has been called twice. A render that fails caches nothing,
    so the second render calls the transport again. When the content is
    in the cache before the first render, neither render calls the
    transport. And when the time stamps in a full cache are later than
    the time of the store, the store evicts the entry it has just made,
    and the second render calls the transport again. *)
Lemma render_twice_more_than_one_call :
  (let E := Script.first_then (Script.respond 503 "busy")
              (Script.respond 200 "<svg/>") in
   let run1 := DiagramRenderer.renderDiagram E 0 1 "A->B" "plantuml"
                 (Script.options (Some 3)) (Script.world 100 3600000) in
   let run2 := DiagramRenderer.renderDiagram E 2 3 "A->B" "plantuml"
                 (Script.options (Some 3)) (snd run1) in
   fst run1 = Ok "<svg/>" /\ fst run2 = Ok "<svg/>"
   /\ length (calls (DiagramRenderer.net (snd run2))) = 2%nat)
  /\
  (let E := Script.always (Script.respond 500 "down") in
   let run1 := DiagramRenderer.renderDiagram E 0 1 "A->B" "plantuml"
                 (Script.options None) (Script.world 100 3600000) in
   let run2 := DiagramRenderer.renderDiagram E 2 3 "A->B" "plantuml"
                 (Script.options None) (snd run1) in
   length (calls (DiagramRenderer.net (snd run1))) = 2%nat
   /\ length (calls (DiagramRenderer.net (snd run2))) = 4%nat)
  /\
  (let E := Script.always (Script.respond 200 "<svg/>") in
   let render := fun t src w =>
     DiagramRenderer.renderDiagram E t t src "plantuml" (Script.options None) w in
   let w0 := snd (render 0 "A->B" (Script.world 100 3600000)) in
   let run1 := render 1 "A->B" w0 in
   let run2 := render 2 "A->B" (snd run1) in
   fst run1 = Ok "<svg/>" /\ fst run2 = Ok "<svg/>"
   /\ calls (DiagramRenderer.net (snd run2)) = calls (DiagramRenderer.net w0))
  /\
  (let E := Script.always (Script.respond 200 "<svg/>") in
   let render := fun t src w =>
     DiagramRenderer.renderDiagram E t t src "plantuml" (Script.options None) w in
   let w0 :=
     fold_left (fun w src => snd (render 100 src w))
       ["a"; "b"; "c"; "d"; "e"] (Script.world 5 3600000) in
   let run1 := render 1 "A->B" w0 in
   let run2 := render 2 "A->B" (snd run1) in
   length (calls (DiagramRenderer.net w0)) = 5%nat
   /\ fst run1 = Ok "<svg/>" /\ fst run2 = Ok "<svg/>"
   /\ length (calls (DiagramRenderer.net (snd run1))) = 6%nat
   /\ length (calls (DiagramRenderer.net (snd run2))) = 7%nat).
Proof. repeat split; vm_compute; reflexivity. Qed.

(** * Further properties of the code *)

(** ** The encoder: alphabet of the token, and white space *)

Section EncoderMore.

Import JsString.

Lemma all_chars_app (p : ascii -> bool) (s t : string) :
  all_chars p (s +:+ t) = all_chars p s && all_chars p t.
Proof.
  induction s as [|c s IH]; simpl; [reflexivity|].
  now rewrite IH, andb_assoc.
Qed.

Lemma all_chars_impl (p q : ascii -> bool) (s : string) :
  (forall c, p c = true -> q c = true) ->
  all_chars p s = true -> all_chars q s = true.
Proof.
  intros Hpq. induction s as [|c s IH]; simpl; [reflexivity|].
  intros H. apply andb_true_iff in H as [Hc Hs].
  now rewrite (Hpq c Hc), IH.
Qed.

Lemma replace_char_app (a b : ascii) (s t : string) :
  replace_char a b (s +:+ t) = replace_char a b s +:+ replace_char a b t.
Proof.
  induction s as [|c s IH]; simpl; [reflexivity|]. now rewrite IH.
Qed.

Lemma all_chars_replace (p q : ascii -> bool) (a b : ascii) (s : string) :
  (forall c, p c = true -> q (if Ascii.eqb c a then b else c) = true) ->
  all_chars p s = true -> all_chars q (replace_char a b s) = true.
Proof.
  intros Hpq. induction s as [|c s IH]; simpl; [reflexivity|].
  intros H. apply andb_true_iff in H as [Hc Hs].
  now rewrite (Hpq c Hc), IH.
Qed.

Lemma drop_while_end_app (p : ascii -> bool) (s r : string) :
  all_chars p r = true -> drop_while_end p (s +:+ r) = drop_while_end p s.
Proof.
  intros Hr. induction s as [|c s IH].
  - change (EmptyString +:+ r) with r.
    induction r as [|d r IHr]; simpl in *; [reflexivity|].
    apply andb_true_iff in Hr as [Hd Hr]. now rewrite (IHr Hr), Hd.
  - change (String c s +:+ r) with (String c (s +:+ r)).
    simpl. now rewrite IH.
Qed.

Lemma drop_while_end_id (p : ascii -> bool) (s : string) :
  all_chars (fun c => negb (p c)) s = true -> drop_while_end p s = s.
Proof.
  induction s as [|c s IH]; simpl; [reflexivity|].
  intros H. apply andb_true_iff in H as [Hc Hs]. rewrite (IH Hs).
  destruct s; [|reflexivity]. apply negb_true_iff in Hc. now rewrite Hc.
Qed.

Lemma digit_is_b64 (n : N) : Base64.is_digit (Base64.digit n) = true.
Proof.
  unfold Base64.digit.
  assert (Hlt : (N.to_nat (n mod 64) < 64)%nat).
  { pose proof (N.mod_lt n 64 ltac:(discriminate)). lia. }
  revert Hlt. generalize (N.to_nat (n mod 64)) as k. intros k Hk.
  do 64 (destruct k as [|k]; [reflexivity|]). lia.
Qed.

(** A base64 text is digits followed by padding. *)
Lemma encode_shape (bound : nat) :
  forall bs, (length bs <= bound)%nat ->
  exists body padding,
    Base64.encode bs = body +:+ padding
    /\ all_chars Base64.is_digit body = true
    /\ all_chars (Ascii.eqb "="%char) padding = true.
Proof.
  induction bound as [|bound IH]; intros bs Hlen.
  - destruct bs; [|simpl in Hlen; lia].
    exists EmptyString, EmptyString. now repeat split.
  - destruct bs as [|a [|b [|c rest]]].
    + exists EmptyString, EmptyString. now repeat split.
    + eexists (String _ (String _ EmptyString)), "==".
      split; [reflexivity|]. split; [|reflexivity].
      simpl. now rewrite !digit_is_b64.
    + eexists (String _ (String _ (String _ EmptyString))), "=".
      split; [reflexivity|]. split; [|reflexivity].
      simpl. now rewrite !digit_is_b64.
    + destruct (IH rest) as (body & padding & Hrest & Hbody & Hpad).
      { simpl in Hlen. lia. }
      eexists (String _ (String _ (String _ (String _ body)))), padding.
      split; [|split; [|exact Hpad]].
      * cbn [Base64.encode]. rewrite Hrest. reflexivity.
      * simpl. now rewrite !digit_is_b64, Hbody.
Qed.

Ltac by_cases_on_char c :=
  destruct c as [[] [] [] [] [] [] [] []]; vm_compute; congruence.

Lemma urlSafe_alphabet (bs : list byte) :
  all_chars KrokiClient.path_safe (KrokiClient.urlSafe (Base64.encode bs)) = true.
Proof.
  destruct (encode_shape (length bs) bs (le_n _))
    as (body & padding & -> & Hbody & Hpad).
  unfold KrokiClient.urlSafe. rewrite !replace_char_app.
  rewrite drop_while_end_app.
  - rewrite drop_while_end_id.
    + apply (all_chars_replace
               (fun c => KrokiClient.path_safe c || Ascii.eqb c "/"%char) KrokiClient.path_safe).
      { intros c. by_cases_on_char c. }
      apply (all_chars_replace Base64.is_digit
               (fun c => KrokiClient.path_safe c || Ascii.eqb c "/"%char));
        [|exact Hbody].
      intros c. by_cases_on_char c.
    + apply (all_chars_replace
               (fun c => negb (Ascii.eqb "="%char c))
               (fun c => negb (Ascii.eqb "="%char c))).
      { intros c. by_cases_on_char c. }
      apply (all_chars_replace Base64.is_digit
               (fun c => negb (Ascii.eqb "="%char c)));
        [|exact Hbody].
      intros c. by_cases_on_char c.
  - apply (all_chars_replace (Ascii.eqb "="%char) (Ascii.eqb "="%char)).
    { intros c. by_cases_on_char c. }
    apply (all_chars_replace (Ascii.eqb "="%char) (Ascii.eqb "="%char));
      [|exact Hpad].
    intros c. by_cases_on_char c.
Qed.

End EncoderMore.

(** X1. A token produced by the encoder is made of the characters
    [A-Za-z0-9], [_] and [-] only, whatever pako returns. *)
Theorem token_alphabet (E : Env) (source token : string) :
  KrokiClient.encodeDiagramSource E source = Ok token ->
  JsString.all_chars
    (fun c => JsString.is_word c || Ascii.eqb c "-"%char) token = true.
Proof.
  unfold KrokiClient.encodeDiagramSource.
  destruct (pako_deflate E _) as [compressed|]; [|discriminate].
  intros [= <-]. apply urlSafe_alphabet.
Qed.

Lemma token_alphabet_witness :
  JsString.all_chars
    (fun c => JsString.is_word c || Ascii.eqb c "-"%char) "QS0-Qj8_Pw" = true.
Proof.
  apply (token_alphabet (Script.always (Script.respond 200 "ok"))
           " A-&gt;B??? " "QS0-Qj8_Pw").
  reflexivity.
Defined.

Section TrimFacts.

Import JsString.

Lemma drop_while_all (p : ascii -> bool) (s : string) :
  all_chars p s = true -> drop_while p s = EmptyString.
Proof.
  induction s as [|c s IH]; simpl; [reflexivity|].
  intros H. apply andb_true_iff in H as [Hc Hs]. now rewrite Hc, IH.
Qed.

Lemma drop_while_split (p : ascii -> bool) (s r : string) :
  drop_while p (s +:+ r) =
  if all_chars p s then drop_while p r else drop_while p s +:+ r.
Proof.
  induction s as [|c s IH].
  - reflexivity.
  - change (String c s +:+ r) with (String c (s +:+ r)). simpl.
    destruct (p c); [exact IH | reflexivity].
Qed.

Lemma trim_outer_space (l s r : string) :
  all_chars is_space l = true -> all_chars is_space r = true ->
  trim (l +:+ s +:+ r) = trim s.
Proof.
  intros Hl Hr. unfold trim.
  rewrite drop_while_split, Hl, drop_while_split.
  destruct (all_chars is_space s) eqn:Hs.
  - now rewrite (drop_while_all _ _ Hr), (drop_while_all _ _ Hs).
  - now apply drop_while_end_app.
Qed.

End TrimFacts.

(** X2. White space around the source does not change the outcome of
    the encoder: the token is the one of the source alone. *)
Theorem encode_ignores_outer_space (E : Env) (before source after : string) :
  JsString.all_chars JsString.is_space before = true ->
  JsString.all_chars JsString.is_space after = true ->
  KrokiClient.encodeDiagramSource E (before +:+ source +:+ after)
  = KrokiClient.encodeDiagramSource E source.
Proof.
  intros Hb Ha. unfold KrokiClient.encodeDiagramSource.
  now rewrite trim_outer_space.
Qed.

Lemma encode_ignores_outer_space_witness :
  KrokiClient.encodeDiagramSource (Script.always (Script.respond 200 "ok"))
    "  A->B  "
  = KrokiClient.encodeDiagramSource (Script.always (Script.respond 200 "ok"))
      "A->B".
Proof.
  apply (encode_ignores_outer_space
           (Script.always (Script.respond 200 "ok")) "  " "A->B" "  ");
    reflexivity.
Defined.

(** ** The retry loop: terminal answers, retried answers, back-off *)

Section RetryMore.

Import KrokiClient.

Variable E : Env.

(** An answer below 500 ends the sequence at once. *)
Lemma retryLoop_terminal (req : RequestUrlParam) (d : Z) (remaining : nat)
    (attempt : Z) (lastError : option JsError) (n : Net)
    (response : RequestUrlResponse) :
  requestUrl E (calls n) req = Ok response ->
  status response < 500 ->
  retryLoop E req d (S remaining) attempt lastError n
  = (Ok response, {| calls := calls n ++ [req]; delays := delays n |}).
Proof.
  intros Hcall Hst. cbn [retryLoop]. unfold request. rewrite Hcall.
  destruct (is_2xx (status response)); [reflexivity|].
  replace (500 <=? status response) with false
    by (symmetry; apply Z.leb_gt; lia).
  reflexivity.
Qed.

(** An exception that is not a network error is rethrown at once. *)
Lemma retryLoop_rethrow (req : RequestUrlParam) (d : Z) (remaining : nat)
    (attempt : Z) (lastError : option JsError) (n : Net) (e : JsError) :
  requestUrl E (calls n) req = Throw e ->
  name e <> "AbortError" ->
  JsString.includes "fetch" (message e) = false ->
  retryLoop E req d (S remaining) attempt lastError n
  = (Throw e, {| calls := calls n ++ [req]; delays := delays n |}).
Proof.
  intros Hcall Hname Hmsg. cbn [retryLoop]. unfold request. rewrite Hcall, Hmsg.
  replace (String.eqb (name e) "AbortError") with false
    by (symmetry; now apply String.eqb_neq).
  reflexivity.
Qed.

(** The delays before the attempts [attempt], [attempt + 1], ... *)
Lemma backoff_S (d attempt : Z) (count : nat) :
  map (fun i => d * 2 ^ (attempt + Z.of_nat i)) (seq 0 (S count))
  = d * 2 ^ attempt
    :: map (fun i => d * 2 ^ (attempt + 1 + Z.of_nat i)) (seq 0 count).
Proof.
  cbn [seq map]. rewrite Z.add_0_r. f_equal.
  rewrite <- seq_shift, map_map. apply map_ext. intros i. do 2 f_equal. lia.
Qed.

(** When every answer is a 5xx response or a network error, the loop
    uses all its iterations, and sleeps after each of them. *)
Lemma retryLoop_all_retried (req : RequestUrlParam) (d : Z) :
  (forall history,
      match requestUrl E history req with
      | Ok response => 500 <= status response
      | Throw e => name e = "AbortError"
                   \/ JsString.includes "fetch" (message e) = true
      end) ->
  forall remaining attempt lastError n,
  exists e,
    retryLoop E req d (S remaining) attempt lastError n
    = (Throw e,
       {| calls := calls n ++ repeat req (S remaining);
          delays := delays n
                    ++ map (fun i => d * 2 ^ (attempt + Z.of_nat i))
                         (seq 0 (S remaining)) |}).
Proof.
  intros Hall.
  assert (Hstep : forall remaining attempt lastError n,
    exists e1,
      retryLoop E req d (S remaining) attempt lastError n
      = retryLoop E req d remaining (attempt + 1) (Some e1)
          {| calls := calls n ++ [req];
             delays := delays n ++ [d * 2 ^ attempt] |}).
  { intros remaining attempt lastError n. cbn [retryLoop]. unfold request.
    specialize (Hall (calls n)).
    destruct (requestUrl E (calls n) req) as [response|e].
    - replace (is_2xx (status response)) with false
        by (symmetry; unfold is_2xx; apply andb_false_iff; right;
            apply Z.ltb_ge; lia).
      replace (500 <=? status response) with true
        by (symmetry; apply Z.leb_le; lia).
      eexists. reflexivity.
    - exists e.
      replace (String.eqb (name e) "AbortError"
               || JsString.includes "fetch" (message e)) with true;
        [reflexivity|].
      symmetry. apply orb_true_iff.
      destruct Hall as [Hname|Hmsg]; [left; now apply String.eqb_eq | now right]. }
  induction remaining as [|remaining IH]; intros attempt lastError n.
  - destruct (Hstep 0%nat attempt lastError n) as (e1 & ->).
    exists e1. cbn [retryLoop seq map repeat]. unfold throw.
    now rewrite Z.add_0_r.
  - destruct (Hstep (S remaining) attempt lastError n) as (e1 & ->).
    destruct (IH (attempt + 1) (Some e1)
                {| calls := calls n ++ [req];
                   delays := delays n ++ [d * 2 ^ attempt] |}) as (e & ->).
    exists e. cbn [calls delays]. rewrite (backoff_S d attempt (S remaining)).
    f_equal. f_equal; rewrite <- app_assoc; reflexivity.
Qed.

End RetryMore.

(** X3. When the transport answers every POST attempt with a 5xx
    response or a network error, [sendPostRequest] uses the whole retry
    budget [K = retryCount || 1], sleeps [retryDelay * 2^i] after attempt
    [i] for every [i < K] (the last attempt included), and returns a
    failure without status code. *)
Theorem exhausted_retries_backoff (E : Env)
    (options : KrokiClient.KrokiRequestOptions) (n : Net) :
  let K := Z.to_nat (KrokiClient.num_or (KrokiClient.retryCount options) 1) in
  let D := KrokiClient.num_or (KrokiClient.retryDelay options) 1000 in
  0 < KrokiClient.num_or (KrokiClient.retryCount options) 1 ->
  (forall history,
      match requestUrl E history (KrokiClient.postRequestParams options) with
      | Ok response => 500 <= status response
      | Throw e => name e = "AbortError"
                   \/ JsString.includes "fetch" (message e) = true
      end) ->
  exists r,
    KrokiClient.sendPostRequest E options n
    = (Ok r,
       {| calls := calls n ++ repeat (KrokiClient.postRequestParams options) K;
          delays := delays n ++ map (fun i => D * 2 ^ Z.of_nat i) (seq 0 K) |})
    /\ KrokiClient.success r = false
    /\ KrokiClient.statusCode r = None.
Proof.
  intros K D Hpos Hall.
  unfold KrokiClient.sendPostRequest, KrokiClient.sendRequestWithRetry,
    try_catch, bind, ret.
  fold K D. destruct K as [|k] eqn:HK; [lia|].
  destruct (retryLoop_all_retried E _ D Hall k 0 None n) as (e & ->).
  exists (KrokiClient.failureOf e). repeat split.
Qed.

Lemma exhausted_retries_backoff_witness :
  exists r,
    KrokiClient.sendPostRequest
      (Script.always (Throw {| name := "AbortError"; message := "timed out" |}))
      (Script.request (Some 3)) no_traffic
    = (Ok r,
       {| calls := [] ++ repeat (KrokiClient.postRequestParams
                                   (Script.request (Some 3))) 3;
          delays := [] ++ [1000; 2000; 4000] |})
    /\ KrokiClient.success r = false
    /\ KrokiClient.statusCode r = None.
Proof.
  apply (exhausted_retries_backoff
           (Script.always (Throw {| name := "AbortError"; message := "timed out" |}))
           (Script.request (Some 3)) no_traffic).
  - reflexivity.
  - intros history. left. reflexivity.
Defined.

(** X4. When the first answer of the transport has a status below 500,
    each public request calls the transport once, does not sleep, and
    returns that answer as normalised by [processResponse]: client errors
    are not retried. *)
Theorem first_answer_below_500_is_final (E : Env)
    (options : KrokiClient.KrokiRequestOptions) (n : Net)
    (response : RequestUrlResponse) :
  0 < KrokiClient.num_or (KrokiClient.retryCount options) 1 ->
  status response < 500 ->
  (requestUrl E (calls n) (KrokiClient.postRequestParams options) = Ok response ->
   KrokiClient.sendPostRequest E options n
   = (Ok (KrokiClient.processResponse response),
      {| calls := calls n ++ [KrokiClient.postRequestParams options];
         delays := delays n |}))
  /\ (forall encodedSource,
        KrokiClient.encodeDiagramSource E (KrokiClient.source options)
          = Ok encodedSource ->
        requestUrl E (calls n)
          (KrokiClient.getRequestParams options encodedSource) = Ok response ->
        KrokiClient.sendGetRequest E options n
        = (Ok (KrokiClient.processResponse response),
           {| calls := calls n
                       ++ [KrokiClient.getRequestParams options encodedSource];
              delays := delays n |})).
Proof.
  intros Hpos Hst.
  destruct (Z.to_nat (KrokiClient.num_or (KrokiClient.retryCount options) 1))
    as [|k] eqn:HK; [lia|].
  split.
  - intros Hcall.
    unfold KrokiClient.sendPostRequest, KrokiClient.sendRequestWithRetry,
      try_catch, bind, ret.
    now rewrite HK, (retryLoop_terminal E _ _ _ _ _ _ _ Hcall Hst).
  - intros tok Henc Hcall. rewrite sendGetRequest_unfold, Henc.
    unfold KrokiClient.sendRequestWithRetry, try_catch, bind, ret.
    now rewrite HK, (retryLoop_terminal E _ _ _ _ _ _ _ Hcall Hst).
Qed.

Lemma first_answer_below_500_is_final_witness :
  KrokiClient.sendPostRequest (Script.always (Script.respond 404 EmptyString))
    (Script.request (Some 3)) no_traffic
  = (Ok {| KrokiClient.success := false;
           KrokiClient.data := None;
           KrokiClient.error := Some "HTTP error 404";
           KrokiClient.statusCode := Some 404 |},
     {| calls := [KrokiClient.postRequestParams (Script.request (Some 3))];
        delays := [] |}).
Proof.
  apply (proj1 (first_answer_below_500_is_final
                  (Script.always (Script.respond 404 EmptyString))
                  (Script.request (Some 3)) no_traffic
                  {| status := 404; text := EmptyString;
                     arrayBuffer := None; contentType := None |}
                  eq_refl eq_refl)).
  reflexivity.
Defined.

(** X5. An exception of the transport that is neither an [AbortError]
    nor mentions [fetch] is not retried: [sendPostRequest] calls the
    transport once, does not sleep, and returns a failure with the
    message of the exception and no status code. *)
Theorem other_exception_not_retried (E : Env)
    (options : KrokiClient.KrokiRequestOptions) (n : Net) (e : JsError) :
  0 < KrokiClient.num_or (KrokiClient.retryCount options) 1 ->
  requestUrl E (calls n) (KrokiClient.postRequestParams options) = Throw e ->
  name e <> "AbortError" ->
  JsString.includes "fetch" (message e) = false ->
  KrokiClient.sendPostRequest E options n
  = (Ok {| KrokiClient.success := false;
           KrokiClient.data := None;
           KrokiClient.error :=
             Some (JsString.or_else (message e) "Unknown error occurred");
           KrokiClient.statusCode := None |},
     {| calls := calls n ++ [KrokiClient.postRequestParams options];
        delays := delays n |}).
Proof.
  intros Hpos Hcall Hname Hmsg.
  destruct (Z.to_nat (KrokiClient.num_or (KrokiClient.retryCount options) 1))
    as [|k] eqn:HK; [lia|].
  unfold KrokiClient.sendPostRequest, KrokiClient.sendRequestWithRetry,
    try_catch, bind, ret.
  now rewrite HK, (retryLoop_rethrow E _ _ _ _ _ _ _ Hcall Hname Hmsg).
Qed.

Lemma other_exception_not_retried_witness :
  KrokiClient.sendPostRequest
    (Script.always (Throw {| name := "TypeError"; message := "Invalid URL" |}))
    (Script.request (Some 3)) no_traffic
  = (Ok {| KrokiClient.success := false;
           KrokiClient.data := None;
           KrokiClient.error := Some "Invalid URL";
           KrokiClient.statusCode := None |},
     {| calls := [KrokiClient.postRequestParams (Script.request (Some 3))];
        delays := [] |}).
Proof.
  apply (other_exception_not_retried
           (Script.always (Throw {| name := "TypeError"; message := "Invalid URL" |}))
           (Script.request (Some 3)) no_traffic
           {| name := "TypeError"; message := "Invalid URL" |});
    [reflexivity | reflexivity | discriminate | reflexivity].
Defined.

(** X6. With a negative [retryCount] the loop body never runs: the
    transport is not called, and the POST request returns the failure
    [Unknown error during request]. A [retryCount] of 0 or none counts as
    1. *)
Theorem negative_retry_count_sends_nothing (E : Env)
    (options : KrokiClient.KrokiRequestOptions) (n : Net) (k : Z) :
  KrokiClient.retryCount options = Some k -> k < 0 ->
  KrokiClient.sendPostRequest E options n
  = (Ok {| KrokiClient.success := false;
           KrokiClient.data := None;
           KrokiClient.error := Some "Unknown error during request";
           KrokiClient.statusCode := None |}, n).
Proof.
  intros Hk Hneg.
  unfold KrokiClient.sendPostRequest, KrokiClient.sendRequestWithRetry,
    try_catch, bind, ret.
  rewrite Hk. unfold KrokiClient.num_or.
  replace (k =? 0) with false by (symmetry; apply Z.eqb_neq; lia).
  replace (Z.to_nat k) with 0%nat by lia. reflexivity.
Qed.

Lemma negative_retry_count_sends_nothing_witness :
  snd (KrokiClient.sendPostRequest
         (Script.always (Script.respond 200 "<svg/>"))
         (Script.request (Some (-1))) no_traffic) = no_traffic.
Proof.
  now rewrite (negative_retry_count_sends_nothing
                 (Script.always (Script.respond 200 "<svg/>"))
                 (Script.request (Some (-1))) no_traffic (-1) eq_refl eq_refl).
Defined.

(** ** One render: transport budget, cache discipline *)

Section RenderMore.

Import DiagramRenderer.

Variable E : Env.

Lemma onNet_inv {A} (m : M Net A) (w w' : World) (r : result A) :
  onNet m w = (r, w') ->
  exists n', m (net w) = (r, n') /\ w' = {| renderer := renderer w; net := n' |}.
Proof.
  unfold onNet. destruct (m (net w)) as [r0 n']. intros [= <- <-].
  now exists n'.
Qed.

Lemma requestWithFallback_calls (ro : KrokiClient.KrokiRequestOptions)
    (w w' : World) (r : result KrokiClient.KrokiResponse) :
  requestWithFallback E ro w = (r, w') ->
  exists i j encodedSource,
    (i <= Z.to_nat (KrokiClient.num_or (KrokiClient.retryCount ro) 1))%nat
    /\ (j <= Z.to_nat (KrokiClient.num_or (KrokiClient.retryCount ro) 1))%nat
    /\ calls (net w') =
       calls (net w)
         ++ repeat (KrokiClient.getRequestParams ro encodedSource) i
         ++ repeat (KrokiClient.postRequestParams ro) j.
Proof.
  unfold requestWithFallback, try_catch, bind.
  destruct (onNet (KrokiClient.sendGetRequest E ro) w) as [rg w1] eqn:Hget.
  apply onNet_inv in Hget as (n1 & Hget & ->).
  destruct (sendGetRequest_calls E ro _ _ _ Hget) as (i & tok & Hi & Hcalls1).
  assert (Hstop : forall x : result KrokiClient.KrokiResponse,
    (x, {| renderer := renderer w; net := n1 |}) = (r, w') ->
    exists i j encodedSource,
      (i <= Z.to_nat (KrokiClient.num_or (KrokiClient.retryCount ro) 1))%nat
      /\ (j <= Z.to_nat (KrokiClient.num_or (KrokiClient.retryCount ro) 1))%nat
      /\ calls (net w') =
         calls (net w)
           ++ repeat (KrokiClient.getRequestParams ro encodedSource) i
           ++ repeat (KrokiClient.postRequestParams ro) j).
  { intros x [= _ <-]. exists i, 0%nat, tok. cbn [net repeat].
    rewrite app_nil_r. repeat split; [exact Hi | lia | exact Hcalls1]. }
  destruct rg as [g|e]; [|apply Hstop].
  destruct (fallbackEligible g); [|apply Hstop].
  destruct (onNet (KrokiClient.sendPostRequest E ro) _) as [rp w2] eqn:Hpost.
  apply onNet_inv in Hpost as (n2 & Hpost & ->). cbn [net renderer] in *.
  destruct (sendPostRequest_calls E ro _ _ _ Hpost) as (j & Hj & Hcalls2).
  intros Hres.
  assert (Hw : w' = {| renderer := renderer w; net := n2 |}).
  { destruct rp; unfold throw in Hres; now injection Hres as _ <-. }
  subst w'. exists i, j, tok. cbn [net].
  rewrite Hcalls2, Hcalls1, <- app_assoc. now repeat split.
Qed.

Lemma fetchAndStore_calls (tSet : Z) (source diagramType : string)
    (options : DiagramRenderOptions) (w w' : World) (r : result string) :
  fetchAndStore E tSet source diagramType options w = (r, w') ->
  exists w1 rr,
    requestWithFallback E (requestOptions source diagramType options) w
      = (rr, w1)
    /\ net w' = net w1.
Proof.
  unfold fetchAndStore, bind.
  destruct (requestWithFallback E _ w) as [[response|e] w1] eqn:Hreq;
    intros Hrun; exists w1; eexists; (split; [reflexivity|]).
  - revert Hrun.
    destruct (KrokiClient.success response);
      destruct (KrokiClient.data response) as [[|c rest]|];
      unfold throw; try (now intros [= _ <-]).
    destruct (cacheEnabled options); unfold cacheSet, ret;
      now intros [= _ <-].
  - now injection Hrun as _ <-.
Qed.

End RenderMore.

(** X7. One render calls the transport at most [2 * K] times, where
    [K = retryCount || 1]: at most [K] times with the GET request, then
    at most [K] times with the POST request, and with no other request. *)
Theorem render_call_budget (E : Env) (tGet tSet : Z) (source diagramType : string)
    (options : DiagramRenderer.DiagramRenderOptions)
    (w w' : DiagramRenderer.World) (r : result string) :
  let ro := DiagramRenderer.requestOptions source diagramType options in
  let K := Z.to_nat (KrokiClient.num_or (DiagramRenderer.retryCount options) 1) in
  DiagramRenderer.renderDiagram E tGet tSet source diagramType options w = (r, w') ->
  exists i j encodedSource,
    (i <= K)%nat /\ (j <= K)%nat
    /\ calls (DiagramRenderer.net w') =
       calls (DiagramRenderer.net w)
         ++ repeat (KrokiClient.getRequestParams ro encodedSource) i
         ++ repeat (KrokiClient.postRequestParams ro) j.
Proof.
  intros ro K. unfold DiagramRenderer.renderDiagram, bind.
  assert (Hfetch : forall w0,
    DiagramRenderer.net w0 = DiagramRenderer.net w ->
    DiagramRenderer.fetchAndStore E tSet source diagramType options w0 = (r, w') ->
    exists i j encodedSource,
      (i <= K)%nat /\ (j <= K)%nat
      /\ calls (DiagramRenderer.net w') =
         calls (DiagramRenderer.net w)
           ++ repeat (KrokiClient.getRequestParams ro encodedSource) i
           ++ repeat (KrokiClient.postRequestParams ro) j).
  { intros w0 Hnet Hrun.
    destruct (fetchAndStore_calls E _ _ _ _ _ _ _ Hrun) as (w1 & rr & Hreq & ->).
    rewrite <- Hnet. exact (requestWithFallback_calls E _ _ _ _ Hreq). }
  assert (Hhit :
    DiagramRenderer.net w' = DiagramRenderer.net w ->
    exists i j encodedSource,
      (i <= K)%nat /\ (j <= K)%nat
      /\ calls (DiagramRenderer.net w') =
         calls (DiagramRenderer.net w)
           ++ repeat (KrokiClient.getRequestParams ro encodedSource) i
           ++ repeat (KrokiClient.postRequestParams ro) j).
  { intros Hsame. exists 0%nat, 0%nat, EmptyString. cbn [repeat].
    rewrite !app_nil_r, Hsame. repeat split; lia. }
  destruct (DiagramRenderer.cacheEnabled options).
  - unfold DiagramRenderer.cacheGet.
    destruct (DiagramCache.get _ _ _ _ _ _) as [[[|c rest]|] c1].
    + apply Hfetch. reflexivity.
    + unfold ret. intros [= _ <-]. apply Hhit. reflexivity.
    + apply Hfetch. reflexivity.
  - unfold ret. apply Hfetch. reflexivity.
Qed.

Lemma render_call_budget_witness :
  exists i j encodedSource,
    (i <= 3)%nat /\ (j <= 3)%nat
    /\ calls (DiagramRenderer.net
         (snd (DiagramRenderer.renderDiagram
                 (Script.always (Script.respond 503 "busy")) 0 1
                 "A->B" "plantuml" (Script.options (Some 3))
                 (Script.world 100 3600000)))) =
       []
         ++ repeat (KrokiClient.getRequestParams (Script.request (Some 3))
                      encodedSource) i
         ++ repeat (KrokiClient.postRequestParams (Script.request (Some 3))) j.
Proof.
  eapply (render_call_budget (Script.always (Script.respond 503 "busy")) 0 1
            "A->B" "plantuml" (Script.options (Some 3))
            (Script.world 100 3600000)).
  apply surjective_pairing.
Defined.

(** X8. With [useCache: false] a render neither reads nor writes the
    cache: whatever the transport does, the renderer is left as it was. *)
Theorem render_without_cache (E : Env) (tGet tSet : Z) (source diagramType : string)
    (options : DiagramRenderer.DiagramRenderOptions)
    (w w' : DiagramRenderer.World) (r : result string) :
  DiagramRenderer.useCache options = Some false ->
  DiagramRenderer.renderDiagram E tGet tSet source diagramType options w = (r, w') ->
  DiagramRenderer.renderer w' = DiagramRenderer.renderer w.
Proof.
  intros Hoff. unfold DiagramRenderer.renderDiagram, bind,
    DiagramRenderer.cacheEnabled. rewrite Hoff. unfold ret.
  unfold DiagramRenderer.fetchAndStore, bind, DiagramRenderer.cacheEnabled.
  rewrite Hoff.
  destruct (DiagramRenderer.requestWithFallback E _ w) as [[response|e] w1] eqn:Hreq;
    apply requestWithFallback_renderer in Hreq.
  - destruct (KrokiClient.success response);
      destruct (KrokiClient.data response) as [[|c rest]|];
      unfold throw, ret; intros [= _ <-]; exact Hreq.
  - intros [= _ <-]. exact Hreq.
Qed.

Lemma render_without_cache_witness :
  let options :=
    {| DiagramRenderer.outputFormat := "svg";
       DiagramRenderer.serverUrl := "https://kroki.io";
       DiagramRenderer.customHeaders := None;
       DiagramRenderer.timeout := None;
       DiagramRenderer.retryCount := None;
       DiagramRenderer.retryDelay := None;
       DiagramRenderer.useCache := Some false;
       DiagramRenderer.debugMode := None |} in
  DiagramRenderer.renderer
    (snd (DiagramRenderer.renderDiagram
            (Script.always (Script.respond 200 "<svg/>")) 0 1
            "A->B" "plantuml" options (Script.world 100 3600000)))
  = DiagramRenderer.renderer (Script.world 100 3600000).
Proof.
  intros options.
  eapply (render_without_cache (Script.always (Script.respond 200 "<svg/>")) 0 1
            "A->B" "plantuml" options (Script.world 100 3600000));
    [reflexivity | apply surjective_pairing].
Defined.

(** X9. A render that throws has stored nothing: the cache is the one
    left by the lookup at the start of the render (which may have deleted
    the expired entry of this very key), and the detector is untouched. *)
Theorem failed_render_not_cached (E : Env) (tGet tSet : Z)
    (source diagramType : string)
    (options : DiagramRenderer.DiagramRenderOptions)
    (w w' : DiagramRenderer.World) (e : JsError) :
  DiagramRenderer.renderDiagram E tGet tSet source diagramType options w
    = (Throw e, w') ->
  DiagramRenderer.renderer w'
  = {| DiagramRenderer.cache :=
         if DiagramRenderer.cacheEnabled options
         then snd (DiagramCache.get tGet
                     (DiagramRenderer.cache (DiagramRenderer.renderer w))
                     source diagramType
                     (DiagramRenderer.outputFormat options) None)
         else DiagramRenderer.cache (DiagramRenderer.renderer w);
       DiagramRenderer.detector :=
         DiagramRenderer.detector (DiagramRenderer.renderer w) |}.
Proof.
  unfold DiagramRenderer.renderDiagram, bind.
  assert (Hfetch : forall w0,
    DiagramRenderer.fetchAndStore E tSet source diagramType options w0
      = (Throw e, w') ->
    DiagramRenderer.renderer w' = DiagramRenderer.renderer w0).
  { intros w0. unfold DiagramRenderer.fetchAndStore, bind.
    destruct (DiagramRenderer.requestWithFallback E _ w0)
      as [[response|e0] w1] eqn:Hreq;
      apply requestWithFallback_renderer in Hreq.
    - destruct (KrokiClient.success response);
        destruct (KrokiClient.data response) as [[|c rest]|];
        unfold throw; try (intros [= _ <-]; exact Hreq).
      destruct (DiagramRenderer.cacheEnabled options);
        unfold DiagramRenderer.cacheSet, ret; discriminate.
    - intros [= _ <-]. exact Hreq. }
  destruct (DiagramRenderer.cacheEnabled options).
  - unfold DiagramRenderer.cacheGet.
    destruct (DiagramCache.get _ _ _ _ _ _) as [[[|c rest]|] c1];
      cbn [snd]; try discriminate;
      intros Hrun; apply Hfetch in Hrun; exact Hrun.
  - unfold ret. intros Hrun. apply Hfetch in Hrun. rewrite Hrun.
    now destruct w as [[c d] n].
Qed.

Lemma failed_render_not_cached_witness :
  DiagramRenderer.renderer
    (snd (DiagramRenderer.renderDiagram
            (Script.always (Script.respond 500 "down")) 0 1
            "A->B" "plantuml" (Script.options None) (Script.world 100 3600000)))
  = DiagramRenderer.renderer (Script.world 100 3600000).
Proof.
  apply (failed_render_not_cached (Script.always (Script.respond 500 "down")) 0 1
           "A->B" "plantuml" (Script.options None) (Script.world 100 3600000)
           _ (mkError "Failed to render diagram: Server error: 500 down")).
  reflexivity.
Defined.

(** ** The cache: round trips, frames, eviction order *)

Section CacheMore.

Import DiagramCache.

Lemma map_get_set_other (key k : string) (e : DiagramCacheEntry) (m : EntryMap) :
  k <> key -> map_get k (map_set key e m) = map_get k m.
Proof.
  intros Hne. induction m as [|[k0 e0] m IH]; simpl.
  - destruct (String.eqb_spec key k); [congruence|reflexivity].
  - destruct (String.eqb_spec k0 key) as [->|Hk]; simpl.
    + destruct (String.eqb_spec key k); [congruence|reflexivity].
    + now rewrite IH.
Qed.

Lemma map_get_In_pair (key : string) (e : DiagramCacheEntry) (m : EntryMap) :
  map_get key m = Some e -> In (key, e) m.
Proof.
  induction m as [|[k0 e0] m IH]; simpl; [discriminate|].
  destruct (String.eqb_spec k0 key) as [->|Hk].
  - intros [= ->]. now left.
  - intros H. right. now apply IH.
Qed.

Lemma NoDup_map_get (key : string) (e : DiagramCacheEntry) (m : EntryMap) :
  List.NoDup (map fst m) -> In (key, e) m -> map_get key m = Some e.
Proof.
  induction m as [|[k0 e0] m IH]; simpl; [tauto|].
  intros Hnd. apply List.NoDup_cons_iff in Hnd as [Hk0 Hnd].
  intros [[= -> ->]|Hin].
  - now rewrite String.eqb_refl.
  - destruct (String.eqb_spec k0 key) as [->|Hk]; [|now apply IH].
    exfalso. apply Hk0. apply (in_map fst) in Hin. exact Hin.
Qed.

Lemma deleteAll_get_none (key : string) (rem : EntryMap) :
  forall m, map_get key m = None -> map_get key (deleteAll rem m) = None.
Proof.
  unfold deleteAll.
  induction rem as [|[k e] rem IH]; intros m Hm; simpl; [exact Hm|].
  apply IH. destruct (String.eqb_spec key k) as [->|Hne].
  - apply map_get_delete_same.
  - now rewrite map_get_delete_other.
Qed.

Lemma deleteAll_get_in (key : string) (rem : EntryMap) :
  forall m, In key (map fst rem) -> map_get key (deleteAll rem m) = None.
Proof.
  induction rem as [|[k e] rem IH]; intros m Hin; [destruct Hin|].
  change (deleteAll ((k, e) :: rem) m) with (deleteAll rem (map_delete k m)).
  destruct (String.eqb_spec key k) as [->|Hne].
  - apply deleteAll_get_none, map_get_delete_same.
  - apply IH. destruct Hin as [Heq|Hin]; [simpl in Heq; congruence|exact Hin].
Qed.

(** Sorting by time stamp does sort. *)
Lemma insertByTimestamp_Forall (P : string * DiagramCacheEntry -> Prop)
    (x : string * DiagramCacheEntry) (l : EntryMap) :
  P x -> Forall P l -> Forall P (insertByTimestamp x l).
Proof.
  intros Hx Hl. induction Hl as [|y l Hy Hl IH]; simpl.
  - now repeat constructor.
  - destruct (_ <=? _); repeat constructor; assumption.
Qed.

Lemma insertByTimestamp_sorted (x : string * DiagramCacheEntry) (l : EntryMap) :
  StronglySorted older l -> StronglySorted older (insertByTimestamp x l).
Proof.
  induction 1 as [|y l Hsorted IH Hall]; simpl.
  - repeat constructor.
  - destruct (Z.leb_spec (timestamp (snd x)) (timestamp (snd y))) as [Hle|Hgt].
    + constructor; [now constructor|].
      constructor; [exact Hle|].
      eapply List.Forall_impl; [|exact Hall].
      intros z Hz. unfold older in *. lia.
    + constructor; [exact IH|].
      apply insertByTimestamp_Forall; [unfold older; lia | exact Hall].
Qed.

Lemma sortByTimestamp_sorted (l : EntryMap) :
  StronglySorted older (sortByTimestamp l).
Proof.
  induction l as [|x l IH]; simpl; [constructor|].
  now apply insertByTimestamp_sorted.
Qed.

Lemma sorted_app_older (l1 l2 : EntryMap) :
  StronglySorted older (l1 ++ l2) ->
  forall x y, In x l1 -> In y l2 -> older x y.
Proof.
  induction l1 as [|a l1 IH]; simpl; intros Hs x y Hx Hy; [destruct Hx|].
  apply StronglySorted_inv in Hs as [Hs Hall].
  destruct Hx as [<-|Hx]; [|now apply IH].
  rewrite List.Forall_forall in Hall. apply Hall, in_or_app. now right.
Qed.

End CacheMore.

(** X10. Round trip: while the cache holds fewer entries than its
    limit, a [get] that follows a [set] of the same source, type, format
    and file within the age bound returns the content just stored, and
    changes nothing. *)
Theorem get_after_set (now later : Z) (c : DiagramCache.t)
    (source content diagramType outputFormat : string) (file : option string) :
  let c' := DiagramCache.set now c source content diagramType outputFormat file in
  DiagramCache.size c < DiagramCache.maxCacheSize c ->
  later - now <= DiagramCache.maxCacheAge c ->
  DiagramCache.get later c' source diagramType outputFormat file
  = (Some content, c').
Proof.
  intros c' Hroom Hage. subst c'. unfold DiagramCache.set, DiagramCache.size in *.
  set (key := DiagramCache.generateKey source diagramType outputFormat file).
  set (entry := {| DiagramCache.source := source |}).
  pose proof (map_set_length key entry (DiagramCache.cache c)) as Hlen.
  cbn [DiagramCache.with_cache DiagramCache.cache DiagramCache.maxCacheSize].
  match goal with
  | |- context [?a >? ?b] => destruct (Z.gtb_spec a b) as [Hover|_]; [lia|]
  end.
  unfold DiagramCache.get. fold key.
  cbn [DiagramCache.with_cache DiagramCache.cache DiagramCache.maxCacheAge].
  rewrite map_get_set_same. cbn [DiagramCache.timestamp entry].
  replace (later - now <=? DiagramCache.maxCacheAge c) with true
    by (symmetry; apply Z.leb_le; lia).
  reflexivity.
Qed.

Lemma get_after_set_witness :
  fst (DiagramCache.get 10
         (DiagramCache.set 0 (DiagramCache.new 2 3600000)
            "A->B" "<svg/>" "plantuml" "svg" None)
         "A->B" "plantuml" "svg" None) = Some "<svg/>".
Proof.
  now rewrite (get_after_set 0 10 (DiagramCache.new 2 3600000)
                 "A->B" "<svg/>" "plantuml" "svg" None eq_refl
                 ltac:(discriminate)).
Defined.

(** X11. While the cache holds fewer entries than its limit, a [set]
    leaves the entries stored under every other key as they were. *)
Theorem set_keeps_other_keys (now : Z) (c : DiagramCache.t)
    (source content diagramType outputFormat : string) (file : option string)
    (other : string) :
  DiagramCache.size c < DiagramCache.maxCacheSize c ->
  other <> DiagramCache.generateKey source diagramType outputFormat file ->
  DiagramCache.map_get other
    (DiagramCache.cache
       (DiagramCache.set now c source content diagramType outputFormat file))
  = DiagramCache.map_get other (DiagramCache.cache c).
Proof.
  intros Hroom Hother. unfold DiagramCache.set, DiagramCache.size in *.
  set (key := DiagramCache.generateKey source diagramType outputFormat file) in *.
  set (entry := {| DiagramCache.source := source |}).
  pose proof (map_set_length key entry (DiagramCache.cache c)) as Hlen.
  cbn [DiagramCache.with_cache DiagramCache.cache DiagramCache.maxCacheSize].
  match goal with
  | |- context [?a >? ?b] => destruct (Z.gtb_spec a b) as [Hover|_]; [lia|]
  end.
  cbn [DiagramCache.with_cache DiagramCache.cache].
  now apply map_get_set_other.
Qed.

Lemma set_keeps_other_keys_witness :
  let c := DiagramCache.set 0 (DiagramCache.new 5 3600000)
             "A->B" "<svg/>" "plantuml" "svg" None in
  DiagramCache.map_get "plantuml:svg:A->B"
    (DiagramCache.cache
       (DiagramCache.set 1 c "C->D" "<svg></svg>" "plantuml" "svg" None))
  = DiagramCache.map_get "plantuml:svg:A->B" (DiagramCache.cache c).
Proof.
  intros c.
  apply (set_keeps_other_keys 1 c "C->D" "<svg></svg>" "plantuml" "svg" None
           "plantuml:svg:A->B"); [reflexivity | discriminate].
Defined.

(** X12. A [get] touches at most the entry it looks up: the entries
    under every other key, and the two limits, are as before. *)
Theorem get_keeps_other_keys (now : Z) (c : DiagramCache.t)
    (source diagramType outputFormat : string) (file : option string)
    (other : string) :
  let c' := snd (DiagramCache.get now c source diagramType outputFormat file) in
  other <> DiagramCache.generateKey source diagramType outputFormat file ->
  DiagramCache.map_get other (DiagramCache.cache c')
  = DiagramCache.map_get other (DiagramCache.cache c)
  /\ DiagramCache.maxCacheSize c' = DiagramCache.maxCacheSize c
  /\ DiagramCache.maxCacheAge c' = DiagramCache.maxCacheAge c.
Proof.
  intros c' Hother. subst c'. unfold DiagramCache.get.
  destruct (DiagramCache.map_get _ (DiagramCache.cache c)) as [entry|];
    [|now repeat split].
  destruct (_ <=? _); [now repeat split|].
  cbn [snd DiagramCache.with_cache DiagramCache.cache
       DiagramCache.maxCacheSize DiagramCache.maxCacheAge].
  repeat split. now apply map_get_delete_other.
Qed.

Lemma get_keeps_other_keys_witness :
  let c := DiagramCache.set 0 (DiagramCache.new 5 10)
             "A->B" "<svg/>" "plantuml" "svg" None in
  DiagramCache.map_get "plantuml:svg:A->B"
    (DiagramCache.cache (snd (DiagramCache.get 99 c "C->D" "plantuml" "svg" None)))
  = DiagramCache.map_get "plantuml:svg:A->B" (DiagramCache.cache c).
Proof.
  intros c.
  apply (get_keeps_other_keys 99 c "C->D" "plantuml" "svg" None
           "plantuml:svg:A->B").
  discriminate.
Defined.

(** X13. Eviction is by age: in a cache with distinct keys, no entry
    that [pruneCache] removes is newer than an entry it keeps. *)
Theorem pruneCache_evicts_oldest (c : DiagramCache.t) (k k' : string)
    (e e' : DiagramCache.DiagramCacheEntry) :
  DiagramCache.well_formed c ->
  DiagramCache.map_get k (DiagramCache.cache c) = Some e ->
  DiagramCache.map_get k (DiagramCache.cache (DiagramCache.pruneCache c)) = None ->
  DiagramCache.map_get k' (DiagramCache.cache (DiagramCache.pruneCache c))
    = Some e' ->
  DiagramCache.timestamp e <= DiagramCache.timestamp e'.
Proof.
  intros Hwf Hk Hgone Hkept.
  unfold DiagramCache.pruneCache, DiagramCache.well_formed in *.
  cbn [DiagramCache.with_cache DiagramCache.cache] in *.
  unfold DiagramCache.slice0 in *.
  remember (DiagramCache.cache c) as m eqn:Hm.
  remember (DiagramCache.sortByTimestamp m) as sorted eqn:Hsorted.
  remember (Z.to_nat _) as j eqn:Hj. clear Hj Hm.
  remember (firstn j sorted) as rem eqn:Hrem.
  assert (Hin : In k (map fst rem)).
  { destruct (in_dec String.string_dec k (map fst rem)) as [Hin|Hout];
      [exact Hin|].
    rewrite (deleteAll_get_other k rem m Hout), Hk in Hgone. discriminate. }
  assert (Hout : ~ In k' (map fst rem)).
  { intros Hin'. rewrite (deleteAll_get_in k' rem m Hin') in Hkept. discriminate. }
  rewrite (deleteAll_get_other k' rem m Hout) in Hkept.
  assert (Hperm : Permutation m sorted)
    by (subst sorted; apply sortByTimestamp_perm).
  apply in_map_iff in Hin as ([k0 e0] & Hfst & Hin). simpl in Hfst. subst k0.
  assert (He0 : e0 = e).
  { assert (Hin_m : In (k, e0) m).
    { eapply Permutation_in; [apply Permutation_sym, Hperm|].
      rewrite <- (firstn_skipn j sorted), <- Hrem. apply in_or_app. now left. }
    apply (NoDup_map_get _ _ _ Hwf) in Hin_m. rewrite Hk in Hin_m.
    now injection Hin_m. }
  subst e0.
  assert (Hrest : In (k', e') (skipn j sorted)).
  { apply map_get_In_pair in Hkept.
    apply (Permutation_in _ Hperm) in Hkept.
    rewrite <- (firstn_skipn j sorted), <- Hrem in Hkept.
    apply in_app_or in Hkept as [Hfirst|Hrest]; [|exact Hrest].
    exfalso. apply Hout. apply (in_map fst) in Hfirst. exact Hfirst. }
  assert (Hs : StronglySorted DiagramCache.older (rem ++ skipn j sorted)).
  { rewrite Hrem, firstn_skipn, Hsorted. apply sortByTimestamp_sorted. }
  exact (sorted_app_older _ _ Hs _ _ Hin Hrest).
Qed.

Lemma pruneCache_evicts_oldest_witness :
  let c := {| DiagramCache.cache :=
                DiagramCache.cache
                  (fold_left DiagramCache.apply_set
                     [Script.call 7 "a"; Script.call 3 "b"; Script.call 5 "c";
                      Script.call 9 "d"; Script.call 4 "e"]
                     (DiagramCache.new 100 3600000));
              DiagramCache.maxCacheSize := 5;
              DiagramCache.maxCacheAge := 3600000 |} in
  map fst (DiagramCache.cache (DiagramCache.pruneCache c))
  = ["plantuml:svg:a"; "plantuml:svg:c"; "plantuml:svg:d"; "plantuml:svg:e"]
  /\ 3 <= 4.
Proof.
  intros c. split; [reflexivity|].
  apply (pruneCache_evicts_oldest c "plantuml:svg:b" "plantuml:svg:e"
           {| DiagramCache.source := "b";
              DiagramCache.renderedContent := "<svg/>";
              DiagramCache.timestamp := 3;
              DiagramCache.diagramType := "plantuml";
              DiagramCache.outputFormat := "svg" |}
           {| DiagramCache.source := "e";
              DiagramCache.renderedContent := "<svg/>";
              DiagramCache.timestamp := 4;
              DiagramCache.diagramType := "plantuml";
              DiagramCache.outputFormat := "svg" |});
    try reflexivity.
  unfold DiagramCache.well_formed. simpl.
  repeat (constructor; [simpl; intuition discriminate|]). constructor.
Defined.

Lemma pruneCache_size (c : DiagramCache.t) :
  DiagramCache.well_formed c ->
  0 <= DiagramCache.maxCacheSize c / 5 <= DiagramCache.size c ->
  DiagramCache.size (DiagramCache.pruneCache c)
  = DiagramCache.size c - DiagramCache.maxCacheSize c / 5.
Proof.
  intros Hwf Hq. unfold DiagramCache.size in *.
  unfold DiagramCache.pruneCache. cbn [DiagramCache.with_cache DiagramCache.cache].
  set (N := DiagramCache.maxCacheSize c) in *.
  unfold DiagramCache.slice0. rewrite sorted_length.
  replace (N / 5 <? 0) with false by (symmetry; apply Z.ltb_ge; lia).
  rewrite Z.min_l by lia.
  set (rem := firstn (Z.to_nat (N / 5))
                (DiagramCache.sortByTimestamp (DiagramCache.cache c))).
  assert (Hrem : length rem = Z.to_nat (N / 5)).
  { unfold rem. rewrite length_firstn, sorted_length. lia. }
  pose proof (deleteAll_length rem (DiagramCache.cache c) Hwf) as Hlen.
  assert (Hsum : (length (DiagramCache.deleteAll rem (DiagramCache.cache c))
                  + length rem = length (DiagramCache.cache c))%nat).
  { apply Hlen.
    - apply firstn_keys_NoDup, sorted_keys_NoDup, Hwf.
    - intros k Hk. apply sorted_keys_incl. eapply firstn_keys_incl, Hk. }
  lia.
Qed.

(** X14. In a full cache with distinct keys and a limit [N] of 5 or
    more, a [set] under a new key evicts exactly [floor(N / 5)] entries:
    [N + 1 - floor(N / 5)] entries are left. *)
Theorem set_overflow_evicts_a_fifth (now : Z) (c : DiagramCache.t)
    (source content diagramType outputFormat : string) (file : option string) :
  let N := DiagramCache.maxCacheSize c in
  5 <= N ->
  DiagramCache.well_formed c ->
  DiagramCache.size c = N ->
  DiagramCache.map_get
    (DiagramCache.generateKey source diagramType outputFormat file)
    (DiagramCache.cache c) = None ->
  DiagramCache.size
    (DiagramCache.set now c source content diagramType outputFormat file)
  = N + 1 - N / 5.
Proof.
  intros N H5 Hwf Hfull Hfresh. unfold DiagramCache.set.
  set (key := DiagramCache.generateKey source diagramType outputFormat file) in *.
  set (entry := {| DiagramCache.source := source |}).
  set (c1 := DiagramCache.with_cache c _).
  assert (Hsize1 : DiagramCache.size c1 = N + 1).
  { unfold DiagramCache.size in *. unfold c1.
    cbn [DiagramCache.with_cache DiagramCache.cache].
    rewrite (map_set_fresh _ _ _ Hfresh), length_app. simpl. lia. }
  assert (Hwf1 : DiagramCache.well_formed c1) by (apply map_set_NoDup, Hwf).
  unfold DiagramCache.size in Hsize1.
  change (DiagramCache.maxCacheSize c1) with N.
  destruct (Z.gtb_spec (Z.of_nat (length (DiagramCache.cache c1))) N)
    as [_|Hno]; [|lia].
  rewrite pruneCache_size; [|exact Hwf1|].
  - unfold DiagramCache.size. change (DiagramCache.maxCacheSize c1) with N. lia.
  - unfold DiagramCache.size. change (DiagramCache.maxCacheSize c1) with N.
    pose proof (Z.div_mod N 5 ltac:(lia)).
    pose proof (Z.mod_pos_bound N 5 ltac:(lia)). lia.
Qed.

Lemma set_overflow_evicts_a_fifth_witness :
  DiagramCache.size
    (DiagramCache.set 11
       (fold_left DiagramCache.apply_set
          [Script.call 1 "a"; Script.call 2 "b"; Script.call 3 "c";
           Script.call 4 "d"; Script.call 5 "e"; Script.call 6 "f";
           Script.call 7 "g"; Script.call 8 "h"; Script.call 9 "i";
           Script.call 10 "j"]
          (DiagramCache.new 10 3600000))
       "k" "<svg/>" "plantuml" "svg" None)
  = 10 + 1 - 10 / 5.
Proof.
  apply (set_overflow_evicts_a_fifth 11
           (fold_left DiagramCache.apply_set
              [Script.call 1 "a"; Script.call 2 "b"; Script.call 3 "c";
               Script.call 4 "d"; Script.call 5 "e"; Script.call 6 "f";
               Script.call 7 "g"; Script.call 8 "h"; Script.call 9 "i";
               Script.call 10 "j"]
              (DiagramCache.new 10 3600000))
           "k" "<svg/>" "plantuml" "svg" None);
    try reflexivity; [discriminate|].
  unfold DiagramCache.well_formed. simpl.
  repeat (constructor; [simpl; intuition discriminate|]). constructor.
Defined.

Section ExpiryMore.

Import DiagramCache.

Lemma map_get_filter (keep : DiagramCacheEntry -> bool) (key : string)
    (m : EntryMap) :
  List.NoDup (map fst m) ->
  map_get key (List.filter (fun '(_, entry) => keep entry) m)
  = match map_get key m with
    | Some entry => if keep entry then Some entry else None
    | None => None
    end.
Proof.
  induction m as [|[k0 e0] m IH]; simpl; [reflexivity|].
  intros Hnd. apply List.NoDup_cons_iff in Hnd as [Hk0 Hnd].
  destruct (String.eqb_spec k0 key) as [->|Hk].
  - destruct (keep e0); simpl.
    + now rewrite String.eqb_refl.
    + rewrite (IH Hnd), (map_get_notin _ _ Hk0). reflexivity.
  - destruct (keep e0); simpl.
    + destruct (String.eqb_spec k0 key); [congruence|]. now apply IH.
    + now apply IH.
Qed.

End ExpiryMore.

(** X15. [pruneExpiredEntries] leaves exactly the entries that are not
    older than the maximum age: every entry left is that fresh, and in a
    cache with distinct keys every [get] at the same time answers as it
    would have without the sweep. *)
Theorem pruneExpiredEntries_sound (now : Z) (c : DiagramCache.t) :
  let c' := DiagramCache.pruneExpiredEntries now c in
  Forall (fun x => now - DiagramCache.timestamp (snd x)
                   <= DiagramCache.maxCacheAge c)
    (DiagramCache.cache c')
  /\ DiagramCache.size c' <= DiagramCache.size c
  /\ (DiagramCache.well_formed c ->
      forall source diagramType outputFormat file,
        fst (DiagramCache.get now c' source diagramType outputFormat file)
        = fst (DiagramCache.get now c source diagramType outputFormat file)).
Proof.
  intros c'. subst c'. unfold DiagramCache.pruneExpiredEntries.
  cbn [DiagramCache.with_cache DiagramCache.cache]. split; [|split].
  - apply List.Forall_forall. intros [k e] Hin.
    apply filter_In in Hin as [_ Hkeep]. apply negb_true_iff in Hkeep.
    simpl. destruct (Z.gtb_spec (now - DiagramCache.timestamp e)
                       (DiagramCache.maxCacheAge c)); [discriminate|lia].
  - unfold DiagramCache.size.
    cbn [DiagramCache.with_cache DiagramCache.cache].
    pose proof (filter_length_le
                  (fun '(_, entry) =>
                     negb (now - DiagramCache.timestamp entry
                           >? DiagramCache.maxCacheAge c))
                  (DiagramCache.cache c)). lia.
  - intros Hwf source diagramType outputFormat file. unfold DiagramCache.get.
    cbn [DiagramCache.with_cache DiagramCache.cache DiagramCache.maxCacheAge].
    rewrite (map_get_filter
               (fun entry => negb (now - DiagramCache.timestamp entry
                                   >? DiagramCache.maxCacheAge c)) _ _ Hwf).
    destruct (DiagramCache.map_get _ (DiagramCache.cache c)) as [entry|];
      [|reflexivity].
    destruct (Z.gtb_spec (now - DiagramCache.timestamp entry)
                (DiagramCache.maxCacheAge c)) as [Hold|Hfresh]; simpl.
    + replace (_ <=? _) with false by (symmetry; apply Z.leb_gt; lia).
      reflexivity.
    + replace (_ <=? _) with true by (symmetry; apply Z.leb_le; lia).
      reflexivity.
Qed.

Lemma pruneExpiredEntries_sound_witness :
  let c := fold_left DiagramCache.apply_set
             [Script.call 1 "a"; Script.call 50 "b"]
             (DiagramCache.new 100 10) in
  map fst (DiagramCache.cache (DiagramCache.pruneExpiredEntries 55 c))
  = ["plantuml:svg:b"]
  /\ fst (DiagramCache.get 55 (DiagramCache.pruneExpiredEntries 55 c)
            "a" "plantuml" "svg" None)
     = fst (DiagramCache.get 55 c "a" "plantuml" "svg" None).
Proof.
  intros c. split; [reflexivity|].
  apply (proj2 (proj2 (pruneExpiredEntries_sound 55 c))).
  unfold DiagramCache.well_formed. simpl.
  repeat (constructor; [simpl; intuition discriminate|]). constructor.
Defined.

(** X16. [remove] answers whether the key was there; afterwards the key
    is absent, and in a cache with distinct keys the size has gone down
    by one exactly when the answer is [true]. *)
Theorem remove_spec (c : DiagramCache.t)
    (source diagramType outputFormat : string) (file : option string) :
  let key := DiagramCache.generateKey source diagramType outputFormat file in
  let removed := fst (DiagramCache.remove c source diagramType outputFormat file) in
  let c' := snd (DiagramCache.remove c source diagramType outputFormat file) in
  (removed = true <-> DiagramCache.map_get key (DiagramCache.cache c) <> None)
  /\ DiagramCache.map_get key (DiagramCache.cache c') = None
  /\ (DiagramCache.well_formed c ->
      DiagramCache.size c' = DiagramCache.size c - (if removed then 1 else 0)).
Proof.
  intros key removed c'. subst removed c'. unfold DiagramCache.remove. fold key.
  cbn [fst snd DiagramCache.with_cache DiagramCache.cache]. split; [|split].
  - rewrite bool_decide_eq_true.
    destruct (DiagramCache.map_get key (DiagramCache.cache c)) as [e|].
    + split; [discriminate | intros _; now exists e].
    + split; [intros [e He]; discriminate | congruence].
  - apply map_get_delete_same.
  - intros Hwf. unfold DiagramCache.size.
    cbn [DiagramCache.with_cache DiagramCache.cache].
    destruct (DiagramCache.map_get key (DiagramCache.cache c)) as [e|] eqn:Hget.
    + rewrite bool_decide_eq_true_2 by (now exists e).
      pose proof (map_delete_length key _ e Hwf Hget). lia.
    + rewrite bool_decide_eq_false_2 by (intros [e He]; discriminate).
      rewrite map_delete_notin by (now apply map_get_None_notin). lia.
Qed.

Lemma remove_spec_witness :
  let c := fold_left DiagramCache.apply_set
             [Script.call 1 "a"; Script.call 2 "b"]
             (DiagramCache.new 100 3600000) in
  DiagramCache.size (snd (DiagramCache.remove c "a" "plantuml" "svg" None))
  = DiagramCache.size c
    - (if fst (DiagramCache.remove c "a" "plantuml" "svg" None) then 1 else 0).
Proof.
  intros c.
  apply (proj2 (proj2 (remove_spec c "a" "plantuml" "svg" None))).
  unfold DiagramCache.well_formed. simpl.
  repeat (constructor; [simpl; intuition discriminate|]). constructor.
Defined.

Section KeyFacts.

Import JsString.

Lemma split_at_first_colon (a a' r r' : string) :
  has_char ":"%char a = false -> has_char ":"%char a' = false ->
  a +:+ ":" +:+ r = a' +:+ ":" +:+ r' -> a = a' /\ r = r'.
Proof.
  revert a'. induction a as [|c a IH]; intros [|c' a'] Ha Ha' Heq.
  - change (String ":" r = String ":" r') in Heq.
    injection Heq as Heq. now split.
  - exfalso. simpl in Ha'. apply orb_false_iff in Ha' as [Hc' _].
    change (String ":" r = String c' (a' +:+ ":" +:+ r')) in Heq.
    injection Heq as <- _. discriminate.
  - exfalso. simpl in Ha. apply orb_false_iff in Ha as [Hc _].
    change (String c (a +:+ ":" +:+ r) = String ":" r') in Heq.
    injection Heq as -> _. discriminate.
  - simpl in Ha, Ha'.
    apply orb_false_iff in Ha as [_ Ha]. apply orb_false_iff in Ha' as [_ Ha'].
    change (String c (a +:+ ":" +:+ r) = String c' (a' +:+ ":" +:+ r')) in Heq.
    injection Heq as -> Heq.
    destruct (IH a' Ha Ha' Heq) as [-> ->]. now split.
Qed.

End KeyFacts.

(** X17. Cache keys of requests without file separate the requests:
    when neither the diagram types nor the output formats hold a colon,
    two requests with the same key have the same source, type and
    format. *)
Theorem generateKey_injective
    (source diagramType outputFormat source' diagramType' outputFormat' : string) :
  JsString.has_char ":"%char diagramType = false ->
  JsString.has_char ":"%char outputFormat = false ->
  JsString.has_char ":"%char diagramType' = false ->
  JsString.has_char ":"%char outputFormat' = false ->
  DiagramCache.generateKey source diagramType outputFormat None
  = DiagramCache.generateKey source' diagramType' outputFormat' None ->
  source = source' /\ diagramType = diagramType' /\ outputFormat = outputFormat'.
Proof.
  intros Ht Hf Ht' Hf'. unfold DiagramCache.generateKey. intros Heq.
  apply split_at_first_colon in Heq as [-> Heq]; [|assumption..].
  apply split_at_first_colon in Heq as [-> ->]; [|assumption..].
  now repeat split.
Qed.

Lemma generateKey_injective_witness :
  "A->B" = "A->B" /\ "plantuml" = "plantuml" /\ "svg" = "svg".
Proof.
  apply (generateKey_injective "A->B" "plantuml" "svg" "A->B" "plantuml" "svg");
    reflexivity.
Defined.

(** A colon in the type or the format does make different requests
    share a key. *)
Example generateKey_collision :
  DiagramCache.generateKey "A->B" "c4" "plantuml:svg" None
  = DiagramCache.generateKey "A->B" "c4:plantuml" "svg" None.
Proof. reflexivity. Qed.

(** ** The alias map *)

Section AliasFacts.

Import DiagramDetector.

Lemma buildAliasMap_fold (diagramTypes : list (string * list string)) :
  buildAliasMap diagramTypes = fold_left registerEntry diagramTypes ∅.
Proof. reflexivity. Qed.

Lemma aliases_lookup (t : string) (aliases : list string) (k : string) :
  forall m : gmap string string,
    fold_left (fun m alias => <[ alias := t ]> m) aliases m !! k
    = if in_dec String.string_dec k aliases then Some t else m !! k.
Proof.
  induction aliases as [|a aliases IH]; intros m; simpl; [reflexivity|].
  rewrite IH. destruct (in_dec String.string_dec k aliases) as [Hin|Hout].
  - destruct (String.string_dec a k); reflexivity.
  - destruct (String.string_dec a k) as [->|Hne].
    + apply lookup_insert_eq.
    + now apply lookup_insert_ne.
Qed.

Lemma registerEntry_lookup (m : gmap string string) (t : string)
    (aliases : list string) (k : string) :
  registerEntry m (t, aliases) !! k
  = if in_dec String.string_dec k (t :: aliases) then Some t else m !! k.
Proof.
  unfold registerEntry. rewrite aliases_lookup. simpl.
  destruct (in_dec String.string_dec k aliases) as [Hin|Hout].
  - destruct (String.string_dec t k); reflexivity.
  - destruct (String.string_dec t k) as [->|Hne].
    + apply lookup_insert_eq.
    + now apply lookup_insert_ne.
Qed.

Lemma fold_register_sound (diagramTypes : list (string * list string))
    (k v : string) :
  forall m : gmap string string,
    fold_left registerEntry diagramTypes m !! k = Some v ->
    m !! k = Some v
    \/ exists aliases, In (v, aliases) diagramTypes /\ In k (v :: aliases).
Proof.
  induction diagramTypes as [|[t aliases] rest IH]; intros m; cbn [fold_left].
  - now left.
  - intros H. apply IH in H as [H|(al & Hin & Hk)].
    + rewrite registerEntry_lookup in H.
      destruct (in_dec String.string_dec k (t :: aliases)) as [Hin|Hout].
      * injection H as <-. right. exists aliases. split; [now left|exact Hin].
      * now left.
    + right. exists al. split; [now right|exact Hk].
Qed.

Lemma fold_register_unclaimed (diagramTypes : list (string * list string))
    (k : string) :
  Forall (fun entry => ~ In k (fst entry :: snd entry)) diagramTypes ->
  forall m : gmap string string,
    fold_left registerEntry diagramTypes m !! k = m !! k.
Proof.
  induction 1 as [|[t aliases] rest Hout _ IH]; intros m; cbn [fold_left];
    [reflexivity|].
  rewrite IH, registerEntry_lookup.
  destruct (in_dec String.string_dec k (t :: aliases)); [|reflexivity].
  now destruct Hout.
Qed.

End AliasFacts.

Lemma aliasMap_sound (diagramTypes : list (string * list string))
    (language diagramType : string) :
  DiagramDetector.buildAliasMap diagramTypes !! language = Some diagramType ->
  exists aliases,
    In (diagramType, aliases) diagramTypes
    /\ In language (diagramType :: aliases).
Proof.
  rewrite buildAliasMap_fold. intros Hlook.
  apply fold_register_sound in Hlook as [Hempty|Hfound]; [|exact Hfound].
  now rewrite lookup_empty in Hempty.
Qed.

(** X18. The resolver only answers with registered types: when a
    detector built from a table resolves a tag to a type, the table has
    an entry for that type, and the tag is the name of the type or one of
    the aliases of that entry. *)
Theorem detectDiagramType_sound (diagramTypes : list (string * list string))
    (language diagramType : string) :
  DiagramDetector.detectDiagramType (DiagramDetector.new diagramTypes) language
    = Some diagramType ->
  exists aliases,
    In (diagramType, aliases) diagramTypes
    /\ In language (diagramType :: aliases).
Proof.
  unfold DiagramDetector.detectDiagramType, DiagramDetector.new.
  cbn [DiagramDetector.aliasMap].
  destruct (DiagramDetector.buildAliasMap diagramTypes !! language)
    as [[|c v]|] eqn:Hlook; try discriminate.
  intros [= <-]. exact (aliasMap_sound _ _ _ Hlook).
Qed.

Lemma detectDiagramType_sound_witness :
  exists aliases,
    In ("plantuml", aliases) [("mermaid", []); ("plantuml", ["puml"; "uml"])]
    /\ In "uml" ("plantuml" :: aliases).
Proof.
  apply (detectDiagramType_sound
           [("mermaid", []); ("plantuml", ["puml"; "uml"])] "uml" "plantuml").
  reflexivity.
Defined.

(** X19. Every tag of the table resolves, and the last entry that
    claims a tag wins: a tag that is the name or an alias of an entry
    with a non-empty name, and that no later entry claims, resolves to
    the name of that entry, whatever the earlier entries say. *)
Theorem detectDiagramType_last_wins
    (before after : list (string * list string))
    (diagramType : string) (aliases : list string) (language : string) :
  diagramType <> EmptyString ->
  In language (diagramType :: aliases) ->
  Forall (fun entry => ~ In language (fst entry :: snd entry)) after ->
  DiagramDetector.detectDiagramType
    (DiagramDetector.new (before ++ (diagramType, aliases) :: after)) language
  = Some diagramType.
Proof.
  intros Hname Hin Hafter.
  unfold DiagramDetector.detectDiagramType, DiagramDetector.new.
  cbn [DiagramDetector.aliasMap].
  rewrite buildAliasMap_fold, fold_left_app. cbn [fold_left].
  rewrite (fold_register_unclaimed after language Hafter),
    registerEntry_lookup.
  destruct (in_dec String.string_dec language (diagramType :: aliases));
    [|contradiction].
  now destruct diagramType.
Qed.

Lemma detectDiagramType_last_wins_witness :
  DiagramDetector.detectDiagramType
    (DiagramDetector.new
       ([("plantuml", ["uml"])] ++ ("nomnoml", ["uml"]) :: [("mermaid", [])]))
    "uml"
  = Some "nomnoml".
Proof.
  apply (detectDiagramType_last_wins [("plantuml", ["uml"])] [("mermaid", [])]
           "nomnoml" ["uml"] "uml").
  - discriminate.
  - right. now left.
  - repeat constructor. simpl. intuition discriminate.
Defined.

Section OptionFacts.

Import JsString DiagramDetector.

Lemma has_char_app (x : ascii) (s t : string) :
  has_char x (s +:+ t) = has_char x s || has_char x t.
Proof.
  induction s as [|c s IH]; simpl; [reflexivity|].
  change (has_char x (String c (s +:+ t))
          = (Ascii.eqb c x || has_char x s) || has_char x t).
  simpl. now rewrite IH, orb_assoc.
Qed.

Lemma split_at_sep (sep : ascii) (s t : string) :
  has_char sep s = false ->
  split sep (s +:+ String sep t) = s :: split sep t.
Proof.
  induction s as [|c s IH]; intros Hs.
  - change (split sep (String sep t) = EmptyString :: split sep t).
    simpl. now rewrite Ascii.eqb_refl.
  - simpl in Hs. apply orb_false_iff in Hs as [Hc Hs].
    change (split sep (String c (s +:+ String sep t))
            = String c s :: split sep t).
    simpl. now rewrite Hc, (IH Hs).
Qed.

(** A pair [key:value] sets [key] to [value], both trimmed; it is
    skipped when either is empty after trimming. *)
Lemma addPair_key_value (options : gmap string string) (key value : string) :
  has_char ":"%char key = false -> has_char ":"%char value = false ->
  addPair options (key +:+ ":" +:+ value)
  = if String.eqb (trim key) EmptyString || String.eqb (trim value) EmptyString
    then options
    else setOption options (trim key) (trim value).
Proof.
  intros Hk Hv. unfold addPair.
  change (key +:+ ":" +:+ value) with (key +:+ String ":" value).
  rewrite (split_at_sep _ _ _ Hk), (split_single _ _ Hv). cbn [map].
  destruct (trim key) as [|a k']; [reflexivity|].
  now destruct (trim value).
Qed.

End OptionFacts.

(** The characters an option key or value may hold for the pair to be
    read as one pair. *)
Lemma plain_text_facts (s : string) :
  JsString.all_chars
    (fun c => negb (JsString.is_line_terminator c)
              && negb (Ascii.eqb c ":"%char) && negb (Ascii.eqb c ","%char))
    s = true ->
  JsString.has_char ":"%char s = false
  /\ JsString.has_char ","%char s = false
  /\ JsString.all_chars (fun c => negb (JsString.is_line_terminator c)) s = true.
Proof.
  induction s as [|c s IH]; simpl; [now repeat split|].
  intros H. apply andb_true_iff in H as [Hc Hs].
  destruct (IH Hs) as (-> & -> & ->).
  apply andb_true_iff in Hc as [Hc Hcomma].
  apply andb_true_iff in Hc as [-> Hcolon].
  apply negb_true_iff in Hcomma, Hcolon. now rewrite Hcomma, Hcolon.
Qed.

Lemma append_assoc (a b c : string) : (a +:+ b) +:+ c = a +:+ b +:+ c.
Proof.
  induction a as [|x a IH]; [reflexivity|].
  change (String x ((a +:+ b) +:+ c) = String x (a +:+ b +:+ c)).
  now rewrite IH.
Qed.

Lemma matchLanguage_single (base key value : string) :
  base <> EmptyString ->
  JsString.all_chars JsString.is_word base = true ->
  JsString.all_chars (fun c => negb (JsString.is_line_terminator c))
    (key +:+ value) = true ->
  DiagramDetector.matchLanguage (base +:+ "{" +:+ key +:+ ":" +:+ value +:+ "}")
  = Some (base, key +:+ ":" +:+ value).
Proof.
  intros Hbase Hword Hline.
  rewrite all_chars_app in Hline. apply andb_true_iff in Hline as [Hk Hv].
  pose proof (matchLanguage_braced base EmptyString (key +:+ ":" +:+ value)
                Hbase Hword eq_refl) as Hmatch.
  change (base +:+ EmptyString +:+ "{" +:+ (key +:+ ":" +:+ value) +:+ "}")
    with (base +:+ "{" +:+ (key +:+ ":" +:+ value) +:+ "}") in Hmatch.
  rewrite (append_assoc key (":" +:+ value) "}") in Hmatch.
  apply Hmatch.
  - now destruct key.
  - rewrite !all_chars_app, Hk, Hv. reflexivity.
Qed.

Lemma parseOptionPairs_single (key value : string) :
  JsString.has_char ":"%char (key +:+ value) = false ->
  JsString.has_char ","%char (key +:+ value) = false ->
  JsString.trim key <> EmptyString ->
  JsString.trim value <> EmptyString ->
  JsString.trim key <> "__proto__" ->
  DiagramDetector.parseOptionPairs (key +:+ ":" +:+ value)
  = {[ JsString.trim key := JsString.trim value ]}.
Proof.
  intros Hcolon Hcomma Hk Hv Hproto.
  rewrite has_char_app in Hcolon, Hcomma.
  apply orb_false_iff in Hcolon as [Hck Hcv].
  apply orb_false_iff in Hcomma as [Hmk Hmv].
  unfold DiagramDetector.parseOptionPairs. rewrite split_single.
  - cbn [fold_left]. rewrite addPair_key_value by assumption.
    destruct (JsString.trim key) as [|a k'] eqn:Hkey; [congruence|].
    destruct (JsString.trim value) as [|b v'] eqn:Hval; [congruence|].
    cbn [String.eqb orb]. unfold DiagramDetector.setOption.
    replace (String.eqb (String a k') "__proto__") with false
      by (symmetry; now apply String.eqb_neq).
    reflexivity.
  - rewrite !has_char_app, Hmk, Hmv. reflexivity.
Qed.

(** X20. A tag [base{key:value}] with one well-formed option resolves
    to the base name with that one option, key and value trimmed of white
    space. *)
Theorem single_option_parsed (base key value : string) :
  base <> EmptyString ->
  JsString.all_chars JsString.is_word base = true ->
  JsString.all_chars
    (fun c => negb (JsString.is_line_terminator c)
              && negb (Ascii.eqb c ":"%char) && negb (Ascii.eqb c ","%char))
    (key +:+ value) = true ->
  JsString.trim key <> EmptyString ->
  JsString.trim value <> EmptyString ->
  JsString.trim key <> "__proto__" ->
  DiagramDetector.parseLanguageOptions
    (base +:+ "{" +:+ key +:+ ":" +:+ value +:+ "}")
  = (base, {[ JsString.trim key := JsString.trim value ]}).
Proof.
  intros Hbase Hword Hchars Hk Hv Hproto.
  destruct (plain_text_facts _ Hchars) as (Hcolon & Hcomma & Hline).
  unfold DiagramDetector.parseLanguageOptions.
  replace (JsString.includes "{" (base +:+ "{" +:+ key +:+ ":" +:+ value +:+ "}"))
    with true by (symmetry; apply includes_app; reflexivity).
  rewrite (matchLanguage_single base key value Hbase Hword Hline).
  now rewrite parseOptionPairs_single.
Qed.

Lemma single_option_parsed_witness :
  DiagramDetector.parseLanguageOptions "plantuml{ format : png }"
  = ("plantuml", {[ "format" := "png" ]}).
Proof.
  apply (single_option_parsed "plantuml" " format " " png ");
    try reflexivity; discriminate.
Defined.



(** ** The debug manager *)

Section DebugFacts.

Import DebugManager.

Lemma sliceFrom_last (start : Z) {A} (l : list A) :
  start <= -1 -> - start < Z.of_nat (length l) ->
  sliceFrom start l = skipn (length l - Z.to_nat (- start)) l
  /\ Z.of_nat (length (sliceFrom start l)) = - start.
Proof.
  intros Hk Hlen. unfold sliceFrom.
  replace (start <? 0) with true by (symmetry; apply Z.ltb_lt; lia).
  replace (Z.to_nat (Z.max (Z.of_nat (length l) + start) 0))
    with (length l - Z.to_nat (- start))%nat by lia.
  split; [reflexivity|]. rewrite length_skipn. lia.
Qed.

Lemma log_accepted (now : Z) (m : t) (lvl : DebugLevel) (cat msg : string)
    (d : option string) :
  rank lvl <= rank (currentLevel m) ->
  1 <= maxLogEntries m ->
  Z.of_nat (length (logs m)) <= maxLogEntries m ->
  let entry := {| timestamp := now; level := lvl; category := cat;
                  message := msg; data := d |} in
  let m' := log now m lvl cat msg d in
  Z.of_nat (length (logs m')) <= maxLogEntries m
  /\ exists dropped,
       (dropped <= 1)%nat /\ logs m' = skipn dropped (logs m) ++ [entry].
Proof.
  intros Hlvl Hmax Hlen entry m'. subst m'. unfold log.
  replace (rank lvl <=? rank (currentLevel m)) with true
    by (symmetry; apply Z.leb_le; lia).
  fold entry.
  destruct (Z.gtb_spec (Z.of_nat (length (logs m ++ [entry]))) (maxLogEntries m))
    as [Hover|Hfit]; cbn [with_logs logs].
  - rewrite length_app in Hover. cbn [length] in Hover.
    destruct (sliceFrom_last (- maxLogEntries m) (logs m ++ [entry]))
      as [Heq Hsize]; [lia | rewrite length_app; cbn [length]; lia|].
    split; [lia|]. exists 1%nat. split; [lia|].
    rewrite Heq, length_app. cbn [length].
    replace (length (logs m) + 1 - Z.to_nat (- - maxLogEntries m))%nat
      with 1%nat by lia.
    rewrite skipn_app.
    replace (1 - length (logs m))%nat with 0%nat by lia. reflexivity.
  - split; [exact Hfit|]. exists 0%nat. split; [lia|reflexivity].
Qed.

Lemma log_limits (now : Z) (m : t) (lvl : DebugLevel) (cat msg : string)
    (d : option string) :
  let m' := log now m lvl cat msg d in
  maxLogEntries m' = maxLogEntries m /\ currentLevel m' = currentLevel m
  /\ stats m' = stats m /\ requestTimes m' = requestTimes m.
Proof.
  intros m'. subst m'. unfold log.
  destruct (_ <=? _); [|now repeat split].
  destruct (_ >? _); now repeat split.
Qed.

Lemma log_bounded (now : Z) (m : t) (lvl : DebugLevel) (cat msg : string)
    (d : option string) :
  1 <= maxLogEntries m ->
  Z.of_nat (length (logs m)) <= maxLogEntries m ->
  Z.of_nat (length (logs (log now m lvl cat msg d))) <= maxLogEntries m.
Proof.
  intros Hmax Hlen.
  destruct (Z.leb_spec (rank lvl) (rank (currentLevel m))) as [Hlvl|Hlvl].
  - now apply log_accepted.
  - unfold log. now replace (_ <=? _) with false by (symmetry; apply Z.leb_gt; lia).
Qed.

Lemma log_stats_consistent (now : Z) (m : t) (lvl : DebugLevel)
    (cat msg : string) (d : option string) :
  stats_consistent m -> stats_consistent (log now m lvl cat msg d).
Proof.
  unfold stats_consistent.
  destruct (log_limits now m lvl cat msg d) as (_ & _ & -> & ->). tauto.
Qed.

Lemma sliceFrom_length_le (start : Z) {A} (l : list A) :
  (length (sliceFrom start l) <= length l)%nat.
Proof. unfold sliceFrom. rewrite length_skipn. lia. Qed.

Lemma apply_stats_consistent (m : t) (c : Call) :
  stats_consistent m -> stats_consistent (apply m c).
Proof.
  intros Hm. destruct c as [lvl | tm cat msg d | tm cat msg d | tm cat msg d | tm cat msg d | rt | | | | | ];
    cbn [apply]; unfold error, warn, info, debug;
    try (now apply log_stats_consistent); try exact Hm.
  - unfold stats_consistent in *. unfold recordSuccessfulRequest, recordResponseTime.
    cbn [with_stats stats requestTimes bump totalRequests successfulRequests
         failedRequests].
    destruct Hm as (Htot & Hfail & Hlen & H100).
    assert (Hpushed : length (requestTimes m ++ [rt])
                      = S (length (requestTimes m)))
      by (rewrite length_app; cbn [length]; lia).
    destruct (Z.gtb_spec (Z.of_nat (length (requestTimes m ++ [rt]))) 100)
      as [Hover|Hfit].
    + destruct (sliceFrom_last (-100) (requestTimes m ++ [rt]))
        as [_ Hsize]; [lia | lia |].
      repeat split; lia.
    + repeat split; lia.
  - unfold stats_consistent in *. cbn. repeat split; lia.
  - unfold stats_consistent in *. cbn. repeat split; lia.
  - unfold stats_consistent in *. cbn. repeat split; lia.
  - unfold stats_consistent. cbn. repeat split; lia.
Qed.

Lemma apply_log_bounded (m : t) (c : Call) :
  1 <= maxLogEntries m ->
  Z.of_nat (length (logs m)) <= maxLogEntries m ->
  maxLogEntries (apply m c) = maxLogEntries m
  /\ Z.of_nat (length (logs (apply m c))) <= maxLogEntries m.
Proof.
  intros Hmax Hlen. destruct c as [lvl | tm cat msg d | tm cat msg d | tm cat msg d | tm cat msg d | rt | | | | | ];
    cbn [apply]; unfold error, warn, info, debug;
    try (split; [apply log_limits | now apply log_bounded]);
    try (split; [reflexivity | assumption]).
  split; [reflexivity | cbn; lia].
Qed.

End DebugFacts.

(** X22. With a limit of at least one entry, the log never holds more
    entries than the limit, whatever calls are made on a new manager. *)
Theorem log_buffer_bounded (maxLogEntries : Z) (level : DebugManager.DebugLevel)
    (callsList : list DebugManager.Call) :
  1 <= maxLogEntries ->
  Z.of_nat (length (DebugManager.logs
                      (DebugManager.run (DebugManager.new maxLogEntries level)
                         callsList)))
  <= maxLogEntries.
Proof.
  intros Hmax. unfold DebugManager.run.
  assert (Hgen : forall m,
    DebugManager.maxLogEntries m = maxLogEntries ->
    Z.of_nat (length (DebugManager.logs m)) <= maxLogEntries ->
    Z.of_nat (length (DebugManager.logs
                        (fold_left DebugManager.apply callsList m)))
    <= maxLogEntries).
  { induction callsList as [|c rest IH]; intros m HN Hlen; cbn [fold_left];
      [exact Hlen|].
    destruct (apply_log_bounded m c) as [HN' Hlen']; [lia | lia |].
    apply IH; lia. }
  apply Hgen; [reflexivity | cbn; lia].
Qed.

Lemma log_buffer_bounded_witness :
  Z.of_nat (length (DebugManager.logs
                      (DebugManager.run
                         (DebugManager.new 2 DebugManager.INFO)
                         [DebugManager.CallInfo 1 "plugin" "a" None;
                          DebugManager.CallError 2 "plugin" "b" None;
                          DebugManager.CallWarn 3 "plugin" "c" None])))
  <= 2.
Proof.
  apply (log_buffer_bounded 2 DebugManager.INFO). discriminate.
Defined.

(** X23. With a limit of 0 entries nothing is ever dropped:
    [logs.slice(-0)] is the whole array, so every accepted message makes
    the log one entry longer. *)
Theorem log_limit_zero_keeps_all (now : Z) (m : DebugManager.t)
    (level : DebugManager.DebugLevel) (category message : string)
    (data : option string) :
  DebugManager.maxLogEntries m = 0 ->
  DebugManager.rank level <= DebugManager.rank (DebugManager.currentLevel m) ->
  DebugManager.logs (DebugManager.log now m level category message data)
  = DebugManager.logs m
    ++ [{| DebugManager.timestamp := now;
           DebugManager.level := level;
           DebugManager.category := category;
           DebugManager.message := message;
           DebugManager.data := data |}].
Proof.
  intros Hzero Hlvl. unfold DebugManager.log.
  replace (_ <=? _) with true by (symmetry; apply Z.leb_le; lia).
  rewrite Hzero. destruct (_ >? _); [|reflexivity].
  cbn [DebugManager.with_logs DebugManager.logs]. unfold DebugManager.sliceFrom.
  change (- 0 <? 0) with false. cbv beta iota.
  rewrite Z.min_l by lia. reflexivity.
Qed.

Lemma log_limit_zero_keeps_all_witness :
  length (DebugManager.logs
            (DebugManager.log 2
               (DebugManager.log 1 (DebugManager.new 0 DebugManager.INFO)
                  DebugManager.INFO "plugin" "a" None)
               DebugManager.WARN "plugin" "b" None)) = 2%nat.
Proof.
  rewrite (log_limit_zero_keeps_all 2
             (DebugManager.log 1 (DebugManager.new 0 DebugManager.INFO)
                DebugManager.INFO "plugin" "a" None)
             DebugManager.WARN "plugin" "b" None eq_refl ltac:(discriminate)).
  reflexivity.
Defined.

(** X24. Whatever calls are made on a new manager, the request counters
    add up: the total is the successes plus the failures, and the
    response times kept are at most 100 and at most the successes. *)
Theorem stats_add_up (maxLogEntries : Z) (level : DebugManager.DebugLevel)
    (callsList : list DebugManager.Call) :
  let m := DebugManager.run (DebugManager.new maxLogEntries level) callsList in
  DebugManager.totalRequests (DebugManager.stats m)
  = DebugManager.successfulRequests (DebugManager.stats m)
    + DebugManager.failedRequests (DebugManager.stats m)
  /\ Z.of_nat (length (DebugManager.requestTimes m))
     <= DebugManager.successfulRequests (DebugManager.stats m)
  /\ Z.of_nat (length (DebugManager.requestTimes m)) <= 100.
Proof.
  intros m.
  assert (Hinv : DebugManager.stats_consistent m).
  { subst m. unfold DebugManager.run.
    assert (Hgen : forall m0, DebugManager.stats_consistent m0 ->
              DebugManager.stats_consistent
                (fold_left DebugManager.apply callsList m0)).
    { induction callsList as [|c rest IH]; intros m0 H0; cbn [fold_left];
        [exact H0|].
      apply IH. now apply apply_stats_consistent. }
    apply Hgen. unfold DebugManager.stats_consistent. cbn. repeat split; lia. }
  destruct Hinv as (Htot & _ & Hlen & H100). now repeat split.
Qed.

(** X25. An error is logged whatever the current level, and counted:
    with a limit of at least one entry within which the log is, [error]
    puts its entry last in the log. For a category that is not the name
    of a property of [Object.prototype], it raises the count of the
    category by one, starting from 0. For such a name there is no count
    to start from: the first error stores [NaN] under it, and nothing at
    all under [__proto__]. *)
Theorem error_always_recorded (now : Z) (m : DebugManager.t)
    (category message : string) (data : option string) :
  let m' := DebugManager.error now m category message data in
  let counts := DebugManager.errorsByType (DebugManager.stats m) in
  let counts' := DebugManager.errorsByType (DebugManager.stats m') in
  1 <= DebugManager.maxLogEntries m ->
  Z.of_nat (length (DebugManager.logs m)) <= DebugManager.maxLogEntries m ->
  last (DebugManager.logs m')
  = Some {| DebugManager.timestamp := now;
            DebugManager.level := DebugManager.ERROR;
            DebugManager.category := category;
            DebugManager.message := message;
            DebugManager.data := data |}
  /\ (DebugManager.inherited category = false ->
      counts' !! category
      = Some (DebugManager.Num
                (match counts !! category with
                 | Some (DebugManager.Num count) => count
                 | _ => 0
                 end + 1)))
  /\ (DebugManager.inherited category = true ->
      category <> "__proto__" ->
      counts !! category = None ->
      counts' !! category = Some DebugManager.NaN)
  /\ (category = "__proto__" -> counts' = counts).
Proof.
  intros m' counts counts' Hmax Hlen. subst m' counts counts'.
  unfold DebugManager.error.
  cbn [DebugManager.with_stats DebugManager.logs DebugManager.stats].
  destruct (log_limits now m DebugManager.ERROR category message data)
    as (_ & _ & Hstats & _).
  split; [|rewrite Hstats; unfold DebugManager.countError;
           cbn [DebugManager.errorsByType]; unfold DebugManager.countCategory;
           split; [|split]].
  - destruct (log_accepted now m DebugManager.ERROR category message data)
      as (_ & dropped & _ & ->); try assumption.
    + destruct (DebugManager.currentLevel m); cbn; lia.
    + apply last_snoc.
  - intros Hown.
    assert (Hproto : String.eqb category "__proto__" = false).
    { destruct (String.eqb_spec category "__proto__") as [->|]; [|reflexivity].
      discriminate Hown. }
    rewrite Hproto, Hown.
    destruct (DebugManager.errorsByType (DebugManager.stats m) !! category)
      as [[count|]|]; rewrite lookup_insert_eq; [|reflexivity..].
    destruct (Z.eqb_spec count 0) as [->|]; reflexivity.
  - intros Hinherited Hproto Hnone.
    replace (String.eqb category "__proto__") with false
      by (symmetry; now apply String.eqb_neq).
    rewrite Hnone, Hinherited. apply lookup_insert_eq.
  - intros ->. reflexivity.
Qed.

Lemma error_always_recorded_witness :
  (* two errors of one category *)
  DebugManager.errorsByType
    (DebugManager.stats
       (DebugManager.error 2
          (DebugManager.error 1 (DebugManager.new 10 DebugManager.ERROR)
             "render" "first" None)
          "render" "second" None)) !! "render"
  = Some (DebugManager.Num 2)
  (* a category named as a method of every object *)
  /\ DebugManager.errorsByType
       (DebugManager.stats
          (DebugManager.error 1 (DebugManager.new 10 DebugManager.ERROR)
             "constructor" "first" None)) !! "constructor"
     = Some DebugManager.NaN.
Proof.
  split.
  - apply (proj1 (proj2 (error_always_recorded 2
                    (DebugManager.error 1 (DebugManager.new 10 DebugManager.ERROR)
                       "render" "first" None)
                    "render" "second" None
                    ltac:(discriminate) ltac:(discriminate)))).
    reflexivity.
  - apply (proj1 (proj2 (proj2 (error_always_recorded 1
                    (DebugManager.new 10 DebugManager.ERROR)
                    "constructor" "first" None
                    ltac:(discriminate) ltac:(discriminate))))).
    + reflexivity.
    + discriminate.
    + reflexivity.
Defined.

(** ** The exporter and the plugin *)

(** X26. The arguments built for pandoc always start with the quoted
    input path, [-o] with the quoted output path and [-t] with the
    format, and always end with the custom arguments, unchanged and in
    order. *)
Theorem buildPandocArgs_shape (stylesPath inputPath outputPath : string)
    (options : PandocExporter.ExportOptions) :
  exists middle,
    fst (PandocExporter.buildPandocArgs stylesPath inputPath outputPath options)
    = [PandocExporter.quoted inputPath;
       "-o " +:+ PandocExporter.quoted outputPath;
       "-t " +:+ PandocExporter.format options]
      ++ middle
      ++ default [] (PandocExporter.customArgs options).
Proof.
  unfold PandocExporter.buildPandocArgs.
  set (head := [PandocExporter.quoted inputPath;
                "-o " +:+ PandocExporter.quoted outputPath;
                "-t " +:+ PandocExporter.format options]).
  set (a1 := match PandocExporter.includeImages options with
             | Some true => head ++ ["--embed-resources"; "--standalone"]
             | _ => head
             end).
  assert (H1 : exists mid, a1 = head ++ mid).
  { unfold a1. destruct (PandocExporter.includeImages options) as [[|]|];
      eexists; try reflexivity; now rewrite app_nil_r. }
  destruct H1 as (mid1 & ->).
  set (a2 := match PandocExporter.metadata options with
             | Some entries => (head ++ mid1) ++ map _ entries
             | None => head ++ mid1
             end).
  assert (H2 : exists mid, a2 = head ++ mid).
  { unfold a2. destruct (PandocExporter.metadata options) as [entries|].
    - eexists. now rewrite <- app_assoc.
    - now exists mid1. }
  destruct H2 as (mid2 & ->).
  set (styled := match PandocExporter.customStyles options with
                 | Some (String _ _ as styles) => _
                 | _ => (head ++ mid2, [])
                 end).
  assert (H3 : exists mid, fst styled = head ++ mid).
  { unfold styled.
    destruct (PandocExporter.customStyles options) as [[|c styles]|];
      [now exists mid2| |now exists mid2].
    destruct (_ || _); [eexists; cbn [fst]; now rewrite <- app_assoc|].
    destruct (_ || _); [eexists; cbn [fst]; now rewrite <- app_assoc|].
    now exists mid2. }
  destruct H3 as (mid3 & H3). destruct styled as [args written].
  cbn [fst] in H3. subst args.
  destruct (PandocExporter.customArgs options) as [[|x extra]|]; cbn [fst].
  - exists mid3. change (default [] (Some [])) with (@nil string).
    now rewrite app_nil_r.
  - exists mid3. change (default [] (Some (x :: extra))) with (x :: extra).
    now rewrite <- app_assoc.
  - exists mid3. change (default [] None) with (@nil string).
    now rewrite app_nil_r.
Qed.

(** X27. Custom styles only reach pandoc for the formats [html],
    [html5], [pdf] and [latex]: for any other format the style sheet is
    still written to the temporary file, and the arguments are the ones
    built without custom styles. *)
Theorem styles_unused_for_other_formats (stylesPath inputPath outputPath : string)
    (options : PandocExporter.ExportOptions) (styles : string) :
  PandocExporter.customStyles options = Some styles ->
  styles <> EmptyString ->
  ~ In (PandocExporter.format options) ["html"; "html5"; "pdf"; "latex"] ->
  PandocExporter.buildPandocArgs stylesPath inputPath outputPath options
  = (fst (PandocExporter.buildPandocArgs stylesPath inputPath outputPath
            {| PandocExporter.format := PandocExporter.format options;
               PandocExporter.outputPath := PandocExporter.outputPath options;
               PandocExporter.customArgs := PandocExporter.customArgs options;
               PandocExporter.customStyles := None;
               PandocExporter.includeImages := PandocExporter.includeImages options;
               PandocExporter.metadata := PandocExporter.metadata options |}),
     [(stylesPath, styles)]).
Proof.
  intros Hstyles Hne Hfmt. unfold PandocExporter.buildPandocArgs.
  cbn [PandocExporter.format PandocExporter.customArgs PandocExporter.customStyles
       PandocExporter.includeImages PandocExporter.metadata].
  rewrite Hstyles. destruct styles as [|c styles]; [congruence|].
  assert (Hneq : forall f, In f ["html"; "html5"; "pdf"; "latex"] ->
                           String.eqb (PandocExporter.format options) f = false).
  { intros f Hf. apply String.eqb_neq. intros Heq. apply Hfmt.
    now rewrite Heq. }
  rewrite !Hneq by (simpl; tauto). cbn [orb].
  now destruct (PandocExporter.customArgs options) as [[|x extra]|].
Qed.

Lemma styles_unused_for_other_formats_witness :
  let options :=
    {| PandocExporter.format := "docx";
       PandocExporter.outputPath := None;
       PandocExporter.customArgs := Some ["--toc"];
       PandocExporter.customStyles := Some "img { width: 100% }";
       PandocExporter.includeImages := Some true;
       PandocExporter.metadata := Some [("title", "Notes")] |} in
  snd (PandocExporter.buildPandocArgs "/tmp/custom-styles.css" "/tmp/in.md"
         "/tmp/out.docx" options)
  = [("/tmp/custom-styles.css", "img { width: 100% }")].
Proof.
  intros options.
  rewrite (styles_unused_for_other_formats "/tmp/custom-styles.css" "/tmp/in.md"
             "/tmp/out.docx" options "img { width: 100% }" eq_refl);
    [reflexivity | discriminate | simpl; intuition discriminate].
Defined.

Section PluginFacts.

Import Plugin.

Lemma assign_In {V} (key k : string) (value v : V) (obj : list (string * V)) :
  In (k, v) (assign key value obj) -> (k, v) = (key, value) \/ In (k, v) obj.
Proof.
  induction obj as [|[k0 v0] obj IH]; simpl.
  - intros [H|[]]. now left.
  - destruct (String.eqb_spec k0 key) as [->|Hne]; simpl.
    + intros [H|H]; [now left | right; now right].
    + intros [H|H]; [right; now left|].
      apply IH in H as [H|H]; [now left | right; now right].
Qed.

Lemma diagramTypesMap_In (settings : KrokiSettings) (name : string)
    (names : list string) :
  In (name, names) (diagramTypesMap settings) ->
  exists key diagramType,
    In (key, diagramType) (diagramTypes settings)
    /\ enabled diagramType = true
    /\ obsidianBlockName diagramType = name
    /\ aliases diagramType = names.
Proof.
  unfold diagramTypesMap.
  assert (Hgen : forall (entries : list (string * KrokiDiagramType))
                         (m : list (string * list string)),
    In (name, names)
      (fold_left
         (fun (m : list (string * list string))
              '((_, diagramType) : string * KrokiDiagramType) =>
            if enabled diagramType
            then assign (obsidianBlockName diagramType) (aliases diagramType) m
            else m) entries m) ->
    In (name, names) m
    \/ exists key diagramType,
         In (key, diagramType) entries
         /\ enabled diagramType = true
         /\ obsidianBlockName diagramType = name
         /\ aliases diagramType = names).
  { induction entries as [|[key dt] rest IH]; intros m; cbn [fold_left];
      [now left|].
    intros H. apply IH in H as [H|(k & d & Hin & Hd)].
    - destruct (enabled dt) eqn:Hen; [|now left].
      apply assign_In in H as [[= -> ->]|H]; [|now left].
      right. exists key, dt. repeat split; [now left | exact Hen].
    - right. exists k, d. split; [now right | exact Hd]. }
  intros H. apply Hgen in H as [[]|H]. exact H.
Qed.

End PluginFacts.

(** X28. After [initializeRenderer], a tag that no enabled diagram type
    has as block name or alias is not resolved, whatever table the
    renderer had before; and a renderer that existed already keeps its
    cache with its entries and its two limits, the cache size and age of
    the new settings being ignored. *)
Theorem initializeRenderer_spec (settings : Plugin.KrokiSettings)
    (renderer : option DiagramRenderer.t) (language : string) :
  (forall key diagramType,
      In (key, diagramType) (Plugin.diagramTypes settings) ->
      Plugin.enabled diagramType = true ->
      ~ In language (Plugin.obsidianBlockName diagramType
                       :: Plugin.aliases diagramType)) ->
  DiagramDetector.detectDiagramType
    (DiagramRenderer.detector (Plugin.initializeRenderer settings renderer))
    language = None
  /\ (forall r, renderer = Some r ->
        DiagramRenderer.cache (Plugin.initializeRenderer settings renderer)
        = DiagramRenderer.cache r).
Proof.
  intros Hnone. split.
  - assert (Hdet : DiagramRenderer.detector
                     (Plugin.initializeRenderer settings renderer)
                   = DiagramDetector.new (Plugin.diagramTypesMap settings))
      by (now destruct renderer).
    rewrite Hdet.
    unfold DiagramDetector.detectDiagramType, DiagramDetector.new.
    cbn [DiagramDetector.aliasMap].
    destruct (DiagramDetector.buildAliasMap _ !! language) as [[|c dt]|] eqn:Hres;
      [reflexivity| |reflexivity].
    apply aliasMap_sound in Hres as (names & Hin & Hlang).
    apply diagramTypesMap_In in Hin as (key & d & Hin & Hen & Hname & Hal).
    rewrite <- Hname, <- Hal in Hlang.
    exfalso. exact (Hnone key d Hin Hen Hlang).
  - now intros r ->.
Qed.

Lemma initializeRenderer_spec_witness :
  let disabled :=
    {| Plugin.prettyName := "Mermaid"; Plugin.krokiBlockName := "mermaid";
       Plugin.obsidianBlockName := "mermaid"; Plugin.description := "Mermaid";
       Plugin.url := "https://mermaid.js.org"; Plugin.enabled := false;
       Plugin.aliases := ["mmd"] |} in
  let settings :=
    {| Plugin.diagramTypes := [("mermaid", disabled)];
       Plugin.cacheSize := 10; Plugin.cacheAge := 1000 |} in
  let before := DiagramRenderer.new [("mermaid", ["mmd"])] 100 3600000 in
  DiagramDetector.detectDiagramType (DiagramRenderer.detector before) "mmd"
  = Some "mermaid"
  /\ DiagramDetector.detectDiagramType
       (DiagramRenderer.detector
          (Plugin.initializeRenderer settings (Some before))) "mmd"
     = None.
Proof.
  intros disabled settings before. split; [reflexivity|].
  apply (initializeRenderer_spec settings (Some before) "mmd").
  intros key d [[= <- <-]|[]]. discriminate.
Defined.
